(** * DemoIADesign: the square-padding geometry, the /api/generate relay
      and the editor's history state

    A shallow embedding of

    - [services/geminiService.ts]: [padImageToSquare], [cropSquareToOriginal],
      [drawHotspotOnImage], [fileToBase64] and the six [generate...] service
      functions;
    - [api/generate.js]: [handler], [base64ToPart], [handleApiResponse] and
      the four [handle...Request] functions;
    - [App.tsx]: the [useState] cells of the editor and its handlers,
      [dataURLtoFile], and what the render passes to its controls;
    - [components/PlacePanel.tsx] and [components/GridPanel.tsx]: the
      handlers and the [disabled] conditions of their buttons;
    - the earlier [services/geminiService.ts]: [handleApiResponse] and
      [fileToPart].

    Conventions.

    - JavaScript numbers are IEEE-754 doubles.  The geometry is written
      once, over a class [JsNumber] of the operators the source uses, and
      read at two instances: [float] (the kernel's binary64, what a
      JavaScript engine computes) and [Qc] (exact rationals).
    - An image is a raster: [colourAt img i j] is its pixel in column i,
      row j.  A canvas is the list of the drawing calls made on it, and
      [render] gives the pixel it then holds.  A call that copies or fills
      whole pixels (an image drawn at its own size with every corner on the
      pixel grid, a rectangle on the grid, the pixels a circle covers
      entirely or not at all) is determinate; what any other call leaves in
      a pixel is the choice of the browser's rasteriser (its smoothing
      filter, its anti-aliasing) and is a parameter, [smooth].  Image pixels
      are opaque or fully transparent.
    - A string is the UTF-8 encoding of the JavaScript string.
    - The browser (file reader, image decoder, 2D context, PNG encoder,
      [atob]) and the generative API are parameters; a promise is modelled
      by how it settles.
    - A React handler is a function from the state of the render it closes
      over to the state after its [set...] calls; an [async] handler is cut
      at its [await].
    - The prose of the four prompts is left out; what they interpolate is
      kept.  A request body travels as a record, not as JSON text. *)

From Stdlib Require Import ZArith QArith Qcanon Qround Lia Lqa Bool.
From Stdlib Require Import Uint63 Floats.PrimFloat Floats.SpecFloat Floats.FloatOps.
From Stdlib Require Import Ascii String.
From stdpp Require Import base list strings.

Set Default Proof Using "Type".

(** ** JavaScript numbers *)

Declare Scope js_scope.
Delimit Scope js_scope with js.

Class JsNumber (num : Type) := {
  num_of_Z : Z -> num;
  nadd : num -> num -> num;
  nsub : num -> num -> num;
  nmul : num -> num -> num;
  ndiv : num -> num -> num;
  (** [Math.max] and [Math.min] *)
  Math_max : num -> num -> num;
  Math_min : num -> num -> num;
  (** [<=] and [<] *)
  nleb : num -> num -> bool;
  nltb : num -> num -> bool;
  (** the integer a number is, when it is one ([Number.isInteger]) *)
  whole : num -> option Z;
}.

Infix "+" := nadd : js_scope.
Infix "-" := nsub : js_scope.
Infix "*" := nmul : js_scope.
Infix "/" := ndiv : js_scope.
Infix "<=?" := nleb : js_scope.
Infix "<?" := nltb : js_scope.

(** Exact rationals. *)
Definition Qc_leb (a b : Qc) : bool :=
  match (a ?= b)%Qc with Gt => false | _ => true end.
Definition Qc_ltb (a b : Qc) : bool :=
  match (a ?= b)%Qc with Lt => true | _ => false end.

(** A rational in lowest terms is an integer when its denominator is 1. *)
Definition Qc_whole (q : Qc) : option Z :=
  if (Qden (this q) =? 1)%positive then Some (Qnum (this q)) else None.

#[export] Instance Qc_number : JsNumber Qc := {|
  num_of_Z z := Q2Qc (inject_Z z);
  nadd := Qcplus;
  nsub := Qcminus;
  nmul := Qcmult;
  ndiv := Qcdiv;
  Math_max a b := if Qc_ltb a b then b else a;
  Math_min a b := if Qc_ltb b a then b else a;
  nleb := Qc_leb;
  nltb := Qc_ltb;
  whole := Qc_whole;
|}.

(** IEEE-754 binary64, round to nearest even: the arithmetic of a
    JavaScript [Number].  [Math.max] and [Math.min] return NaN when an
    argument is NaN and order -0 below +0. *)
Definition is_neg_zero (a : float) : bool :=
  (PrimFloat.is_zero a && PrimFloat.get_sign a)%bool.

Definition float_max (a b : float) : float :=
  if (PrimFloat.is_nan a || PrimFloat.is_nan b)%bool then PrimFloat.nan
  else if PrimFloat.ltb a b then b
  else if PrimFloat.ltb b a then a
  else if is_neg_zero a then b else a.

Definition float_min (a b : float) : float :=
  if (PrimFloat.is_nan a || PrimFloat.is_nan b)%bool then PrimFloat.nan
  else if PrimFloat.ltb a b then a
  else if PrimFloat.ltb b a then b
  else if is_neg_zero a then a else b.

(** The double nearest to an integer (exact up to 2^53 in magnitude; the
    conversion goes through 63-bit integers, so [z] is taken below 2^63). *)
Definition float_of_Z (z : Z) : float :=
  match z with
  | Z0 => PrimFloat.zero
  | Zpos _ => PrimFloat.of_uint63 (Uint63.of_Z z)
  | Zneg _ => PrimFloat.opp (PrimFloat.of_uint63 (Uint63.of_Z (Z.opp z)))
  end.

(** A finite double is m * 2^e: an integer when e is not negative or 2^-e
    divides m.  NaN and the infinities are not. *)
Definition float_whole (x : float) : option Z :=
  match Prim2SF x with
  | S754_zero _ => Some 0%Z
  | S754_finite s m e =>
      let v := if (0 <=? e)%Z then Some (Zpos m * 2 ^ e)%Z
               else let d := (2 ^ (- e))%Z in
                    if (Zpos m mod d =? 0)%Z then Some (Zpos m / d)%Z else None in
      match v with
      | Some z => Some (if s then (- z)%Z else z)
      | None => None
      end
  | _ => None
  end.

#[export] Instance float_number : JsNumber float := {|
  num_of_Z := float_of_Z;
  nadd := PrimFloat.add;
  nsub := PrimFloat.sub;
  nmul := PrimFloat.mul;
  ndiv := PrimFloat.div;
  Math_max := float_max;
  Math_min := float_min;
  nleb := PrimFloat.leb;
  nltb := PrimFloat.ltb;
  whole := float_whole;
|}.

(** ** JavaScript strings and possibly undefined values

    [undefined] is [None] (and so is [null], where the source reads the two
    alike).  A string is truthy when it is not empty; a template literal
    prints [undefined] as the word. *)

Definition truthy (s : option string) : bool :=
  match s with Some s => negb (String.eqb s "") | None => false end.

(** [a || b] on a possibly undefined string. *)
Definition js_or (a : option string) (b : string) : string :=
  match a with Some s => if String.eqb s "" then b else s | None => b end.

(** The double-quote character. *)
Definition dquote : string := String (Ascii.ascii_of_nat 34) EmptyString.

(** [`${v}`] *)
Definition interpolate (v : option string) : string :=
  match v with Some s => s | None => "undefined" end.

Fixpoint strip_prefix (p s : string) : option string :=
  match p, s with
  | EmptyString, _ => Some s
  | String a p', String b s' => if Ascii.eqb a b then strip_prefix p' s' else None
  | String _ _, EmptyString => None
  end.

Definition is_lower (c : Ascii.ascii) : bool :=
  let n := Ascii.N_of_ascii c in (97 <=? n)%N && (n <=? 122)%N.

Fixpoint skip_lower (s : string) : string :=
  match s with
  | String c s' => if is_lower c then skip_lower s' else s
  | EmptyString => s
  end.

(** [s.replace(/^data:image\/[a-z]+;base64,/, '')] *)
Definition stripDataUrlPrefix (s : string) : string :=
  match strip_prefix "data:image/" s with
  | Some rest =>
      let rest' := skip_lower rest in
      if (String.length rest' <? String.length rest)%nat then
        match strip_prefix ";base64," rest' with
        | Some data => data
        | None => s
        end
      else s
  | None => s
  end.

(** The white space and line terminators [String.prototype.trim] strips,
    by their UTF-8 encodings: U+0009 to U+000D and U+0020 (one byte);
    U+00A0 (two bytes); U+1680, U+2000 to U+200A, U+2028, U+2029, U+202F,
    U+205F, U+3000 and U+FEFF (three bytes). *)
Definition is_space (c : Ascii.ascii) : bool :=
  let n := Ascii.N_of_ascii c in
  (n =? 32)%N || ((9 <=? n)%N && (n <=? 13)%N).

Definition is_space2 (c1 c2 : Ascii.ascii) : bool :=
  (Ascii.N_of_ascii c1 =? 194)%N && (Ascii.N_of_ascii c2 =? 160)%N.

Definition is_space3 (c1 c2 c3 : Ascii.ascii) : bool :=
  let a := Ascii.N_of_ascii c1 in
  let b := Ascii.N_of_ascii c2 in
  let c := Ascii.N_of_ascii c3 in
  ((a =? 225)%N && (b =? 154)%N && (c =? 128)%N)
  || ((a =? 226)%N && (b =? 128)%N
      && (((128 <=? c)%N && (c <=? 138)%N) || (c =? 168)%N || (c =? 169)%N || (c =? 175)%N))
  || ((a =? 226)%N && (b =? 129)%N && (c =? 159)%N)
  || ((a =? 227)%N && (b =? 128)%N && (c =? 128)%N)
  || ((a =? 239)%N && (b =? 187)%N && (c =? 191)%N).

Fixpoint trimStart (s : string) : string :=
  match s with
  | String c1 s1 =>
      if is_space c1 then trimStart s1
      else match s1 with
           | String c2 s2 =>
               if is_space2 c1 c2 then trimStart s2
               else match s2 with
                    | String c3 s3 => if is_space3 c1 c2 c3 then trimStart s3 else s
                    | EmptyString => s
                    end
           | EmptyString => s
           end
  | EmptyString => s
  end.

(** A string of white space only is trimmed to nothing; any other keeps its
    first byte and loses the white space at its end. *)
Fixpoint trimEnd (s : string) : string :=
  match s with
  | String c s' =>
      if String.eqb (trimStart s) "" then EmptyString else String c (trimEnd s')
  | EmptyString => EmptyString
  end.

(** [String.prototype.trim] *)
Definition trim (s : string) : string := trimEnd (trimStart s).

(** ** Promises

    A settled promise: resolved with a value, or rejected.  The source
    rejects with [Error] objects ([reject(new Error(...))], [throw new
    Error(...)]) and with DOM events ([reader.onerror], [img.onerror]); the
    difference is read by [err instanceof Error] in the editor. *)

Inductive Rejection :=
| ErrorObj (message : string)
| DomEvent.

Inductive Promise (A : Type) :=
| Resolved (a : A)
| Rejected (r : Rejection).
Arguments Resolved {A} a.
Arguments Rejected {A} r.

(** ** Images, canvases and files *)

Inductive Colour :=
| Transparent                      (* a fresh canvas: transparent black *)
| Texel (v : N)                    (* an opaque pixel: 0xRRGGBB *)
| Cyan70 (under : Colour)          (* 'rgba(0, 255, 255, 0.7)' over [under] *)
| White80 (under : Colour).        (* 'rgba(255, 255, 255, 0.8)' over [under] *)

(** [fillStyle = 'black'] *)
Definition Black : Colour := Texel 0.

Section Geometry.
Context {num : Type} `{JsNumber num}.
Local Open Scope js_scope.

Notation "0" := (num_of_Z 0) : js_scope.
Notation "1" := (num_of_Z 1) : js_scope.
Notation "2" := (num_of_Z 2) : js_scope.

(** A decoded image ([HTMLImageElement] after [onload]): its natural size
    and its pixels, [colourAt img i j] being the pixel in column i, row j. *)
Record Bitmap := {
  naturalWidth : num;
  naturalHeight : num;
  colourAt : Z -> Z -> Colour;
}.

(** The calls made on a [CanvasRenderingContext2D], each with the context
    state ([fillStyle], [strokeStyle], [lineWidth],
    [imageSmoothingQuality]) it is made under. *)
Inductive DrawOp :=
| fillRect (fillStyle : string) (x y w h : num)
| drawImage3 (img : Bitmap) (dx dy : num)
| drawImage5 (img : Bitmap) (dx dy dw dh : num)
| drawImage9 (imageSmoothingQuality : string) (img : Bitmap)
             (sx sy sw sh dx dy dw dh : num)
| arcFill (fillStyle : string) (x y radius : num)
| arcStroke (strokeStyle : string) (lineWidth : num) (x y radius : num).

Record Canvas := {
  width : num;
  height : num;
  ops : list DrawOp;               (* in call order *)
}.

(** The rasteriser of the browser, where the canvas standard leaves the
    result to it: [smooth op under i j] is what the call [op] leaves in the
    pixel (i, j) that held [under], when the call is an image drawn scaled or
    off the pixel grid (the smoothing filter) or a shape that covers the
    pixel in part (anti-aliasing). *)
Class Smoothing := smooth : DrawOp -> Colour -> Z -> Z -> Colour.

Context {rasteriser : Smoothing}.

Definition inRect (x y w h px py : num) : bool :=
  (x <=? px) && (px <? x + w) && (y <=? py) && (py <? y + h).

Definition sq (a : num) : num := a * a.

Definition fillColour (style : string) (under : Colour) : Colour :=
  if String.eqb style "black" then Black
  else if String.eqb style "rgba(0, 255, 255, 0.7)" then Cyan70 under
  else if String.eqb style "rgba(255, 255, 255, 0.8)" then White80 under
  else under.

(** Source-over compositing of an image pixel: an opaque pixel replaces
    what is under it, a transparent one leaves it. *)
Definition imageOver (c under : Colour) : Colour :=
  match c with Transparent => under | _ => c end.

(** The pixel (i, j) of an image: transparent outside the image. *)
Definition pixel (img : Bitmap) (i j : Z) : Colour :=
  if (0 <=? i)%Z && (0 <=? j)%Z
     && (num_of_Z (i + 1) <=? naturalWidth img)
     && (num_of_Z (j + 1) <=? naturalHeight img)
  then colourAt img i j else Transparent.

(** The pixels of the rectangle with top-left (X, Y) and size W x H. *)
Definition inPixels (X Y W H i j : Z) : bool :=
  ((X <=? i) && (i <? X + W) && (Y <=? j) && (j <? Y + H))%Z.

(** [a === b] on numbers. *)
Definition same (a b : num) : bool := (a <=? b) && (b <=? a).

(** [drawImage] from a source rectangle of the image to a destination
    rectangle of the canvas.  When the two have the same size (not
    negative) and their corners are on the pixel grid, the call copies
    pixels; otherwise the image is resampled. *)
Definition blit (op : DrawOp) (img : Bitmap) (sx sy sw sh dx dy dw dh : num)
    (under : Colour) (i j : Z) : Colour :=
  if same sw dw && same sh dh then
    match whole sx, whole sy, whole dx, whole dy, whole dw, whole dh with
    | Some SX, Some SY, Some DX, Some DY, Some DW, Some DH =>
        if ((0 <=? DW) && (0 <=? DH))%Z then
          if inPixels DX DY DW DH i j
          then imageOver (pixel img (i - DX + SX) (j - DY + SY)) under
          else under
        else smooth op under i j
    | _, _, _, _, _, _ => smooth op under i j
    end
  else smooth op under i j.

(** The squared distance from the point (x, y) to the farthest and to the
    nearest point of the pixel (i, j), the square [i, i+1] x [j, j+1]. *)
Definition farthest (c : num) (i : Z) : num :=
  Math_max (sq (num_of_Z i - c)) (sq (num_of_Z (i + 1) - c)).

Definition nearest (c : num) (i : Z) : num :=
  if c <? num_of_Z i then sq (num_of_Z i - c)
  else if num_of_Z (i + 1) <? c then sq (c - num_of_Z (i + 1))
  else 0.

Definition far2 (x y : num) (i j : Z) : num := farthest x i + farthest y j.
Definition near2 (x y : num) (i j : Z) : num := nearest x i + nearest y j.

(** What one call leaves in the pixel (i, j) that held [under].  A
    rectangle on the pixel grid fills its pixels.  A filled circle paints
    the pixels it covers whole and leaves those it does not reach; so does
    its stroke, the ring of the points within half the line width of the
    circle (a disc, when the radius is no more than that).  The radius of
    the one circle the source draws is not negative. *)
Definition paint (op : DrawOp) (under : Colour) (i j : Z) : Colour :=
  match op with
  | fillRect style x y w h =>
      match whole x, whole y, whole w, whole h with
      | Some X, Some Y, Some W, Some H =>
          if ((0 <=? W) && (0 <=? H))%Z then
            if inPixels X Y W H i j then fillColour style under else under
          else smooth op under i j
      | _, _, _, _ => smooth op under i j
      end
  | drawImage3 img dx dy =>
      blit op img 0 0 (naturalWidth img) (naturalHeight img)
           dx dy (naturalWidth img) (naturalHeight img) under i j
  | drawImage5 img dx dy dw dh =>
      blit op img 0 0 (naturalWidth img) (naturalHeight img) dx dy dw dh under i j
  | drawImage9 _ img sx sy sw sh dx dy dw dh =>
      blit op img sx sy sw sh dx dy dw dh under i j
  | arcFill style x y radius =>
      if (0 <=? radius) && (far2 x y i j <=? sq radius) then fillColour style under
      else if (radius <=? 0) || (sq radius <=? near2 x y i j) then under
      else smooth op under i j
  | arcStroke style lineWidth x y radius =>
      let outer := radius + lineWidth / 2 in
      let inner := radius - lineWidth / 2 in
      if (0 <=? outer) && (far2 x y i j <=? sq outer)
         && ((inner <=? 0) || (sq inner <=? near2 x y i j))
      then fillColour style under
      else if (outer <=? 0) || (sq outer <=? near2 x y i j)
              || ((0 <? inner) && (far2 x y i j <=? sq inner))
      then under
      else smooth op under i j
  end.

(** The pixels of a canvas: those that fit in its width and height. *)
Definition inCanvas (cv : Canvas) (i j : Z) : bool :=
  (0 <=? i)%Z && (0 <=? j)%Z
  && (num_of_Z (i + 1) <=? width cv) && (num_of_Z (j + 1) <=? height cv).

Definition render (cv : Canvas) (i j : Z) : Colour :=
  if inCanvas cv i j
  then fold_left (fun c op => paint op c i j) (ops cv) Transparent
  else Transparent.

(** The image a canvas encodes to (PNG is lossless). *)
Definition bitmapOf (cv : Canvas) : Bitmap :=
  {| naturalWidth := width cv; naturalHeight := height cv;
     colourAt := render cv |}.

Inductive Blob :=
| CanvasBlob (type : string) (cv : Canvas)   (* from canvas.toBlob *)
| BytesBlob (bytes : string).                (* uploaded or decoded bytes *)

Record File := {
  name : string;
  type : string;
  blob : Blob;
}.

(** The browser capabilities the service functions call.  Each callback
    pair of the source is one outcome here. *)
Inductive ReaderOutcome :=
| reader_onerror
| reader_onload (result : option string).   (* e.target?.result *)

Record Browser := {
  readAsDataURL : File -> ReaderOutcome;
  (** [img.src = url]: [Some] is [img.onload], [None] is [img.onerror] *)
  loadImage : string -> option Bitmap;
  (** [canvas.getContext('2d')] is not null *)
  getContext2d : bool;
  (** the blob [canvas.toBlob] hands to its callback, or null *)
  toBlob : Canvas -> string -> option Blob;
  toDataURL : Canvas -> string -> string;
  (** [atob]: the decoded bytes, or [None] when it throws *)
  atob : string -> option string;
}.

Variable br : Browser.

(** *** services/geminiService.ts: the canvas helpers *)

Definition fileToBase64 (file : File) : Promise (option string) :=
  match readAsDataURL br file with
  | reader_onload result => Resolved result
  | reader_onerror => Rejected DomEvent
  end.

Record Padded := {
  file : File;
  originalWidth : num;
  originalHeight : num;
}.

(** The canvas [padImageToSquare] draws. *)
Definition padCanvas (img : Bitmap) : Canvas :=
  let size := Math_max (naturalWidth img) (naturalHeight img) in
  let x := (size - naturalWidth img) / 2 in
  let y := (size - naturalHeight img) / 2 in
  {| width := size; height := size;
     ops := [ fillRect "black" 0 0 size size;
              drawImage5 img x y (naturalWidth img) (naturalHeight img) ] |}.

Definition padImageToSquare (imageFile : File) : Promise Padded :=
  match readAsDataURL br imageFile with
  | reader_onerror => Rejected DomEvent
  | reader_onload result =>
      if negb (truthy result) then Rejected (ErrorObj "Could not read file") else
      match loadImage br (interpolate result) with
      | None => Rejected DomEvent
      | Some img =>
          let canvas := padCanvas img in
          if negb (getContext2d br)
          then Rejected (ErrorObj "Could not get canvas context for padding")
          else
            match toBlob br canvas "image/png" with
            | Some blob =>
                Resolved {| file := {| name := name imageFile;
                                       type := "image/png"; blob := blob |};
                            originalWidth := naturalWidth img;
                            originalHeight := naturalHeight img |}
            | None =>
                Rejected (ErrorObj "Canvas to Blob conversion failed for padding")
            end
      end
  end.

(** The source rectangle [cropSquareToOriginal] computes for a square of
    side [newSize]. *)
Record Rect := { rx : num; ry : num; rw : num; rh : num }.

Definition cropSource (newSize originalWidth originalHeight : num) : Rect :=
  let originalSize := Math_max originalWidth originalHeight in
  let ratioX := (originalSize - originalWidth) / 2 / originalSize in
  let ratioY := (originalSize - originalHeight) / 2 / originalSize in
  let ratioW := originalWidth / originalSize in
  let ratioH := originalHeight / originalSize in
  {| rx := newSize * ratioX; ry := newSize * ratioY;
     rw := newSize * ratioW; rh := newSize * ratioH |}.

(** The same rectangle in closed form, as the specification words it:
    top-left (N(S - w)/(2S), N(S - h)/(2S)) and size (Nw/S, Nh/S). *)
Definition sourceRectSpec (N w h : num) : Rect :=
  let S := Math_max w h in
  {| rx := N * (S - w) / (2 * S); ry := N * (S - h) / (2 * S);
     rw := N * w / S; rh := N * h / S |}.

(** The region of the padded square where [padImageToSquare] draws an
    image of size w x h: the destination of its [drawImage]. *)
Definition padRegion (w h : num) : Rect :=
  let size := Math_max w h in
  {| rx := (size - w) / 2; ry := (size - h) / 2; rw := w; rh := h |}.

Definition cropCanvas (img : Bitmap) (originalWidth originalHeight : num) : Canvas :=
  let newSize := naturalWidth img in
  let src := cropSource newSize originalWidth originalHeight in
  {| width := originalWidth; height := originalHeight;
     ops := [ drawImage9 "high" img (rx src) (ry src) (rw src) (rh src)
                         0 0 originalWidth originalHeight ] |}.

Definition cropSquareToOriginal (dataUrl : string)
    (originalWidth originalHeight : num) : Promise string :=
  match loadImage br dataUrl with
  | None => Rejected DomEvent
  | Some img =>
      let canvas := cropCanvas img originalWidth originalHeight in
      if negb (getContext2d br)
      then Rejected (ErrorObj "Could not get canvas context for cropping")
      else Resolved (toDataURL br canvas "image/png")
  end.

Record Hotspot := { hx : num; hy : num }.

(** 0.015, as the quotient 15 / 1000 (correctly rounded in binary64). *)
Definition c_0_015 : num := num_of_Z 15 / num_of_Z 1000.

Definition hotspotCanvas (img : Bitmap) (hotspot : Hotspot) : Canvas :=
  let radius := Math_min (naturalWidth img) (naturalHeight img) * c_0_015 in
  {| width := naturalWidth img; height := naturalHeight img;
     ops := [ drawImage3 img 0 0;
              arcFill "rgba(0, 255, 255, 0.7)" (hx hotspot) (hy hotspot) radius;
              arcStroke "rgba(255, 255, 255, 0.8)" 2 (hx hotspot) (hy hotspot) radius ] |}.

Definition drawHotspotOnImage (imageFile : File) (hotspot : Hotspot) : Promise File :=
  match readAsDataURL br imageFile with
  | reader_onerror => Rejected DomEvent
  | reader_onload result =>
      if negb (truthy result)
      then Rejected (ErrorObj "Could not read file for hotspot drawing") else
      match loadImage br (interpolate result) with
      | None => Rejected DomEvent
      | Some img =>
          let canvas := hotspotCanvas img hotspot in
          if negb (getContext2d br)
          then Rejected (ErrorObj "Could not get canvas context for hotspot drawing")
          else
            match toBlob br canvas "image/png" with
            | Some blob =>
                Resolved {| name := name imageFile; type := "image/png"; blob := blob |}
            | None =>
                Rejected (ErrorObj "Canvas to Blob conversion failed for hotspot drawing")
            end
      end
  end.

End Geometry.

Arguments Bitmap num : clear implicits.
Arguments DrawOp num : clear implicits.
Arguments Smoothing num : clear implicits.
Arguments Canvas num : clear implicits.
Arguments Blob num : clear implicits.
Arguments File num : clear implicits.
Arguments Browser num : clear implicits.
Arguments Padded num : clear implicits.
Arguments Rect num : clear implicits.
Arguments Hotspot num : clear implicits.

(** ** What travels between the client and the relay *)

Module Http.

(** The JSON bodies the relay sends: [{ error }], [{ error, details }],
    [{ success, data }]. *)
Record JsonBody := {
  error : option string;
  details : option string;
  success : option bool;
  data : option string;
}.

(** The response object [res] of the serverless function: headers set,
    status set, and what was sent ([json], or nothing for [end()]). *)
Record Res := {
  headers : list (string * string);
  statusCode : option Z;
  json : option JsonBody;
  ended : bool;
}.

Definition res0 : Res :=
  {| headers := []; statusCode := None; json := None; ended := false |}.

Definition setHeader (k v : string) (res : Res) : Res :=
  {| headers := (k, v) :: List.filter (fun kv => negb (String.eqb (fst kv) k)) (headers res);
     statusCode := statusCode res; json := json res; ended := ended res |}.

Definition status (code : Z) (res : Res) : Res :=
  {| headers := headers res; statusCode := Some code; json := json res;
     ended := ended res |}.

Definition send_json (b : JsonBody) (res : Res) : Res :=
  {| headers := headers res; statusCode := statusCode res; json := Some b;
     ended := true |}.

Definition end_ (res : Res) : Res :=
  {| headers := headers res; statusCode := statusCode res; json := json res;
     ended := true |}.

Definition getHeader (k : string) (res : Res) : option string :=
  match List.find (fun kv => String.eqb (fst kv) k) (headers res) with
  | Some kv => Some (snd kv)
  | None => None
  end.

End Http.

(** ** api/generate.js *)

Module Relay.

(** What is thrown and caught: the relay only reads [error.message]. *)
Record Exception := { message : option string }.

Inductive Result (A : Type) :=
| Return (a : A)
| Throw (e : Exception).
Arguments Return {A} a.
Arguments Throw {A} e.

Definition Error_ (msg : string) : Exception := {| message := Some msg |}.

(** The parts of a model response ([GenerateContentResponse] of
    @google/genai), with every optional field optional. *)
Record InlineData := {
  mimeType : option string;
  data : option string;
}.

Record ResponsePart := {
  inlineData : option InlineData;
  partText : option string;
}.

Record Candidate := {
  (** [content?.parts] *)
  contentParts : option (list ResponsePart);
  finishReason : option string;
}.

Record PromptFeedback := {
  blockReason : option string;
  blockReasonMessage : option string;
}.

Record GenerateContentResponse := {
  promptFeedback : option PromptFeedback;
  candidates : option (list Candidate);
  text : option string;
}.

(** [response.candidates?.[0]] *)
Definition firstCandidate (response : GenerateContentResponse) : option Candidate :=
  match candidates response with
  | Some (c :: _) => Some c
  | _ => None
  end.

(** [response.candidates?.[0]?.content?.parts?.find(part => part.inlineData)] *)
Definition imagePartFromResponse (response : GenerateContentResponse)
  : option ResponsePart :=
  match firstCandidate response with
  | Some c =>
      match contentParts c with
      | Some ps => List.find (fun part => bool_decide (is_Some (inlineData part))) ps
      | None => None
      end
  | None => None
  end.

Definition blockedBy (response : GenerateContentResponse) : option PromptFeedback :=
  match promptFeedback response with
  | Some fb => if truthy (blockReason fb) then Some fb else None
  | None => None
  end.

Definition dataUrl (i : InlineData) : string :=
  "data:" +:+ interpolate (mimeType i) +:+ ";base64," +:+ interpolate (data i).

Definition textFeedback (response : GenerateContentResponse) : option string :=
  match text response with Some t => Some (trim t) | None => None end.

(** [finishReason && finishReason !== 'STOP'] of the first candidate. *)
Definition stopped (response : GenerateContentResponse) : bool :=
  let finishReason :=
    match firstCandidate response with Some c => finishReason c | None => None end in
  truthy finishReason && negb (bool_decide (finishReason = Some "STOP")).

Definition handleApiResponse (response : GenerateContentResponse) (context : string)
  : Result string :=
  match blockedBy response with
  | Some fb =>
      Throw (Error_ ("Request was blocked. Reason: " +:+ interpolate (blockReason fb)
                     +:+ ". " +:+ js_or (blockReasonMessage fb) ""))
  | None =>
      match imagePartFromResponse response with
      | Some {| inlineData := Some i |} => Return (dataUrl i)
      | _ =>
          let finishReason :=
            match firstCandidate response with
            | Some c => finishReason c
            | None => None
            end in
          if truthy finishReason && negb (bool_decide (finishReason = Some "STOP"))
          then Throw (Error_ ("Image generation for " +:+ context
                              +:+ " stopped unexpectedly. Reason: "
                              +:+ interpolate finishReason))
          else
            Throw (Error_ ("The AI model did not return an image for the " +:+ context
                           +:+ ". " +:+
                           (if truthy (textFeedback response)
                            then "The model responded with text: " +:+ dquote
                                 +:+ interpolate (textFeedback response) +:+ dquote
                            else "This can happen due to safety filters or if the request is too complex.")))
      end
  end.


Section Handler.
Context {num : Type}.

(** The JSON body of a request, as the client's service functions build it.
    The handler destructures the first seven fields. *)
Record RequestBody := {
  type : option string;
  originalImage : option string;
  userPrompt : option string;
  hotspot : option (Hotspot num);
  filterPrompt : option string;
  adjustmentPrompt : option string;
  objectImage : option string;
  images : option (list string);
  targetDimensions : option (num * num);
  direction : option string;
}.

Record Request := {
  method : string;
  (** [req.body]; [None] is undefined or null *)
  body : option RequestBody;
}.

(** [process.env] *)
Record Env := { GEMINI_API_KEY : option string }.

(** The four instruction texts.  Their fixed prose is left out; what the
    template literals interpolate is kept. *)
Inductive Prompt :=
| EditInstructions (userPrompt : option string)
| FilterInstructions (filterPrompt : option string)
| AdjustmentInstructions (adjustmentPrompt : option string)
| PlacementInstructions (userPrompt : option string) (x y : num).

Inductive Part :=
| inlineDataPart (mimeType data : string)
| textPart (prompt : Prompt).

Inductive Modality := IMAGE | TEXT.

Record GenerateContentParameters := {
  model : string;
  contents : list Part;
  responseModalities : list Modality;
}.

(** One call of [ai.models.generateContent], with the key the client
    [ai] was built with. *)
Record ApiCall := {
  apiKey : string;
  params : GenerateContentParameters;
}.

(** The generative-image API: what a call answers, or rejects with. *)
Variable generateContent : ApiCall -> Result GenerateContentResponse.

(** An asynchronous relay function: the calls it made to the API and what
    it returned or threw. *)
Definition Async (A : Type) : Type := (list ApiCall * Result A)%type.

(** The [TypeError] of reading a property of a field the body does not
    carry, in the engine's words (for a field that is [null] the engine
    says null where it says undefined here). *)
Definition TypeError (what : string) : Exception :=
  Error_ ("Cannot read properties of undefined (reading '" +:+ what +:+ "')").

Definition base64ToPart (base64Data : option string) (mimeType : string) : Result Part :=
  match base64Data with
  | Some s => Return (inlineDataPart mimeType (stripDataUrlPrefix s))
  | None => Throw (TypeError "replace")
  end.

Definition callModel (ai : string) (parts : list Part) (context : string) : Async string :=
  let call := {| apiKey := ai;
                 params := {| model := "gemini-2.5-flash-image-preview";
                              contents := parts;
                              responseModalities := [IMAGE; TEXT] |} |} in
  ([call],
   match generateContent call with
   | Return response => handleApiResponse response context
   | Throw e => Throw e
   end).

Definition handleEditRequest (ai : string) (originalImage userPrompt : option string)
    (hotspot : option (Hotspot num)) : Async string :=
  match base64ToPart originalImage "image/png" with
  | Throw e => ([], Throw e)
  | Return originalImagePart =>
      callModel ai [originalImagePart; textPart (EditInstructions userPrompt)] "edit"
  end.

Definition handleFilterRequest (ai : string) (originalImage filterPrompt : option string)
  : Async string :=
  match base64ToPart originalImage "image/png" with
  | Throw e => ([], Throw e)
  | Return originalImagePart =>
      callModel ai [originalImagePart; textPart (FilterInstructions filterPrompt)] "filter"
  end.

Definition handleAdjustmentRequest (ai : string)
    (originalImage adjustmentPrompt : option string) : Async string :=
  match base64ToPart originalImage "image/png" with
  | Throw e => ([], Throw e)
  | Return originalImagePart =>
      callModel ai [originalImagePart; textPart (AdjustmentInstructions adjustmentPrompt)]
                "adjustment"
  end.

Definition handlePlacementRequest (ai : string)
    (originalImage objectImage userPrompt : option string)
    (hotspot : option (Hotspot num)) : Async string :=
  match base64ToPart originalImage "image/png" with
  | Throw e => ([], Throw e)
  | Return sceneImagePart =>
      match base64ToPart objectImage "image/png" with
      | Throw e => ([], Throw e)
      | Return objectImagePart =>
          match hotspot with
          | None => ([], Throw (TypeError "x"))
          | Some h =>
              callModel ai [sceneImagePart; objectImagePart;
                            textPart (PlacementInstructions userPrompt (hx h) (hy h))]
                        "placement"
          end
      end
  end.

(** One run of the serverless function: the final [res], the calls made
    to the API, and the exception that escaped the function, if one did. *)
Record Run := {
  res : Http.Res;
  apiCalls : list ApiCall;
  uncaught : option Exception;
}.

Definition respond (r : Http.Res) (calls : list ApiCall) : Run :=
  {| res := r; apiCalls := calls; uncaught := None |}.

Definition errorBody (msg : string) (details : option string) : Http.JsonBody :=
  {| Http.error := Some msg; Http.details := details;
     Http.success := None; Http.data := None |}.

Definition successBody (data : string) : Http.JsonBody :=
  {| Http.error := None; Http.details := None;
     Http.success := Some true; Http.data := Some data |}.

(** [case 'edit':] of [switch (type)]: strict equality with a string. *)
Definition is_type (b : RequestBody) (t : string) : bool :=
  match type b with Some s => String.eqb s t | None => false end.

Definition handler (env : Env) (req : Request) : Run :=
  let res := Http.setHeader "Access-Control-Allow-Headers" "Content-Type"
               (Http.setHeader "Access-Control-Allow-Methods" "POST, OPTIONS"
                  (Http.setHeader "Access-Control-Allow-Origin" "*" Http.res0)) in
  if String.eqb (method req) "OPTIONS" then
    respond (Http.end_ (Http.status 200 res)) []
  else if negb (String.eqb (method req) "POST") then
    respond (Http.send_json (errorBody "Método no permitido" None) (Http.status 405 res)) []
  else
    match body req with
    | None =>
        {| res := res; apiCalls := [];
           uncaught := Some (Error_ "Cannot destructure property 'type' of 'req.body' as it is undefined.") |}
    | Some b =>
        if negb (truthy (GEMINI_API_KEY env)) then
          respond (Http.send_json (errorBody "API Key de Gemini no configurada" None)
                     (Http.status 500 res)) []
        else
          let ai := interpolate (GEMINI_API_KEY env) in
          let answer (r : Async string) : Run :=
            match r with
            | (calls, Return response) =>
                respond (Http.send_json (successBody response) (Http.status 200 res)) calls
            | (calls, Throw error) =>
                respond (Http.send_json
                           (errorBody "Error interno del servidor" (message error))
                           (Http.status 500 res)) calls
            end in
          if is_type b "edit" then
            answer (handleEditRequest ai (originalImage b) (userPrompt b) (hotspot b))
          else if is_type b "filter" then
            answer (handleFilterRequest ai (originalImage b) (filterPrompt b))
          else if is_type b "adjustment" then
            answer (handleAdjustmentRequest ai (originalImage b) (adjustmentPrompt b))
          else if is_type b "placement" then
            answer (handlePlacementRequest ai (originalImage b) (objectImage b)
                      (userPrompt b) (hotspot b))
          else
            respond (Http.send_json (errorBody "Tipo de operación no válido" None)
                       (Http.status 400 res)) []
    end.

(** Two views of the handler, for stating what it does: [res] once the
    three CORS headers are set, and the [switch (type)] alone. *)
Definition corsRes : Http.Res :=
  Http.setHeader "Access-Control-Allow-Headers" "Content-Type"
    (Http.setHeader "Access-Control-Allow-Methods" "POST, OPTIONS"
       (Http.setHeader "Access-Control-Allow-Origin" "*" Http.res0)).

Definition served (ai : string) (b : RequestBody) : option (Async string) :=
  if is_type b "edit" then
    Some (handleEditRequest ai (originalImage b) (userPrompt b) (hotspot b))
  else if is_type b "filter" then
    Some (handleFilterRequest ai (originalImage b) (filterPrompt b))
  else if is_type b "adjustment" then
    Some (handleAdjustmentRequest ai (originalImage b) (adjustmentPrompt b))
  else if is_type b "placement" then
    Some (handlePlacementRequest ai (originalImage b) (objectImage b)
            (userPrompt b) (hotspot b))
  else None.

End Handler.

Arguments RequestBody num : clear implicits.
Arguments Request num : clear implicits.
Arguments Prompt num : clear implicits.
Arguments Part num : clear implicits.
Arguments GenerateContentParameters num : clear implicits.
Arguments ApiCall num : clear implicits.
Arguments Run num : clear implicits.

End Relay.

(** ** A model response, read off its fields

    What [handleApiResponse] answers to, stated on the fields of the
    response themselves. *)

Section ResponseShape.
Import Relay.

(** The prompt was blocked: [promptFeedback.blockReason] is a non-empty
    string. *)
Definition prompt_blocked (response : GenerateContentResponse) (fb : PromptFeedback) : Prop :=
  promptFeedback response = Some fb /\
  exists reason, blockReason fb = Some reason /\ reason <> "".

(** [i] is the [inlineData] of the first part of the first candidate that
    has one. *)
Definition first_image (response : GenerateContentResponse) (i : InlineData) : Prop :=
  exists c rest before part after,
    candidates response = Some (c :: rest) /\
    contentParts c = Some (before ++ part :: after) /\
    Forall (fun p => inlineData p = None) before /\
    inlineData part = Some i.

(** Some part of some candidate has [inlineData]. *)
Definition contains_image (response : GenerateContentResponse) : Prop :=
  exists cs c ps part,
    candidates response = Some cs /\ In c cs /\
    contentParts c = Some ps /\ In part ps /\ is_Some (inlineData part).

(** The finish reason of the first candidate is [reason], a non-empty string
    other than STOP. *)
Definition finish_not_stop (response : GenerateContentResponse) (reason : string) : Prop :=
  exists c rest,
    candidates response = Some (c :: rest) /\
    finishReason c = Some reason /\ reason <> "" /\ reason <> "STOP".

End ResponseShape.

(** ** The earlier services/geminiService.ts

    Before the relay existed the client called the model itself; its
    [handleApiResponse] is the one the relay took over, with other words in
    two of the messages. *)

Module LegacyService.
Import Relay.

Definition handleApiResponse (response : GenerateContentResponse) (context : string)
  : Result string :=
  match blockedBy response with
  | Some fb =>
      Throw (Error_ ("Request was blocked. Reason: " +:+ interpolate (blockReason fb)
                     +:+ ". " +:+ js_or (blockReasonMessage fb) ""))
  | None =>
      match imagePartFromResponse response with
      | Some {| inlineData := Some i |} => Return (dataUrl i)
      | _ =>
          let finishReason :=
            match firstCandidate response with
            | Some c => finishReason c
            | None => None
            end in
          if truthy finishReason && negb (bool_decide (finishReason = Some "STOP"))
          then Throw (Error_ ("Image generation for " +:+ context
                              +:+ " stopped unexpectedly. Reason: "
                              +:+ interpolate finishReason
                              +:+ ". This often relates to safety settings."))
          else
            Throw (Error_ ("The AI model did not return an image for the " +:+ context
                           +:+ ". " +:+
                           (if truthy (textFeedback response)
                            then "The model responded with text: " +:+ dquote
                                 +:+ interpolate (textFeedback response) +:+ dquote
                            else "This can happen due to safety filters or if the request is too complex. Please try rephrasing your prompt to be more direct.")))
      end
  end.

End LegacyService.

(** ** services/geminiService.ts: the six service functions *)

Module Fetch.

(** What [fetch] resolves with: the status and the JSON body
    ([None]: the body is not JSON and [response.json()] rejects). *)
Record Response := {
  status : Z;
  body : option Http.JsonBody;
}.

(** [response.ok] *)
Definition ok (r : Response) : bool := (200 <=? status r)%Z && (status r <=? 299)%Z.

End Fetch.

Section Services.
Context {num : Type} `{JsNumber num}.
Local Open Scope js_scope.

Variable br : Browser num.

(** [fetch(url, { method, headers, body: JSON.stringify(...) })]: resolves
    with a response or rejects (network failure). *)
Record FetchCall := {
  url : string;
  request : Relay.Request num;
}.

Variable fetch : FetchCall -> Promise Fetch.Response.

(** A service function: the requests it sent and the promise it returns. *)
Definition Service (A : Type) : Type := (list FetchCall * Promise A)%type.

Definition emptyBody : Relay.RequestBody num :=
  {| Relay.type := None; Relay.originalImage := None; Relay.userPrompt := None;
     Relay.hotspot := None; Relay.filterPrompt := None;
     Relay.adjustmentPrompt := None; Relay.objectImage := None;
     Relay.images := None; Relay.targetDimensions := None;
     Relay.direction := None |}.

(** The block every service function repeats: POST the body to
    /api/generate, throw [errorData.error || fallback] unless
    [response.ok], and read [result.data]. *)
Definition postGenerate (b : Relay.RequestBody num) (fallback : string)
  : Service (option string) :=
  let call := {| url := "/api/generate";
                 request := {| Relay.method := "POST"; Relay.body := Some b |} |} in
  ([call],
   match fetch call with
   | Rejected r => Rejected r
   | Resolved response =>
       match Fetch.body response with
       | None => Rejected (ErrorObj "Unexpected end of JSON input")
       | Some j =>
           if negb (Fetch.ok response)
           then Rejected (ErrorObj (js_or (Http.error j) fallback))
           else Resolved (Http.data j)
       end
   end).

(** [hotspot] moved into the padded square. *)
Definition paddedHotspot (hotspot : Hotspot num) (originalWidth originalHeight : num) : Hotspot num :=
  let size := Math_max originalWidth originalHeight in
  {| hx := hx hotspot + (size - originalWidth) / num_of_Z 2;
     hy := hy hotspot + (size - originalHeight) / num_of_Z 2 |}.

Definition thenCrop (p : Padded num) (r : Service (option string)) : Service string :=
  match r with
  | (sent, Rejected e) => (sent, Rejected e)
  | (sent, Resolved squareImageUrl) =>
      (sent, cropSquareToOriginal br (interpolate squareImageUrl)
               (originalWidth p) (originalHeight p))
  end.

Definition generateEditedImage (originalImage : File num) (userPrompt : string)
    (hotspot : Hotspot num) : Service string :=
  match padImageToSquare br originalImage with
  | Rejected e => ([], Rejected e)
  | Resolved p =>
      let paddedHotspot := paddedHotspot hotspot (originalWidth p) (originalHeight p) in
      match drawHotspotOnImage br (file p) paddedHotspot with
      | Rejected e => ([], Rejected e)
      | Resolved imageWithHotspot =>
          match fileToBase64 br imageWithHotspot with
          | Rejected e => ([], Rejected e)
          | Resolved imageBase64 =>
              thenCrop p
                (postGenerate
                   {| Relay.type := Some "edit"; Relay.originalImage := imageBase64;
                      Relay.userPrompt := Some userPrompt;
                      Relay.hotspot := Some paddedHotspot;
                      Relay.filterPrompt := None; Relay.adjustmentPrompt := None;
                      Relay.objectImage := None; Relay.images := None;
                      Relay.targetDimensions := None; Relay.direction := None |}
                   "Error en la generación de imagen")
          end
      end
  end.

Definition generateFilteredImage (originalImage : File num) (filterPrompt : string)
  : Service string :=
  match padImageToSquare br originalImage with
  | Rejected e => ([], Rejected e)
  | Resolved p =>
      match fileToBase64 br (file p) with
      | Rejected e => ([], Rejected e)
      | Resolved imageBase64 =>
          thenCrop p
            (postGenerate
               {| Relay.type := Some "filter"; Relay.originalImage := imageBase64;
                  Relay.userPrompt := None; Relay.hotspot := None;
                  Relay.filterPrompt := Some filterPrompt;
                  Relay.adjustmentPrompt := None;
                  Relay.objectImage := None; Relay.images := None;
                  Relay.targetDimensions := None; Relay.direction := None |}
               "Error en la generación de filtro")
      end
  end.

Definition generateAdjustedImage (originalImage : File num) (adjustmentPrompt : string)
  : Service string :=
  match padImageToSquare br originalImage with
  | Rejected e => ([], Rejected e)
  | Resolved p =>
      match fileToBase64 br (file p) with
      | Rejected e => ([], Rejected e)
      | Resolved imageBase64 =>
          thenCrop p
            (postGenerate
               {| Relay.type := Some "adjustment"; Relay.originalImage := imageBase64;
                  Relay.userPrompt := None; Relay.hotspot := None;
                  Relay.filterPrompt := None;
                  Relay.adjustmentPrompt := Some adjustmentPrompt;
                  Relay.objectImage := None; Relay.images := None;
                  Relay.targetDimensions := None; Relay.direction := None |}
               "Error en la generación de ajuste")
      end
  end.

Definition generatePlacedImage (originalImage objectImage : File num) (userPrompt : string)
    (hotspot : Hotspot num) : Service string :=
  match padImageToSquare br originalImage with
  | Rejected e => ([], Rejected e)
  | Resolved p =>
      let paddedHotspot := paddedHotspot hotspot (originalWidth p) (originalHeight p) in
      match drawHotspotOnImage br (file p) paddedHotspot with
      | Rejected e => ([], Rejected e)
      | Resolved imageWithHotspot =>
          match fileToBase64 br imageWithHotspot with
          | Rejected e => ([], Rejected e)
          | Resolved sceneImageBase64 =>
              match fileToBase64 br objectImage with
              | Rejected e => ([], Rejected e)
              | Resolved objectImageBase64 =>
                  thenCrop p
                    (postGenerate
                       {| Relay.type := Some "placement";
                          Relay.originalImage := sceneImageBase64;
                          Relay.userPrompt := Some userPrompt;
                          Relay.hotspot := Some paddedHotspot;
                          Relay.filterPrompt := None; Relay.adjustmentPrompt := None;
                          Relay.objectImage := objectImageBase64; Relay.images := None;
                          Relay.targetDimensions := None; Relay.direction := None |}
                       "Error en la colocación de objeto")
              end
          end
      end
  end.

(** [Promise.all(gridImages.map(file => fileToBase64(file)))] *)
Fixpoint allBase64 (files : list (File num)) : Promise (list string) :=
  match files with
  | [] => Resolved []
  | f :: rest =>
      match fileToBase64 br f, allBase64 rest with
      | Rejected e, _ => Rejected e
      | Resolved _, Rejected e => Rejected e
      | Resolved s, Resolved ss => Resolved (interpolate s :: ss)
      end
  end.

Definition generateFromGrid (gridImages : list (File num)) (userPrompt : string)
    (targetDimensions : option (num * num)) : Service (option string) :=
  match allBase64 gridImages with
  | Rejected e => ([], Rejected e)
  | Resolved imageBase64Array =>
        (postGenerate
           {| Relay.type := Some "grid"; Relay.originalImage := None;
              Relay.userPrompt := Some userPrompt; Relay.hotspot := None;
              Relay.filterPrompt := None; Relay.adjustmentPrompt := None;
              Relay.objectImage := None; Relay.images := Some imageBase64Array;
              Relay.targetDimensions := targetDimensions; Relay.direction := None |}
           "Error en la generación de grid")
  end.

Definition generateExpandedImage (originalImage : File num) (direction userPrompt : string)
  : Service (option string) :=
  match fileToBase64 br originalImage with
  | Rejected e => ([], Rejected e)
  | Resolved imageBase64 =>
        (postGenerate
           {| Relay.type := Some "expand"; Relay.originalImage := imageBase64;
              Relay.userPrompt := Some userPrompt; Relay.hotspot := None;
              Relay.filterPrompt := None; Relay.adjustmentPrompt := None;
              Relay.objectImage := None; Relay.images := None;
              Relay.targetDimensions := None; Relay.direction := Some direction |}
           "Error en la expansión de imagen")
  end.

End Services.

Arguments FetchCall num : clear implicits.

(** The deployment: [fetch] reaches the serverless function.  An exception
    that escapes the function is answered by the platform with status 500
    and a body that is not the function's JSON. *)
Definition relayFetch {num : Type} (env : Relay.Env)
    (generateContent : Relay.ApiCall num -> Relay.Result Relay.GenerateContentResponse)
    (call : FetchCall num) : Promise Fetch.Response :=
  let run := Relay.handler generateContent env (request call) in
  match Relay.uncaught run with
  | Some _ => Resolved {| Fetch.status := 500; Fetch.body := None |}
  | None =>
      Resolved {| Fetch.status := default 200%Z (Http.statusCode (Relay.res run));
                  Fetch.body := Http.json (Relay.res run) |}
  end.

(** ** App.tsx: the editor's state and handlers *)

(** [dataurl.split(',')] *)
Fixpoint split_comma (s : string) : list string :=
  match s with
  | EmptyString => [EmptyString]
  | String c s' =>
      if Ascii.eqb c ","%char then EmptyString :: split_comma s'
      else match split_comma s' with
           | h :: t => String c h :: t
           | [] => [String c EmptyString]
           end
  end.

Definition is_line_terminator (c : Ascii.ascii) : bool :=
  let n := Ascii.N_of_ascii c in (n =? 10)%N || (n =? 13)%N.

(** [(.*?);] from the start of [s]: the text before the first semicolon,
    unless a line terminator comes first. *)
Fixpoint until_semicolon (s : string) : option string :=
  match s with
  | EmptyString => None
  | String c s' =>
      if Ascii.eqb c ";"%char then Some EmptyString
      else if is_line_terminator c then None
      else match until_semicolon s' with
           | Some m => Some (String c m)
           | None => None
           end
  end.

(** [s.match(/:(.*?);/)], its first group. *)
Fixpoint mimeMatch (s : string) : option string :=
  match s with
  | EmptyString => None
  | String c s' =>
      if Ascii.eqb c ":"%char then
        match until_semicolon s' with
        | Some m => Some m
        | None => mimeMatch s'
        end
      else mimeMatch s'
  end.

Module App.

Module Tab.
Inductive t := retouch | place | grid | expand | adjust | filters | crop.
End Tab.

#[export] Instance tab_eq_dec : EqDecision Tab.t.
Proof. solve_decision. Defined.

Section Editor.
Context {num : Type} `{JsNumber num}.

Variable br : Browser num.
Variable fetch : FetchCall num -> Promise Fetch.Response.

Definition dataURLtoFile (dataurl : option string) (filename : string)
  : Promise (File num) :=
  match dataurl with
  | None => Rejected (ErrorObj "Cannot read properties of undefined (reading 'split')")
  | Some dataurl =>
  match split_comma dataurl with
  | arr0 :: arr1 :: _ =>
      match mimeMatch arr0 with
      | None => Rejected (ErrorObj "Could not parse MIME type from data URL")
      | Some mime =>
          if String.eqb mime ""
          then Rejected (ErrorObj "Could not parse MIME type from data URL")
          else match atob br arr1 with
               | Some bstr =>
                   Resolved {| name := filename; type := mime; blob := BytesBlob bstr |}
               | None =>
                   Rejected (ErrorObj "The string to be decoded is not correctly encoded.")
               end
      end
  | _ => Rejected (ErrorObj "Invalid data URL")
  end
  end.

Record PixelCrop := {
  crop_x : num;
  crop_y : num;
  crop_width : num;
  crop_height : num;
}.

(** The [useState] cells of [App] that its handlers read or write
    ([aspect] and [isComparing] are set by the panels only). *)
Record State := {
  history : list (File num);
  historyIndex : Z;
  prompt : string;
  isLoading : bool;
  error : option string;
  editHotspot : option (Hotspot num);
  displayHotspot : option (Hotspot num);
  activeTab : Tab.t;
  placementObject : option (File num);
  placementPrompt : string;
  justPlacedObject : bool;
  gridImages : list (File num);
  gridPrompt : string;
  crop : option PixelCrop;
  completedCrop : option PixelCrop;
}.

Definition initial : State :=
  {| history := []; historyIndex := -1; prompt := ""; isLoading := false;
     error := None; editHotspot := None; displayHotspot := None;
     activeTab := Tab.retouch; placementObject := None; placementPrompt := "";
     justPlacedObject := false; gridImages := []; gridPrompt := "";
     crop := None; completedCrop := None |}.

Definition setHistory (v : list (File num)) (s : State) : State :=
  {| history := v; historyIndex := historyIndex s; prompt := prompt s;
     isLoading := isLoading s; error := error s; editHotspot := editHotspot s;
     displayHotspot := displayHotspot s; activeTab := activeTab s;
     placementObject := placementObject s; placementPrompt := placementPrompt s;
     justPlacedObject := justPlacedObject s; gridImages := gridImages s;
     gridPrompt := gridPrompt s; crop := crop s; completedCrop := completedCrop s |}.

Definition setHistoryIndex (v : Z) (s : State) : State :=
  {| history := history s; historyIndex := v; prompt := prompt s;
     isLoading := isLoading s; error := error s; editHotspot := editHotspot s;
     displayHotspot := displayHotspot s; activeTab := activeTab s;
     placementObject := placementObject s; placementPrompt := placementPrompt s;
     justPlacedObject := justPlacedObject s; gridImages := gridImages s;
     gridPrompt := gridPrompt s; crop := crop s; completedCrop := completedCrop s |}.

Definition setPrompt (v : string) (s : State) : State :=
  {| history := history s; historyIndex := historyIndex s; prompt := v;
     isLoading := isLoading s; error := error s; editHotspot := editHotspot s;
     displayHotspot := displayHotspot s; activeTab := activeTab s;
     placementObject := placementObject s; placementPrompt := placementPrompt s;
     justPlacedObject := justPlacedObject s; gridImages := gridImages s;
     gridPrompt := gridPrompt s; crop := crop s; completedCrop := completedCrop s |}.

Definition setIsLoading (v : bool) (s : State) : State :=
  {| history := history s; historyIndex := historyIndex s; prompt := prompt s;
     isLoading := v; error := error s; editHotspot := editHotspot s;
     displayHotspot := displayHotspot s; activeTab := activeTab s;
     placementObject := placementObject s; placementPrompt := placementPrompt s;
     justPlacedObject := justPlacedObject s; gridImages := gridImages s;
     gridPrompt := gridPrompt s; crop := crop s; completedCrop := completedCrop s |}.

Definition setError (v : option string) (s : State) : State :=
  {| history := history s; historyIndex := historyIndex s; prompt := prompt s;
     isLoading := isLoading s; error := v; editHotspot := editHotspot s;
     displayHotspot := displayHotspot s; activeTab := activeTab s;
     placementObject := placementObject s; placementPrompt := placementPrompt s;
     justPlacedObject := justPlacedObject s; gridImages := gridImages s;
     gridPrompt := gridPrompt s; crop := crop s; completedCrop := completedCrop s |}.

Definition setEditHotspot (v : option (Hotspot num)) (s : State) : State :=
  {| history := history s; historyIndex := historyIndex s; prompt := prompt s;
     isLoading := isLoading s; error := error s; editHotspot := v;
     displayHotspot := displayHotspot s; activeTab := activeTab s;
     placementObject := placementObject s; placementPrompt := placementPrompt s;
     justPlacedObject := justPlacedObject s; gridImages := gridImages s;
     gridPrompt := gridPrompt s; crop := crop s; completedCrop := completedCrop s |}.

Definition setDisplayHotspot (v : option (Hotspot num)) (s : State) : State :=
  {| history := history s; historyIndex := historyIndex s; prompt := prompt s;
     isLoading := isLoading s; error := error s; editHotspot := editHotspot s;
     displayHotspot := v; activeTab := activeTab s;
     placementObject := placementObject s; placementPrompt := placementPrompt s;
     justPlacedObject := justPlacedObject s; gridImages := gridImages s;
     gridPrompt := gridPrompt s; crop := crop s; completedCrop := completedCrop s |}.

Definition setActiveTab (v : Tab.t) (s : State) : State :=
  {| history := history s; historyIndex := historyIndex s; prompt := prompt s;
     isLoading := isLoading s; error := error s; editHotspot := editHotspot s;
     displayHotspot := displayHotspot s; activeTab := v;
     placementObject := placementObject s; placementPrompt := placementPrompt s;
     justPlacedObject := justPlacedObject s; gridImages := gridImages s;
     gridPrompt := gridPrompt s; crop := crop s; completedCrop := completedCrop s |}.

Definition setPlacementObject (v : option (File num)) (s : State) : State :=
  {| history := history s; historyIndex := historyIndex s; prompt := prompt s;
     isLoading := isLoading s; error := error s; editHotspot := editHotspot s;
     displayHotspot := displayHotspot s; activeTab := activeTab s;
     placementObject := v; placementPrompt := placementPrompt s;
     justPlacedObject := justPlacedObject s; gridImages := gridImages s;
     gridPrompt := gridPrompt s; crop := crop s; completedCrop := completedCrop s |}.

Definition setPlacementPrompt (v : string) (s : State) : State :=
  {| history := history s; historyIndex := historyIndex s; prompt := prompt s;
     isLoading := isLoading s; error := error s; editHotspot := editHotspot s;
     displayHotspot := displayHotspot s; activeTab := activeTab s;
     placementObject := placementObject s; placementPrompt := v;
     justPlacedObject := justPlacedObject s; gridImages := gridImages s;
     gridPrompt := gridPrompt s; crop := crop s; completedCrop := completedCrop s |}.

Definition setJustPlacedObject (v : bool) (s : State) : State :=
  {| history := history s; historyIndex := historyIndex s; prompt := prompt s;
     isLoading := isLoading s; error := error s; editHotspot := editHotspot s;
     displayHotspot := displayHotspot s; activeTab := activeTab s;
     placementObject := placementObject s; placementPrompt := placementPrompt s;
     justPlacedObject := v; gridImages := gridImages s; gridPrompt := gridPrompt s;
     crop := crop s; completedCrop := completedCrop s |}.

Definition setGridImages (v : list (File num)) (s : State) : State :=
  {| history := history s; historyIndex := historyIndex s; prompt := prompt s;
     isLoading := isLoading s; error := error s; editHotspot := editHotspot s;
     displayHotspot := displayHotspot s; activeTab := activeTab s;
     placementObject := placementObject s; placementPrompt := placementPrompt s;
     justPlacedObject := justPlacedObject s; gridImages := v;
     gridPrompt := gridPrompt s; crop := crop s; completedCrop := completedCrop s |}.

Definition setGridPrompt (v : string) (s : State) : State :=
  {| history := history s; historyIndex := historyIndex s; prompt := prompt s;
     isLoading := isLoading s; error := error s; editHotspot := editHotspot s;
     displayHotspot := displayHotspot s; activeTab := activeTab s;
     placementObject := placementObject s; placementPrompt := placementPrompt s;
     justPlacedObject := justPlacedObject s; gridImages := gridImages s;
     gridPrompt := v; crop := crop s; completedCrop := completedCrop s |}.

Definition setCrop (v : option PixelCrop) (s : State) : State :=
  {| history := history s; historyIndex := historyIndex s; prompt := prompt s;
     isLoading := isLoading s; error := error s; editHotspot := editHotspot s;
     displayHotspot := displayHotspot s; activeTab := activeTab s;
     placementObject := placementObject s; placementPrompt := placementPrompt s;
     justPlacedObject := justPlacedObject s; gridImages := gridImages s;
     gridPrompt := gridPrompt s; crop := v; completedCrop := completedCrop s |}.

Definition setCompletedCrop (v : option PixelCrop) (s : State) : State :=
  {| history := history s; historyIndex := historyIndex s; prompt := prompt s;
     isLoading := isLoading s; error := error s; editHotspot := editHotspot s;
     displayHotspot := displayHotspot s; activeTab := activeTab s;
     placementObject := placementObject s; placementPrompt := placementPrompt s;
     justPlacedObject := justPlacedObject s; gridImages := gridImages s;
     gridPrompt := gridPrompt s; crop := crop s; completedCrop := v |}.


(** [l[i]] for a number [i]: undefined outside the list. *)
Definition js_index {A} (l : list A) (i : Z) : option A :=
  if (0 <=? i)%Z then l !! Z.to_nat i else None.

(** [l.slice(0, e)] *)
Definition slice0 {A} (l : list A) (e : Z) : list A :=
  let len := Z.of_nat (length l) in
  let k := if (e <? 0)%Z then Z.max (len + e) 0 else Z.min e len in
  take (Z.to_nat k) l.

Definition currentImage (s : State) : option (File num) :=
  js_index (history s) (historyIndex s).
Definition originalImage (s : State) : option (File num) :=
  js_index (history s) 0.

Definition canUndo (s : State) : bool := (0 <? historyIndex s)%Z.
Definition canRedo (s : State) : bool :=
  (historyIndex s <? Z.of_nat (length (history s)) - 1)%Z.

(** A handler is a closure over the render [c] it was created in; its
    [set...] calls update the state [s].  The callbacks of one render run
    on that render's state, so the synchronous handlers below take [c = s];
    the continuation of an [await] runs later, on whatever [s] then is. *)
Definition addImageToHistory (c : State) (newImageFile : File num) (s : State) : State :=
  let newHistory := slice0 (history c) (historyIndex c + 1) ++ [newImageFile] in
  setDisplayHotspot None
    (setEditHotspot None
       (setCompletedCrop None
          (setCrop None
             (setHistoryIndex (Z.of_nat (length newHistory) - 1)
                (setHistory newHistory s))))).

Definition handleImageUpload (file : File num) (s : State) : State :=
  setGridPrompt ""
    (setGridImages []
       (setJustPlacedObject false
          (setPlacementPrompt ""
             (setPlacementObject None
                (setCompletedCrop None
                   (setCrop None
                      (setActiveTab Tab.retouch
                         (setDisplayHotspot None
                            (setEditHotspot None
                               (setHistoryIndex 0
                                  (setHistory [file]
                                     (setError None s)))))))))))).

(** [err instanceof Error ? err.message : fallback] *)
Definition errorMessage (err : Rejection) (fallback : string) : string :=
  match err with ErrorObj m => m | DomEvent => fallback end.

(** Where an asynchronous handler stands at its [await]: it has returned
    from a guard, or it waits for a service call. *)
Inductive Begun (A : Type) :=
| Returned (s : State)
| Awaits (args : A) (s : State).
Arguments Returned {A} s.
Arguments Awaits {A} args s.

(** The [try { ... } catch { setError } finally { setIsLoading(false) }]
    every generation handler ends with, from the settled service call on. *)
Definition settle (c : State) (filePrefix errPrefix : string)
    (onSuccess : State -> State) (now : string)
    (outcome : Promise (option string)) (s : State) : State :=
  let failed err :=
    setError (Some (errPrefix +:+ errorMessage err "An unknown error occurred.")) s in
  setIsLoading false
    match outcome with
    | Rejected err => failed err
    | Resolved imageUrl =>
        match dataURLtoFile imageUrl (filePrefix +:+ now +:+ ".png") with
        | Rejected err => failed err
        | Resolved newImageFile => onSuccess (addImageToHistory c newImageFile s)
        end
    end.

(** A service function that resolves with a string. *)
Definition defined (p : Promise string) : Promise (option string) :=
  match p with Resolved u => Resolved (Some u) | Rejected e => Rejected e end.

(** The prologue [setIsLoading(true); setError(null)]. *)
Definition loading (s : State) : State := setError None (setIsLoading true s).

Definition handleGenerate_begin (s : State)
  : Begun (File num * string * Hotspot num) :=
  match currentImage s with
  | None => Returned (setError (Some "No image loaded to edit.") s)
  | Some img =>
      if String.eqb (trim (prompt s)) ""
      then Returned (setError (Some "Please enter a description for your edit.") s)
      else match editHotspot s with
           | None => Returned (setError
                       (Some "Please click on the image to select an area to edit.") s)
           | Some h => Awaits (img, prompt s, h) (setJustPlacedObject false (loading s))
           end
  end.

Definition handleGenerate_settle (c : State) :=
  settle c "edited-" "Failed to generate the image. " id.

Definition handleGenerate (now : string) (s : State) : State :=
  match handleGenerate_begin s with
  | Returned s' => s'
  | Awaits (img, p, h) s1 =>
      handleGenerate_settle s now (defined (snd (generateEditedImage br fetch img p h))) s1
  end.

Definition handleApplyFilter_begin (s : State) : Begun (File num) :=
  match currentImage s with
  | None => Returned (setError (Some "No image loaded to apply a filter to.") s)
  | Some img => Awaits img (setJustPlacedObject false (loading s))
  end.

Definition handleApplyFilter_settle (c : State) :=
  settle c "filtered-" "Failed to apply the filter. " id.

Definition handleApplyFilter (filterPrompt now : string) (s : State) : State :=
  match handleApplyFilter_begin s with
  | Returned s' => s'
  | Awaits img s1 =>
      handleApplyFilter_settle s now
        (defined (snd (generateFilteredImage br fetch img filterPrompt))) s1
  end.

Definition handleApplyAdjustment_begin (s : State) : Begun (File num) :=
  match currentImage s with
  | None => Returned (setError (Some "No image loaded to apply an adjustment to.") s)
  | Some img => Awaits img (setJustPlacedObject false (loading s))
  end.

Definition handleApplyAdjustment_settle (c : State) :=
  settle c "adjusted-" "Failed to apply the adjustment. " id.

Definition handleApplyAdjustment (adjustmentPrompt now : string) (s : State) : State :=
  match handleApplyAdjustment_begin s with
  | Returned s' => s'
  | Awaits img s1 =>
      handleApplyAdjustment_settle s now
        (defined (snd (generateAdjustedImage br fetch img adjustmentPrompt))) s1
  end.

Definition handlePlaceObject_begin (s : State)
  : Begun (File num * File num * string * Hotspot num) :=
  match currentImage s with
  | None => Returned (setError (Some "No image loaded to place an object on.") s)
  | Some img =>
      match placementObject s with
      | None => Returned (setError (Some "No object image provided to place.") s)
      | Some obj =>
          match editHotspot s with
          | None => Returned (setError
                      (Some "Please click on the image to select a location to place the object.") s)
          | Some h =>
              if String.eqb (trim (placementPrompt s)) ""
              then Returned (setError
                     (Some "Please enter a description for how to place the object.") s)
              else Awaits (img, obj, placementPrompt s, h) (loading s)
          end
      end
  end.

Definition handlePlaceObject_settle (c : State) :=
  settle c "placed-" "Failed to place the object. " (setJustPlacedObject true).

Definition handlePlaceObject (now : string) (s : State) : State :=
  match handlePlaceObject_begin s with
  | Returned s' => s'
  | Awaits (img, obj, p, h) s1 =>
      handlePlaceObject_settle s now
        (defined (snd (generatePlacedImage br fetch img obj p h))) s1
  end.

(** [imgRef.current]: the displayed image element, when one is mounted. *)
Definition handleGenerateGrid_begin (imgRef : option (Bitmap num)) (s : State)
  : Begun (list (File num) * string * (num * num)) :=
  match gridImages s with
  | [] => Returned (setError (Some "Please upload one or more images for the grid.") s)
  | _ =>
      if String.eqb (trim (gridPrompt s)) ""
      then Returned (setError
             (Some "Please enter a prompt to describe the scene you want to create.") s)
      else match imgRef with
           | None => Returned (setError
                       (Some "Cannot determine output dimensions as no base image is loaded.") s)
           | Some img =>
               Awaits (gridImages s, gridPrompt s, (naturalWidth img, naturalHeight img))
                      (setJustPlacedObject false (loading s))
           end
  end.

Definition handleGenerateGrid_settle (c : State) :=
  settle c "grid-generated-" "Failed to generate from grid. "
    (fun s => setGridPrompt "" (setGridImages [] (setActiveTab Tab.retouch s))).

Definition handleGenerateGrid (imgRef : option (Bitmap num)) (now : string)
    (s : State) : State :=
  match handleGenerateGrid_begin imgRef s with
  | Returned s' => s'
  | Awaits (imgs, p, dims) s1 =>
      handleGenerateGrid_settle s now
        (snd (generateFromGrid br fetch imgs p (Some dims))) s1
  end.

Definition handleExpandImage_begin (s : State) : Begun (File num) :=
  match currentImage s with
  | None => Returned (setError (Some "No image loaded to expand.") s)
  | Some img => Awaits img (setJustPlacedObject false (loading s))
  end.

Definition handleExpandImage_settle (c : State) :=
  settle c "expanded-" "Failed to expand the image. " id.

Definition handleExpandImage (direction prompt now : string) (s : State) : State :=
  match handleExpandImage_begin s with
  | Returned s' => s'
  | Awaits img s1 =>
      handleExpandImage_settle s now
        (snd (generateExpandedImage br fetch img direction prompt)) s1
  end.

(** [handleApplyCrop].  The crop canvas is drawn under a transform; its
    [toDataURL] is taken as given ([croppedImageUrl]).  [dataURLtoFile] is
    outside a [try] here: when it throws, the handler stops where it is. *)
Definition handleApplyCrop (imgRef : option (Bitmap num)) (croppedImageUrl now : string)
    (s : State) : State :=
  match completedCrop s, imgRef with
  | Some _, Some _ =>
      let s1 := setJustPlacedObject false s in
      if negb (getContext2d br)
      then setError (Some "Could not process the crop.") s1
      else match dataURLtoFile (Some croppedImageUrl) ("cropped-" +:+ now +:+ ".png") with
           | Resolved newImageFile => addImageToHistory s newImageFile s1
           | Rejected _ => s1
           end
  | _, _ => setError (Some "Please select an area to crop.") s
  end.

Definition handleUndo (s : State) : State :=
  if canUndo s
  then setJustPlacedObject false
         (setDisplayHotspot None
            (setEditHotspot None (setHistoryIndex (historyIndex s - 1) s)))
  else s.

Definition handleRedo (s : State) : State :=
  if canRedo s
  then setDisplayHotspot None
         (setEditHotspot None (setHistoryIndex (historyIndex s + 1) s))
  else s.

Definition handleReset (s : State) : State :=
  if (0 <? Z.of_nat (length (history s)))%Z
  then setJustPlacedObject false
         (setDisplayHotspot None
            (setEditHotspot None (setError None (setHistoryIndex 0 s))))
  else s.

Definition handleUploadNew (s : State) : State :=
  setGridPrompt ""
    (setGridImages []
       (setJustPlacedObject false
          (setPlacementPrompt ""
             (setPlacementObject None
                (setDisplayHotspot None
                   (setEditHotspot None
                      (setPrompt ""
                         (setError None
                            (setHistoryIndex (-1) (setHistory [] s)))))))))).

(** [handleStartGridMode], with the outcome of [createPlaceholderImage]. *)
Definition handleStartGridMode (placeholder : Promise (File num)) (s : State) : State :=
  setIsLoading false
    match placeholder with
    | Resolved placeholderFile =>
        setActiveTab Tab.grid (handleImageUpload placeholderFile (setIsLoading true s))
    | Rejected err =>
        setError (Some (errorMessage err "Could not start Grid Combine mode."))
                 (setIsLoading true s)
    end.

(** [handleImageClick], with the two points it computes from the mouse
    event: the offset in the displayed image and the rounded position in
    the natural image. *)
Definition handleImageClick (offset original : Hotspot num) (s : State) : State :=
  match activeTab s with
  | Tab.retouch | Tab.place =>
      setEditHotspot (Some original) (setDisplayHotspot (Some offset) s)
  | _ => s
  end.

Definition tab_eqb (a b : Tab.t) : bool := bool_decide (a = b).

Definition handleTabChange (tab : Tab.t) (s : State) : State :=
  if negb (tab_eqb (activeTab s) tab) then
    let s1 := setDisplayHotspot None (setEditHotspot None (setActiveTab tab s)) in
    if negb (tab_eqb tab Tab.place) then setJustPlacedObject false s1 else s1
  else s.

Definition handlePlacementObjectChange (file : option (File num)) (s : State) : State :=
  setJustPlacedObject false (setPlacementObject file s).

(** What can happen to the editor.  A generation handler is two events,
    its start and the continuation of its [await]; the continuation carries
    the render [c] the handler was created in, and other events may come
    in between. *)
Inductive Event :=
| ImageUpload (file : File num)
| Generate (now : string)
| ApplyFilter (filterPrompt now : string)
| ApplyAdjustment (adjustmentPrompt now : string)
| PlaceObject (now : string)
| GenerateGrid (imgRef : option (Bitmap num)) (now : string)
| ExpandImage (direction prompt now : string)
| ApplyCrop (imgRef : option (Bitmap num)) (croppedImageUrl now : string)
| Undo
| Redo
| Reset
| UploadNew
| StartGridMode (placeholder : Promise (File num))
| ImageClick (offset original : Hotspot num)
| TabChange (tab : Tab.t)
| PlacementObjectChange (file : option (File num))
| TypePrompt (v : string)
| TypePlacementPrompt (v : string)
| GridImagesChange (v : list (File num))
| TypeGridPrompt (v : string)
| CropChange (v : option PixelCrop)
| CropComplete (v : option PixelCrop)
| DismissError
(** a generation starts and is left waiting *)
| GenerateBegins
| ApplyFilterBegins
| ApplyAdjustmentBegins
| PlaceObjectBegins
| GenerateGridBegins (imgRef : option (Bitmap num))
| ExpandImageBegins
(** the service call of a generation begun in render [c] settles *)
| GenerateSettles (c : State) (now : string) (outcome : Promise (option string))
| ApplyFilterSettles (c : State) (now : string) (outcome : Promise (option string))
| ApplyAdjustmentSettles (c : State) (now : string) (outcome : Promise (option string))
| PlaceObjectSettles (c : State) (now : string) (outcome : Promise (option string))
| GenerateGridSettles (c : State) (now : string) (outcome : Promise (option string))
| ExpandImageSettles (c : State) (now : string) (outcome : Promise (option string)).

Definition begun {A} (b : Begun A) : State :=
  match b with Returned s => s | Awaits _ s => s end.

Definition dispatch (s : State) (e : Event) : State :=
  match e with
  | ImageUpload file => handleImageUpload file s
  | Generate now => handleGenerate now s
  | ApplyFilter fp now => handleApplyFilter fp now s
  | ApplyAdjustment ap now => handleApplyAdjustment ap now s
  | PlaceObject now => handlePlaceObject now s
  | GenerateGrid imgRef now => handleGenerateGrid imgRef now s
  | ExpandImage d p now => handleExpandImage d p now s
  | ApplyCrop imgRef u now => handleApplyCrop imgRef u now s
  | Undo => handleUndo s
  | Redo => handleRedo s
  | Reset => handleReset s
  | UploadNew => handleUploadNew s
  | StartGridMode p => handleStartGridMode p s
  | ImageClick o h => handleImageClick o h s
  | TabChange tab => handleTabChange tab s
  | PlacementObjectChange f => handlePlacementObjectChange f s
  | TypePrompt v => setPrompt v s
  | TypePlacementPrompt v => setPlacementPrompt v s
  | GridImagesChange v => setGridImages v s
  | TypeGridPrompt v => setGridPrompt v s
  | CropChange v => setCrop v s
  | CropComplete v => setCompletedCrop v s
  | DismissError => setError None s
  | GenerateBegins => begun (handleGenerate_begin s)
  | ApplyFilterBegins => begun (handleApplyFilter_begin s)
  | ApplyAdjustmentBegins => begun (handleApplyAdjustment_begin s)
  | PlaceObjectBegins => begun (handlePlaceObject_begin s)
  | GenerateGridBegins imgRef => begun (handleGenerateGrid_begin imgRef s)
  | ExpandImageBegins => begun (handleExpandImage_begin s)
  | GenerateSettles c now o => handleGenerate_settle c now o s
  | ApplyFilterSettles c now o => handleApplyFilter_settle c now o s
  | ApplyAdjustmentSettles c now o => handleApplyAdjustment_settle c now o s
  | PlaceObjectSettles c now o => handlePlaceObject_settle c now o s
  | GenerateGridSettles c now o => handleGenerateGrid_settle c now o s
  | ExpandImageSettles c now o => handleExpandImage_settle c now o s
  end.

(** The editor after a sequence of events, from the initial render. *)
Definition run (events : list Event) : State := fold_left dispatch events initial.

(** The invariant of the history cells. *)
Definition history_ok (s : State) : Prop :=
  (-1 <= historyIndex s < Z.of_nat (length (history s)))%Z /\
  (historyIndex s = (-1)%Z <-> history s = []).

End Editor.

Arguments State num : clear implicits.
Arguments Begun num A : clear implicits.
Arguments Returned {num A} s.
Arguments Awaits {num A} args s.
Arguments Event num : clear implicits.
Arguments PixelCrop num : clear implicits.

End App.

(** ** The panels and the rest of the editor's wiring *)

(** *** components/PlacePanel.tsx *)

Module PlacePanel.
Section Panel.
Context {num : Type}.

Record Props := {
  isLoading : bool;
  isLocationSelected : bool;
  justPlacedObject : bool;
  placementObject : option (File num);
  placementPrompt : string;
}.

(** The props [App] renders the panel with. *)
Definition props (s : App.State num) : Props :=
  {| isLoading := App.isLoading s;
     isLocationSelected := bool_decide (is_Some (App.editHotspot s));   (* !!editHotspot *)
     justPlacedObject := App.justPlacedObject s;
     placementObject := App.placementObject s;
     placementPrompt := App.placementPrompt s |}.

(** [handleApply]: whether [onPlaceObject] is called. *)
Definition handleApply (p : Props) : bool :=
  negb (String.eqb (placementPrompt p) "")
  && bool_decide (is_Some (placementObject p))
  && isLocationSelected p.

(** [disabled] of the 'Generate Placement' button. *)
Definition generateDisabled (p : Props) : bool :=
  isLoading p
  || String.eqb (trim (placementPrompt p)) ""
  || negb (bool_decide (is_Some (placementObject p)))
  || negb (isLocationSelected p).

End Panel.
Arguments Props num : clear implicits.
End PlacePanel.

(** *** components/GridPanel.tsx *)

Module GridPanel.
Section Panel.
Context {num : Type}.

(** [handleFileSelect]: the list handed to [onGridImagesChange], when it is
    called. *)
Definition handleFileSelect (gridImages : list (File num))
    (files : option (list (File num))) : option (list (File num)) :=
  match files with
  | Some (f :: fs) => Some (gridImages ++ f :: fs)
  | _ => None
  end.

(** [l.splice(start, 1)] on a copy of [l]: what is left of the list. *)
Definition splice1 {A} (l : list A) (start : Z) : list A :=
  let len := Z.of_nat (length l) in
  let k := if (start <? 0)%Z then Z.max (len + start) 0 else Z.min start len in
  take (Z.to_nat k) l ++ drop (S (Z.to_nat k)) l.

(** [handleRemoveImage]: the list handed to [onGridImagesChange]. *)
Definition handleRemoveImage (gridImages : list (File num)) (index : Z)
  : list (File num) :=
  splice1 gridImages index.

(** [disabled] of the 'Generate Scene' button. *)
Definition generateDisabled (isLoading : bool) (gridPrompt : string)
    (gridImages : list (File num)) : bool :=
  isLoading || String.eqb (trim gridPrompt) "" || (length gridImages =? 0)%nat.

End Panel.
End GridPanel.

(** *** App.tsx: what the render passes to its controls *)

Section Controls.
Context {num : Type}.

(** [disabled] of the retouch form's 'Generate' button. *)
Definition retouchGenerateDisabled (s : App.State num) : bool :=
  App.isLoading s
  || String.eqb (trim (App.prompt s)) ""
  || negb (bool_decide (is_Some (App.editHotspot s))).

End Controls.

(** ** The earlier services/geminiService.ts: [fileToPart] *)

Module LegacyParts.
Section Parts.
Context {num : Type}.
Variable br : Browser num.

(** [{ inlineData: { mimeType, data } }] *)
Record InlineDataPart := { mimeType : string; data : string }.

Definition fileToPart (file : File num) : Promise InlineDataPart :=
  match readAsDataURL br file with
  | reader_onerror => Rejected DomEvent
  | reader_onload None =>
      Rejected (ErrorObj "Cannot read properties of null (reading 'split')")
  | reader_onload (Some dataUrl) =>
      match split_comma dataUrl with
      | arr0 :: arr1 :: _ =>
          match mimeMatch arr0 with
          | None => Rejected (ErrorObj "Could not parse MIME type from data URL")
          | Some mimeType =>
              if String.eqb mimeType ""
              then Rejected (ErrorObj "Could not parse MIME type from data URL")
              else Resolved {| mimeType := mimeType; data := arr1 |}
          end
      | _ => Rejected (ErrorObj "Invalid data URL")
      end
  end.

End Parts.
End LegacyParts.

(** ** api/generate.js: the call made to the model

    The [ai.models.generateContent] call each of the four request functions
    makes, for the key and the parts it is given. *)

Section ModelCall.
Context {num : Type}.

Definition modelCall (ai : string) (parts : list (Relay.Part num)) : Relay.ApiCall num :=
  {| Relay.apiKey := ai;
     Relay.params := {| Relay.model := "gemini-2.5-flash-image-preview";
                        Relay.contents := parts;
                        Relay.responseModalities := [Relay.IMAGE; Relay.TEXT] |} |}.

End ModelCall.

(** ** services/geminiService.ts: the request a service function sends *)

Section ServiceRequest.
Context {num : Type}.

(** [fetch('/api/generate', { method: 'POST', ..., body: JSON.stringify(b) })] *)
Definition post (b : Relay.RequestBody num) : FetchCall num :=
  {| url := "/api/generate";
     request := {| Relay.method := "POST"; Relay.body := Some b |} |}.

End ServiceRequest.

(** ** Shapes of data URLs

    A MIME type that [mimeMatch] reads back whole: not empty, of ASCII
    characters, and without a comma, a semicolon or a line terminator; and
    a payload without a comma (as base64 is). *)

Definition plain_mime (m : string) : bool :=
  negb (String.eqb m "")
  && forallb (fun c => negb (Ascii.eqb c ","%char) && negb (Ascii.eqb c ";"%char)
                       && negb (is_line_terminator c)
                       && (Ascii.N_of_ascii c <? 128)%N)
             (list_ascii_of_string m).

Definition no_comma (s : string) : bool :=
  forallb (fun c => negb (Ascii.eqb c ","%char)) (list_ascii_of_string s).

(** ** The hotspot cells of the editor

    [editHotspot] and [displayHotspot] are set and cleared together, and a
    hotspot is there on the retouch and place tabs only. *)

Section HotspotCells.
Context {num : Type}.

Definition hotspot_ok (s : App.State num) : Prop :=
  (App.editHotspot s = None <-> App.displayHotspot s = None) /\
  (is_Some (App.editHotspot s) ->
   App.activeTab s = App.Tab.retouch \/ App.activeTab s = App.Tab.place).

End HotspotCells.

(** ** Sample data

    A browser in which every capability succeeds, around one uploaded image:
    it decodes the upload to [img], encodes a canvas to a blob of that
    canvas, and decodes such a blob back to what the canvas held (the
    padded canvas has two drawing calls, the marked one three). *)

Section Samples.
Context {num : Type} `{JsNumber num} {rasteriser : Smoothing num}.

Definition sampleUpload : File num :=
  {| name := "photo.jpg"; type := "image/jpeg"; blob := BytesBlob "upload" |}.

Definition sampleUrl (f : File num) : string :=
  match blob f with
  | BytesBlob b => b
  | CanvasBlob _ cv => if (length (ops cv) <=? 2)%nat then "padded" else "marked"
  end.

Definition sampleBrowser (img : Bitmap num) : Browser num :=
  {| readAsDataURL f := reader_onload (Some (sampleUrl f));
     loadImage u :=
       if String.eqb u "upload" then Some img
       else if String.eqb u "padded" then Some (bitmapOf (padCanvas img))
       else None;
     getContext2d := true;
     toBlob cv t := Some (CanvasBlob t cv);
     toDataURL cv t := "data:image/png;base64,AAAA";
     atob b := Some b |}.

(** An opaque image of the given size, and a fully transparent one. *)
Definition flatImage (w h : Z) : Bitmap num :=
  {| naturalWidth := num_of_Z w; naturalHeight := num_of_Z h;
     colourAt := fun _ _ => Texel 7 |}.

Definition clearImage (w h : Z) : Bitmap num :=
  {| naturalWidth := num_of_Z w; naturalHeight := num_of_Z h;
     colourAt := fun _ _ => Transparent |}.

End Samples.

(** A rasteriser, as a browser may have it.  An image that is resampled
    gets, in each pixel whose centre the destination rectangle holds, the
    linear interpolation between the centres of the four nearest pixels of
    the image (its edge pixels repeated outside it), each channel rounded
    to the nearest integer; where one of the two values to weigh is not an
    opaque colour, the nearer one is taken.  A shape paints the pixels whose
    centre it holds. *)
Definition channels (c : Colour) : option (Z * Z * Z) :=
  match c with
  | Texel v => let z := Z.of_N v in Some (z / 65536, (z / 256) mod 256, z mod 256)%Z
  | _ => None
  end.

Definition rgb (r g b : Z) : Colour := Texel (Z.to_N (65536 * r + 256 * g + b)).

Definition half : Qc := Q2Qc (1 # 2).

(** (1 - t) a + t b *)
Definition lerp (t : Qc) (a b : Colour) : Colour :=
  match channels a, channels b with
  | Some (r1, g1, b1), Some (r2, g2, b2) =>
      let mix (x y : Z) :=
        Qfloor ((1 - t) * Q2Qc (inject_Z x) + t * Q2Qc (inject_Z y) + half)%Qc in
      rgb (mix r1 r2) (mix g1 g2) (mix b1 b2)
  | _, _ => if Qc_ltb t half then a else b
  end.

Definition clamp (k n : Z) : Z := Z.max 0 (Z.min k (n - 1)).

Definition edgePixel (img : Bitmap Qc) (k l : Z) : Colour :=
  match whole (naturalWidth img), whole (naturalHeight img) with
  | Some n, Some m => colourAt img (clamp k n) (clamp l m)
  | _, _ => Transparent
  end.

(** The image at the point (u, v); the centre of its pixel (k, l) is the
    point (k + 1/2, l + 1/2). *)
Definition interpolated (img : Bitmap Qc) (u v : Qc) : Colour :=
  let fu := (u - half)%Qc in
  let fv := (v - half)%Qc in
  let k := Qfloor fu in
  let l := Qfloor fv in
  let t := (fu - Q2Qc (inject_Z k))%Qc in
  let s := (fv - Q2Qc (inject_Z l))%Qc in
  lerp s (lerp t (edgePixel img k l) (edgePixel img (k + 1) l))
         (lerp t (edgePixel img k (l + 1)) (edgePixel img (k + 1) (l + 1))).

#[export] Instance linearSmoothing : Smoothing Qc := fun op under i j =>
  let cx := (Q2Qc (inject_Z i) + half)%Qc in
  let cy := (Q2Qc (inject_Z j) + half)%Qc in
  let resampled (img : Bitmap Qc) (sx sy sw sh dx dy dw dh : Qc) :=
    if inRect dx dy dw dh cx cy
    then imageOver (interpolated img (sx + (cx - dx) * sw / dw)%Qc
                                     (sy + (cy - dy) * sh / dh)%Qc) under
    else under in
  match op with
  | fillRect style x y w h =>
      if inRect x y w h cx cy then fillColour style under else under
  | drawImage3 img dx dy =>
      resampled img 0%Qc 0%Qc (naturalWidth img) (naturalHeight img)
                dx dy (naturalWidth img) (naturalHeight img)
  | drawImage5 img dx dy dw dh =>
      resampled img 0%Qc 0%Qc (naturalWidth img) (naturalHeight img) dx dy dw dh
  | drawImage9 _ img sx sy sw sh dx dy dw dh =>
      resampled img sx sy sw sh dx dy dw dh
  | arcFill style x y radius =>
      if Qc_leb (sq (cx - x) + sq (cy - y))%Qc (sq radius)
      then fillColour style under else under
  | arcStroke style lineWidth x y radius =>
      let d2 := (sq (cx - x) + sq (cy - y))%Qc in
      let h := (lineWidth / Q2Qc (inject_Z 2))%Qc in
      if (Qc_leb radius h || Qc_leb (sq (radius - h)%Qc) d2)
         && Qc_leb d2 (sq (radius + h)%Qc)
      then fillColour style under else under
  end.

(** An image of three columns: green, red and blue. *)
Definition stripes : Bitmap Qc :=
  {| naturalWidth := num_of_Z 3; naturalHeight := num_of_Z 4;
     colourAt := fun i _ =>
       if (i =? 0)%Z then rgb 10 250 10
       else if (i =? 1)%Z then rgb 250 10 10
       else rgb 10 10 250 |}.

(** How far, in double arithmetic, a coordinate of the crop's source
    rectangle is from the region the pad drew on, for an image of size
    w x h and a square of the padded side. *)
Definition roundingError (w h : Z) : float :=
  let fz := num_of_Z (num:=float) in
  let r := cropSource (Math_max (fz w) (fz h)) (fz w) (fz h) in
  let p := padRegion (fz w) (fz h) in
  float_max (float_max (PrimFloat.abs (PrimFloat.sub (rx r) (rx p)))
                       (PrimFloat.abs (PrimFloat.sub (ry r) (ry p))))
            (float_max (PrimFloat.abs (PrimFloat.sub (rw r) (rw p)))
                       (PrimFloat.abs (PrimFloat.sub (rh r) (rh p)))).

Definition sizesUpTo (n : nat) : list Z := List.map Z.of_nat (seq 1 n).

(** A filter request and a grid request as the client sends them, and an
    API that rejects every call. *)
Definition sampleFilterRequest : Relay.Request Z :=
  {| Relay.method := "POST";
     Relay.body := Some
       {| Relay.type := Some "filter";
          Relay.originalImage := Some "data:image/png;base64,AAAA";
          Relay.userPrompt := None; Relay.hotspot := None;
          Relay.filterPrompt := Some "sepia"; Relay.adjustmentPrompt := None;
          Relay.objectImage := None; Relay.images := None;
          Relay.targetDimensions := None; Relay.direction := None |} |}.

Definition sampleGridBody : Relay.RequestBody Z :=
  {| Relay.type := Some "grid"; Relay.originalImage := None;
     Relay.userPrompt := Some "a cosy room"; Relay.hotspot := None;
     Relay.filterPrompt := None; Relay.adjustmentPrompt := None;
     Relay.objectImage := None;
     Relay.images := Some ["data:image/png;base64,AAAA"];
     Relay.targetDimensions := Some (1024, 768)%Z; Relay.direction := None |}.

(** The editor with one image loaded, a prompt typed and a point clicked,
    and a network that is down. *)
Definition sampleEditing : App.State Qc :=
  App.setEditHotspot (Some {| hx := num_of_Z 1; hy := num_of_Z 3 |})
    (App.setPrompt "warmer light" (App.handleImageUpload sampleUpload App.initial)).

Definition offline {num : Type} (call : FetchCall num) : Promise Fetch.Response :=
  Rejected (ErrorObj "Failed to fetch").

Definition quotaExceeded {num : Type} (c : Relay.ApiCall num)
  : Relay.Result Relay.GenerateContentResponse :=
  Relay.Throw (Relay.Error_ "quota exceeded").

(** More sample data: a second file, a file that does not decode, the
    editor after one edit, and a relay that answers every request with an
    image (the URL the sample browser decodes to the padded square). *)
Definition sampleObject : File Qc :=
  {| name := "chair.png"; type := "image/png"; blob := BytesBlob "object" |}.

Definition corruptUpload : File Qc :=
  {| name := "broken.png"; type := "image/png"; blob := BytesBlob "garbage" |}.

Definition sampleEdited : App.State Qc :=
  App.addImageToHistory sampleEditing sampleObject sampleEditing.

Definition answersWithImage {num : Type} (call : FetchCall num) : Promise Fetch.Response :=
  Resolved {| Fetch.status := 200;
              Fetch.body := Some {| Http.error := None; Http.details := None;
                                    Http.success := Some true;
                                    Http.data := Some "padded" |} |}.

(** * Facts *)

(** ** The canvas helpers, in any arithmetic *)

Section GeometryFacts.
Context {num : Type} `{JsNumber num}.
Local Open Scope js_scope.

Lemma fileToBase64_resolves (br : Browser num) (f : File num) result :
  readAsDataURL br f = reader_onload result ->
  fileToBase64 br f = Resolved result.
Proof. intros Hr. unfold fileToBase64. now rewrite Hr. Qed.

(** [padImageToSquare] resolves when the file reads, the image decodes, a 2D
    context exists and the canvas encodes; what it resolves with is the
    encoded [padCanvas] and the natural size. *)
Lemma padImageToSquare_resolves (br : Browser num) (imageFile : File num) url img blob :
  readAsDataURL br imageFile = reader_onload (Some url) ->
  truthy (Some url) = true ->
  loadImage br url = Some img ->
  getContext2d br = true ->
  toBlob br (padCanvas img) "image/png" = Some blob ->
  padImageToSquare br imageFile =
    Resolved {| file := {| name := name imageFile; type := "image/png"; blob := blob |};
                originalWidth := naturalWidth img;
                originalHeight := naturalHeight img |}.
Proof.
  intros Hread Hurl Hload Hctx Hblob. unfold padImageToSquare.
  now rewrite Hread, Hurl; cbn [negb interpolate]; rewrite Hload, Hctx, Hblob.
Qed.

(** Conversely, a resolved [padImageToSquare] went through each of them. *)
Lemma padImageToSquare_resolved_inv (br : Browser num) (imageFile : File num) p :
  padImageToSquare br imageFile = Resolved p ->
  exists url img blob,
    readAsDataURL br imageFile = reader_onload (Some url) /\
    truthy (Some url) = true /\
    loadImage br url = Some img /\
    getContext2d br = true /\
    toBlob br (padCanvas img) "image/png" = Some blob /\
    p = {| file := {| name := name imageFile; type := "image/png"; blob := blob |};
           originalWidth := naturalWidth img;
           originalHeight := naturalHeight img |}.
Proof.
  unfold padImageToSquare.
  destruct (readAsDataURL br imageFile) as [|[url|]] eqn:Hread; try discriminate.
  destruct (truthy (Some url)) eqn:Hurl; try discriminate. cbn [negb interpolate].
  destruct (loadImage br url) as [img|] eqn:Hload; try discriminate.
  destruct (getContext2d br) eqn:Hctx; try discriminate. cbn.
  destruct (toBlob br (padCanvas img) "image/png") as [blob|] eqn:Hblob; try discriminate.
  intros [= <-]. exists url, img, blob. repeat split; assumption.
Qed.

(** The padded canvas is a square of side max(w, h), painted black, with
    the image drawn at its natural size on [padRegion]. *)
Lemma padCanvas_shape (img : Bitmap num) :
  let size := Math_max (naturalWidth img) (naturalHeight img) in
  let r := padRegion (naturalWidth img) (naturalHeight img) in
  width (padCanvas img) = size /\
  height (padCanvas img) = size /\
  ops (padCanvas img) =
    [ fillRect "black" (num_of_Z 0) (num_of_Z 0) size size;
      drawImage5 img (rx r) (ry r) (rw r) (rh r) ] /\
  rx r = (size - naturalWidth img) / num_of_Z 2 /\
  ry r = (size - naturalHeight img) / num_of_Z 2 /\
  rw r = naturalWidth img /\
  rh r = naturalHeight img.
Proof. cbn. repeat split. Qed.

(** [cropSquareToOriginal] resolves when the data URL decodes and a 2D
    context exists; the canvas it encodes has the recorded size, whatever
    the side of the decoded square. *)
Lemma cropSquareToOriginal_resolves (br : Browser num) dataUrl img (w h : num) :
  loadImage br dataUrl = Some img ->
  getContext2d br = true ->
  cropSquareToOriginal br dataUrl w h =
    Resolved (toDataURL br (cropCanvas img w h) "image/png").
Proof.
  intros Hload Hctx. unfold cropSquareToOriginal. now rewrite Hload, Hctx.
Qed.

Lemma cropCanvas_shape (img : Bitmap num) (w h : num) :
  let src := cropSource (naturalWidth img) w h in
  width (cropCanvas img w h) = w /\
  height (cropCanvas img w h) = h /\
  ops (cropCanvas img w h) =
    [ drawImage9 "high" img (rx src) (ry src) (rw src) (rh src)
                 (num_of_Z 0) (num_of_Z 0) w h ].
Proof. cbn. repeat split. Qed.

Lemma drawHotspotOnImage_resolves (br : Browser num) (imageFile : File num)
    (hotspot : Hotspot num) url img blob :
  readAsDataURL br imageFile = reader_onload (Some url) ->
  truthy (Some url) = true ->
  loadImage br url = Some img ->
  getContext2d br = true ->
  toBlob br (hotspotCanvas img hotspot) "image/png" = Some blob ->
  drawHotspotOnImage br imageFile hotspot =
    Resolved {| name := name imageFile; type := "image/png"; blob := blob |}.
Proof.
  intros Hread Hurl Hload Hctx Hblob. unfold drawHotspotOnImage.
  now rewrite Hread, Hurl; cbn [negb interpolate]; rewrite Hload, Hctx, Hblob.
Qed.

End GeometryFacts.

(** ** The geometry in exact arithmetic *)

Ltac qc_ops :=
  cbn [nadd nsub nmul ndiv Math_max Math_min nleb nltb num_of_Z Qc_number] in *.

Ltac qc_unfold :=
  unfold Qcle, Qclt, Qcdiv, Qcminus, Qcinv, Qcopp, Qcplus, Qcmult, Q2Qc in *;
  cbn [this] in *;
  repeat rewrite !Qred_correct in *;
  change (/ inject_Z 2)%Q with (1 # 2)%Q in *;
  change (inject_Z 2) with (2 # 1)%Q in *;
  change (inject_Z 0) with (0 # 1)%Q in *.

Lemma Qc_eq_Qeq (a b : Qc) : a = b -> (this a == this b)%Q.
Proof. intros ->. reflexivity. Qed.

Ltac qc_eq_hyps :=
  repeat match goal with
         | E : @eq Qc _ _ |- _ => apply Qc_eq_Qeq in E
         end.

Ltac qc_lra := qc_ops; qc_eq_hyps; qc_unfold; lra.

Ltac qc_const_neq :=
  let E := fresh in
  intro E; apply (f_equal this) in E; vm_compute in E; discriminate.

Ltac qc_field :=
  qc_ops; change (Q2Qc (inject_Z 0)) with 0%Qc in *;
  change (Q2Qc (inject_Z 2)) with (1 + 1)%Qc in *;
  field; repeat split; try assumption; try qc_const_neq.

Section ExactArithmetic.
Local Open Scope Qc_scope.

Notation "'zero'" := (num_of_Z (num:=Qc) 0).
Notation "'two'" := (num_of_Z (num:=Qc) 2).

Lemma Qc_leb_le (a b : Qc) : Qc_leb a b = true <-> a <= b.
Proof.
  unfold Qc_leb. rewrite Qcle_alt.
  destruct (a ?= b); split; intros; congruence.
Qed.

Lemma Qc_ltb_lt (a b : Qc) : Qc_ltb a b = true <-> a < b.
Proof.
  unfold Qc_ltb. rewrite Qclt_alt.
  destruct (a ?= b); split; intros; congruence.
Qed.

Lemma Math_max_Qc (w h : Qc) :
  w <= Math_max w h /\ h <= Math_max w h /\
  (Math_max w h = w \/ Math_max w h = h).
Proof.
  qc_ops. destruct (Qc_ltb w h) eqn:E.
  - apply Qc_ltb_lt in E. repeat split; [qc_lra | qc_lra | now right].
  - assert (~ w < h) by (rewrite <- Qc_ltb_lt; congruence).
    repeat split; [qc_lra | qc_lra | now left].
Qed.

Lemma Qc_pos_neq (a : Qc) : zero < a -> a <> 0.
Proof. intros Ha E. subst. qc_lra. Qed.

(** In exact arithmetic the rectangle [cropSquareToOriginal] computes is the
    closed form of the specification. *)
Lemma cropSource_closed_form (N w h : Qc) :
  zero < Math_max w h ->
  cropSource N w h = sourceRectSpec N w h.
Proof.
  intros HS. apply Qc_pos_neq in HS. unfold cropSource, sourceRectSpec.
  set (S := Math_max w h) in *. clearbody S. f_equal. all: qc_field.
Qed.

(** For a square of the padded side, it is the region the pad drew on. *)
Lemma cropSource_padRegion (w h : Qc) :
  zero < Math_max w h ->
  cropSource (Math_max w h) w h = padRegion w h.
Proof.
  intros HS. apply Qc_pos_neq in HS. unfold cropSource, padRegion.
  set (S := Math_max w h) in *. clearbody S. f_equal. all: qc_field.
Qed.

Lemma padRegion_inside (w h : Qc) :
  let S := Math_max w h in
  let r := padRegion w h in
  zero <= rx r /\ zero <= ry r /\
  rx r + w + rx r = S /\ ry r + h + ry r = S.
Proof.
  cbn zeta. destruct (Math_max_Qc w h) as (Hw & Hh & _).
  unfold padRegion. cbn [rx ry]. set (S := Math_max w h) in *. clearbody S.
  repeat split; [qc_lra | qc_lra | qc_field | qc_field].
Qed.

End ExactArithmetic.

(** ** Whole numbers

    The natural sizes of images are whole numbers; so are the offsets of
    the pad when the margins are even. *)

Section WholeNumbers.
Local Open Scope Qc_scope.

Notation "'zero'" := (num_of_Z (num:=Qc) 0).
Notation "'two'" := (num_of_Z (num:=Qc) 2).

Lemma this_of_Z (z : Z) : this (num_of_Z (num:=Qc) z) = inject_Z z.
Proof.
  cbn [num_of_Z Qc_number]. change (this (Q2Qc (inject_Z z))) with (Qred (inject_Z z)).
  apply Qred_identity. cbn. apply Z.gcd_1_r.
Qed.

Lemma whole_of_Z (z : Z) : whole (num_of_Z (num:=Qc) z) = Some z.
Proof.
  change (whole (num_of_Z (num:=Qc) z)) with (Qc_whole (num_of_Z z)).
  unfold Qc_whole. rewrite this_of_Z. reflexivity.
Qed.

Lemma whole_Some (q : Qc) (z : Z) : whole q = Some z -> q = num_of_Z z.
Proof.
  change (whole q) with (Qc_whole q). unfold Qc_whole.
  destruct q as [[nu de] Hc]. cbn [this Qden Qnum].
  destruct (Pos.eqb_spec de 1) as [->|]; [|discriminate].
  intros [= <-]. apply Qc_is_canon. rewrite this_of_Z. reflexivity.
Qed.

Lemma of_Z_le (a b : Z) : Qc_leb (num_of_Z a) (num_of_Z b) = (a <=? b)%Z.
Proof.
  destruct (Z.leb_spec a b) as [Hle|Hlt].
  - apply Qc_leb_le. unfold Qcle. rewrite !this_of_Z, <- Zle_Qle. exact Hle.
  - destruct (Qc_leb _ _) eqn:E; [|reflexivity].
    apply Qc_leb_le in E. unfold Qcle in E. rewrite !this_of_Z, <- Zle_Qle in E. lia.
Qed.

Lemma of_Z_lt (a b : Z) : Qc_ltb (num_of_Z a) (num_of_Z b) = (a <? b)%Z.
Proof.
  destruct (Z.ltb_spec a b) as [Hlt|Hle].
  - apply Qc_ltb_lt. unfold Qclt. rewrite !this_of_Z, <- Zlt_Qlt. exact Hlt.
  - destruct (Qc_ltb _ _) eqn:E; [|reflexivity].
    apply Qc_ltb_lt in E. unfold Qclt in E. rewrite !this_of_Z, <- Zlt_Qlt in E. lia.
Qed.

Lemma of_Z_max (n m : Z) :
  Math_max (num_of_Z (num:=Qc) n) (num_of_Z m) = num_of_Z (Z.max n m).
Proof.
  cbn [Math_max Qc_number]. rewrite of_Z_lt.
  destruct (Z.ltb_spec n m); [rewrite Z.max_r by lia|rewrite Z.max_l by lia]; reflexivity.
Qed.

Lemma of_Z_inj (a b : Z) : num_of_Z (num:=Qc) a = num_of_Z b -> a = b.
Proof.
  intros E. apply (f_equal this) in E. rewrite !this_of_Z in E.
  now injection E.
Qed.

Lemma of_Z_add (a b : Z) : (num_of_Z a + num_of_Z b)%js = num_of_Z (num:=Qc) (a + b).
Proof.
  apply Qc_is_canon. cbn [nadd Qc_number]. unfold Qcplus.
  change (this (Q2Qc ?q)) with (Qred q). rewrite Qred_correct, !this_of_Z.
  now rewrite inject_Z_plus.
Qed.

Lemma of_Z_sub (a b : Z) : (num_of_Z a - num_of_Z b)%js = num_of_Z (num:=Qc) (a - b).
Proof.
  apply Qc_is_canon. cbn [nsub Qc_number]. unfold Qcminus, Qcplus, Qcopp.
  repeat (change (this (Q2Qc ?q)) with (Qred q); rewrite Qred_correct).
  rewrite !this_of_Z. unfold Z.sub. now rewrite inject_Z_plus, inject_Z_opp.
Qed.

Lemma of_Z_halve (a : Z) : (num_of_Z (2 * a) / two)%js = num_of_Z (num:=Qc) a.
Proof.
  apply Qc_is_canon. cbn [ndiv Qc_number]. unfold Qcdiv, Qcmult, Qcinv.
  repeat (change (this (Q2Qc ?q)) with (Qred q); rewrite Qred_correct).
  rewrite !this_of_Z, inject_Z_mult. field.
Qed.

Lemma same_refl (a : Qc) : same a a = true.
Proof.
  unfold same. cbn [nleb Qc_number].
  assert (E : Qc_leb a a = true) by (apply Qc_leb_le; apply Qcle_refl).
  now rewrite E.
Qed.

(** The offset of the pad, for an image of n x m pixels with an even margin. *)
Lemma pad_offset (n s a : Z) :
  (s - n = 2 * a)%Z ->
  ((num_of_Z s - num_of_Z n) / two)%js = num_of_Z (num:=Qc) a.
Proof. intros E. now rewrite of_Z_sub, E, of_Z_halve. Qed.

(** With an odd margin the offset is not a whole number. *)
Lemma pad_offset_odd (n s : Z) :
  Z.odd (s - n) = true ->
  whole ((num_of_Z (num:=Qc) s - num_of_Z n) / two)%js = None.
Proof.
  intros Hodd. destruct (whole _) as [z|] eqn:E; [|reflexivity].
  apply whole_Some in E. rewrite of_Z_sub in E.
  assert (E2 : num_of_Z (num:=Qc) (s - n) = num_of_Z (2 * z)).
  { rewrite <- (of_Z_halve z) in E.
    apply (f_equal (fun q : Qc => (q * two)%js)) in E.
    revert E. set (p := num_of_Z (s - n)). set (q := num_of_Z (2 * z)).
    clearbody p q. intros E.
    replace p with ((p / two) * two)%js by qc_field.
    rewrite E. qc_field. }
  apply of_Z_inj in E2. rewrite E2, Z.odd_mul in Hodd. discriminate.
Qed.

End WholeNumbers.

(** ** The canvas, pixel by pixel *)

Section Raster.
Local Open Scope Qc_scope.
Context {rasteriser : Smoothing Qc}.

Notation "'zero'" := (num_of_Z (num:=Qc) 0).
Notation "'two'" := (num_of_Z (num:=Qc) 2).

(** A pixel of an image of n x m pixels. *)
Lemma pixel_inside (img : Bitmap Qc) (n m i j : Z) :
  naturalWidth img = num_of_Z n -> naturalHeight img = num_of_Z m ->
  (0 <= i < n)%Z -> (0 <= j < m)%Z ->
  pixel img i j = colourAt img i j.
Proof.
  intros Hw Hh Hi Hj. unfold pixel. rewrite Hw, Hh. cbn [nleb Qc_number].
  rewrite !of_Z_le.
  replace (0 <=? i)%Z with true by (symmetry; apply Z.leb_le; lia).
  replace (0 <=? j)%Z with true by (symmetry; apply Z.leb_le; lia).
  replace (i + 1 <=? n)%Z with true by (symmetry; apply Z.leb_le; lia).
  replace (j + 1 <=? m)%Z with true by (symmetry; apply Z.leb_le; lia).
  reflexivity.
Qed.

Lemma inCanvas_inside (cv : Canvas Qc) (n m i j : Z) :
  width cv = num_of_Z n -> height cv = num_of_Z m ->
  (0 <= i < n)%Z -> (0 <= j < m)%Z ->
  inCanvas cv i j = true.
Proof.
  intros Hw Hh Hi Hj. unfold inCanvas. rewrite Hw, Hh. cbn [nleb Qc_number].
  rewrite !of_Z_le.
  replace (0 <=? i)%Z with true by (symmetry; apply Z.leb_le; lia).
  replace (0 <=? j)%Z with true by (symmetry; apply Z.leb_le; lia).
  replace (i + 1 <=? n)%Z with true by (symmetry; apply Z.leb_le; lia).
  replace (j + 1 <=? m)%Z with true by (symmetry; apply Z.leb_le; lia).
  reflexivity.
Qed.

(** An image drawn at its size on the pixel grid is copied. *)
Lemma blit_copy (op : DrawOp Qc) (img : Bitmap Qc) (w h : Qc)
    (SX SY DX DY W H : Z) (under : Colour) (i j : Z) :
  w = num_of_Z W -> h = num_of_Z H -> (0 <= W)%Z -> (0 <= H)%Z ->
  blit op img (num_of_Z SX) (num_of_Z SY) w h (num_of_Z DX) (num_of_Z DY) w h under i j =
    if inPixels DX DY W H i j
    then imageOver (pixel img (i - DX + SX) (j - DY + SY)) under
    else under.
Proof.
  intros -> -> HW HH. unfold blit. rewrite !same_refl, !whole_of_Z.
  apply Z.leb_le in HW, HH. now rewrite HW, HH.
Qed.

(** One drawn off the grid is left to the smoothing filter. *)
Lemma blit_smoothed (op : DrawOp Qc) (img : Bitmap Qc) (sx sy sw sh dx dy dw dh : Qc)
    (under : Colour) (i j : Z) :
  whole dx = None \/ whole dy = None ->
  blit op img sx sy sw sh dx dy dw dh under i j = smooth op under i j.
Proof.
  intros Hoff. unfold blit. destruct (same sw dw && same sh dh); [|reflexivity].
  destruct (whole sx), (whole sy), (whole dx), (whole dy), (whole dw), (whole dh);
    try reflexivity; destruct Hoff; discriminate.
Qed.

Lemma inPixels_true (X Y W H i j : Z) :
  (X <= i < X + W)%Z -> (Y <= j < Y + H)%Z -> inPixels X Y W H i j = true.
Proof.
  intros Hi Hj. unfold inPixels.
  rewrite !andb_true_iff, !Z.leb_le, !Z.ltb_lt. lia.
Qed.

Lemma inPixels_false (X Y W H i j : Z) :
  ~ ((X <= i < X + W)%Z /\ (Y <= j < Y + H)%Z) -> inPixels X Y W H i j = false.
Proof.
  intros Hn. unfold inPixels. destruct (_ && _) eqn:E; [|reflexivity].
  rewrite !andb_true_iff, !Z.leb_le, !Z.ltb_lt in E. lia.
Qed.

(** The black fill of a square canvas. *)
Lemma fill_black (S : Qc) (s i j : Z) :
  S = num_of_Z s -> (0 <= i < s)%Z -> (0 <= j < s)%Z ->
  paint (fillRect "black" zero zero S S) Transparent i j = Black.
Proof.
  intros -> Hi Hj. cbn [paint].
  rewrite !whole_of_Z, (inPixels_true 0 0) by lia.
  now replace (0 <=? s)%Z with true by (symmetry; apply Z.leb_le; lia).
Qed.

(** The padded square of an image of n x m pixels, with whole-pixel
    offsets (a, b): black, with the image copied on its region. *)
Lemma render_padCanvas_aligned (img : Bitmap Qc) (n m a b i j : Z) :
  naturalWidth img = num_of_Z n -> naturalHeight img = num_of_Z m ->
  (0 < n)%Z -> (0 < m)%Z ->
  (Z.max n m - n = 2 * a)%Z -> (Z.max n m - m = 2 * b)%Z ->
  (0 <= i < Z.max n m)%Z -> (0 <= j < Z.max n m)%Z ->
  render (padCanvas img) i j =
    if inPixels a b n m i j
    then imageOver (colourAt img (i - a) (j - b)) Black
    else Black.
Proof.
  intros Hw Hh Hn Hm Ha Hb Hi Hj. unfold render.
  assert (HS : Math_max (naturalWidth img) (naturalHeight img) = num_of_Z (Z.max n m))
    by (rewrite Hw, Hh; apply of_Z_max).
  rewrite (inCanvas_inside _ (Z.max n m) (Z.max n m)); [|exact HS|exact HS|lia|lia].
  unfold padCanvas. cbn [ops fold_left].
  rewrite (fill_black _ (Z.max n m)) by (assumption || lia).
  cbn [paint]. rewrite HS, Hw, Hh.
  rewrite (pad_offset n _ a Ha), (pad_offset m _ b Hb).
  rewrite (blit_copy _ img (num_of_Z n) (num_of_Z m) 0 0 a b n m) by (reflexivity || lia).
  destruct (inPixels a b n m i j) eqn:Hin; [|reflexivity].
  unfold inPixels in Hin. rewrite !andb_true_iff, !Z.leb_le, !Z.ltb_lt in Hin.
  rewrite !Z.add_0_r.
  now rewrite (pixel_inside img n m) by (assumption || lia).
Qed.

(** With a half-pixel offset every pixel of the square is what the smoothing
    filter makes of the draw, over the black fill. *)
Lemma render_padCanvas_smoothed (img : Bitmap Qc) (n m i j : Z) :
  naturalWidth img = num_of_Z n -> naturalHeight img = num_of_Z m ->
  Z.odd (Z.max n m - n) = true \/ Z.odd (Z.max n m - m) = true ->
  (0 <= i < Z.max n m)%Z -> (0 <= j < Z.max n m)%Z ->
  let w := naturalWidth img in
  let h := naturalHeight img in
  let S := Math_max w h in
  (whole ((S - w) / two)%js = None \/ whole ((S - h) / two)%js = None) /\
  render (padCanvas img) i j =
    smooth (drawImage5 img ((S - w) / two)%js ((S - h) / two)%js w h) Black i j.
Proof.
  intros Hw Hh Hodd Hi Hj. cbn zeta.
  assert (HS : Math_max (naturalWidth img) (naturalHeight img) = num_of_Z (Z.max n m))
    by (rewrite Hw, Hh; apply of_Z_max).
  assert (Hoff : whole ((Math_max (naturalWidth img) (naturalHeight img)
                         - naturalWidth img) / two)%js = None \/
                 whole ((Math_max (naturalWidth img) (naturalHeight img)
                         - naturalHeight img) / two)%js = None).
  { rewrite HS, Hw, Hh. destruct Hodd as [Ho|Ho]; [left|right]; now apply pad_offset_odd. }
  split; [exact Hoff|].
  unfold render.
  rewrite (inCanvas_inside _ (Z.max n m) (Z.max n m)); [|exact HS|exact HS|lia|lia].
  unfold padCanvas. cbn [ops fold_left].
  rewrite (fill_black _ (Z.max n m)) by (assumption || lia).
  cbn [paint]. now rewrite blit_smoothed by exact Hoff.
Qed.

(** The crop of a square, when its source rectangle is on the pixel grid
    and has the size of the output: a copy. *)
Lemma render_cropCanvas_copy (square : Bitmap Qc) (w h : Qc) (n m a b i j : Z) :
  w = num_of_Z n -> h = num_of_Z m ->
  cropSource (naturalWidth square) w h
    = {| rx := num_of_Z a; ry := num_of_Z b; rw := w; rh := h |} ->
  (0 <= i < n)%Z -> (0 <= j < m)%Z ->
  render (cropCanvas square w h) i j = imageOver (pixel square (i + a) (j + b)) Transparent.
Proof.
  intros Hw Hh Hsrc Hi Hj. unfold render.
  rewrite (inCanvas_inside _ n m) by (assumption || lia).
  unfold cropCanvas. cbn [ops fold_left paint]. rewrite Hsrc. cbn [rx ry rw rh].
  rewrite (blit_copy _ square w h a b 0 0 n m) by (assumption || lia).
  rewrite (inPixels_true 0 0) by lia. now rewrite !Z.sub_0_r.
Qed.

End Raster.

(** ** The claims about the geometry *)

Section GeometryClaims.
Local Open Scope Qc_scope.
Context {rasteriser : Smoothing Qc}.

Notation "'zero'" := (num_of_Z (num:=Qc) 0).
Notation "'two'" := (num_of_Z (num:=Qc) 2).


(** C5, in exact arithmetic.  For a decoded square of side N and recorded
    dimensions w and h, S = max(w, h) not zero, [cropSquareToOriginal]
    copies the source rectangle with top-left (N(S - w)/(2S), N(S - h)/(2S))
    and size (Nw/S, Nh/S) onto a canvas of width w and height h: the
    result has the recorded dimensions whatever N is. *)
Theorem cropSquareToOriginal_source_rectangle
    (br : Browser Qc) dataUrl (img : Bitmap Qc) (w h : Qc) :
  loadImage br dataUrl = Some img ->
  getContext2d br = true ->
  zero < Math_max w h ->
  let N := naturalWidth img in
  let S := Math_max w h in
  let out := cropCanvas img w h in
  cropSquareToOriginal br dataUrl w h = Resolved (toDataURL br out "image/png") /\
  ops out = [ drawImage9 "high" img
                (N * (S - w) / (two * S)) (N * (S - h) / (two * S))
                (N * w / S) (N * h / S)
                zero zero w h ] /\
  width out = w /\ height out = h /\
  naturalWidth (bitmapOf out) = w /\ naturalHeight (bitmapOf out) = h.
Proof.
  intros Hload Hctx HS N S out.
  split; [now apply cropSquareToOriginal_resolves|].
  split; [|repeat split].
  unfold out, cropCanvas. cbn [ops]. fold N.
  rewrite (cropSource_closed_form N w h HS). reflexivity.
Qed.


End GeometryClaims.

Section GeometryExamples.


Lemma cropSquareToOriginal_source_rectangle_witness :
  width (cropCanvas (bitmapOf (padCanvas (flatImage (num:=Qc) 2 4)))
                    (num_of_Z 2) (num_of_Z 4)) = num_of_Z 2.
Proof.
  exact (proj1 (proj2 (proj2 (cropSquareToOriginal_source_rectangle
                  (sampleBrowser (num:=Qc) (flatImage 2 4)) "padded"
                  (bitmapOf (padCanvas (flatImage 2 4))) (num_of_Z 2) (num_of_Z 4)
                  eq_refl eq_refl eq_refl)))).
Defined.


End GeometryExamples.

(** ** The geometry in double arithmetic *)

Section DoubleArithmetic.

Notation "'fz'" := (num_of_Z (num:=float)).

(** The literal 0.015 of [drawHotspotOnImage] is the double 15 / 1000. *)
Lemma c_0_015_double :
  PrimFloat.eqb (c_0_015 (num:=float)) 0x1.eb851eb851eb8p-7%float = true.
Proof. vm_compute. reflexivity. Qed.

(** For a 47 x 49 image the pad draws at x = 1 on a square of side 49. *)
Lemma padRegion_double_47_49 :
  padRegion (fz 47) (fz 49) = {| rx := fz 1; ry := fz 0; rw := fz 47; rh := fz 49 |} /\
  width (padCanvas (flatImage (num:=float) 47 49)) = fz 49.
Proof. split; vm_compute; reflexivity. Qed.

(** The crop of a square of side 49 starts left of it: 49 * (1 / 49) is
    the double just below 1. *)
Lemma cropSource_double_47_49 :
  let r := cropSource (fz 49) (fz 47) (fz 49) in
  PrimFloat.ltb (rx r) (fz 1) = true /\
  PrimFloat.eqb (rx r) (nsub (fz 1) 0x1p-53%float) = true /\
  ry r = fz 0 /\ rw r = fz 47 /\ rh r = fz 49.
Proof. repeat split; vm_compute; reflexivity. Qed.

(** The error is a rounding error: below 2^-45 of a pixel for every image
    up to 256 x 256, and not zero for some of them. *)
Lemma double_rounding_is_small :
  forallb (fun w => forallb (fun h => PrimFloat.leb (roundingError w h) 0x1p-45%float)
                            (sizesUpTo 256))
          (sizesUpTo 256) = true /\
  PrimFloat.ltb 0%float (roundingError 47 49) = true.
Proof. split; vm_compute; reflexivity. Qed.

(** C5 fails in double arithmetic.  For a square of side N = 49 and
    recorded w = 47, h = 49 the closed form gives the rectangle
    (1, 0, 47, 49), in doubles as in exact arithmetic; the rectangle
    [cropSquareToOriginal] passes to [drawImage] starts at the double
    just below 1 instead. *)
Lemma cropSquareToOriginal_rounds_in_doubles :
  let img := flatImage (num:=float) 49 49 in
  let spec := sourceRectSpec (naturalWidth img) (fz 47) (fz 49) in
  spec = {| rx := fz 1; ry := fz 0; rw := fz 47; rh := fz 49 |} /\
  sourceRectSpec (num:=Qc) (num_of_Z 49) (num_of_Z 47) (num_of_Z 49)
    = {| rx := num_of_Z 1; ry := num_of_Z 0; rw := num_of_Z 47; rh := num_of_Z 49 |} /\
  ops (cropCanvas img (fz 47) (fz 49)) <>
    [ drawImage9 "high" img (rx spec) (ry spec) (rw spec) (rh spec)
                 (fz 0) (fz 0) (fz 47) (fz 49) ].
Proof.
  cbn zeta. split; [vm_compute; reflexivity|]. split.
  - unfold sourceRectSpec. f_equal; apply Qc_is_canon; vm_compute; reflexivity.
  - intros E.
    apply (f_equal (fun l => match l with
                             | [drawImage9 _ _ sx _ _ _ _ _ _ _] => PrimFloat.eqb sx (fz 1)
                             | _ => false
                             end)) in E.
    vm_compute in E. discriminate.
Qed.



End DoubleArithmetic.

(** ** The hotspot marker *)

Section HotspotClaims.
Local Open Scope Qc_scope.
Context {rasteriser : Smoothing Qc}.

Notation "'zero'" := (num_of_Z (num:=Qc) 0).
Notation "'one'" := (num_of_Z (num:=Qc) 1).
Notation "'two'" := (num_of_Z (num:=Qc) 2).

(** A hotspot inside the original image moves to a point of the region the
    pad drew on, as far from its corner as the hotspot is from the corner
    of the image. *)
Lemma paddedHotspot_in_padRegion (w h : Qc) (hotspot : Hotspot Qc) :
  let S := Math_max w h in
  let x := (S - w) / two in
  let y := (S - h) / two in
  let moved := paddedHotspot hotspot w h in
  zero <= hx hotspot /\ hx hotspot < w ->
  zero <= hy hotspot /\ hy hotspot < h ->
  (x <= hx moved /\ hx moved < x + w) /\ (y <= hy moved /\ hy moved < y + h) /\
  (zero <= hx moved /\ hx moved < S) /\ (zero <= hy moved /\ hy moved < S) /\
  hx moved - x = hx hotspot /\ hy moved - y = hy hotspot.
Proof.
  cbn zeta. intros [Hx0 Hx1] [Hy0 Hy1].
  pose proof (Math_max_Qc w h) as (HwS & HhS & _).
  pose proof (padRegion_inside w h) as (Hrx & Hry & Hcx & Hcy).
  unfold paddedHotspot. cbn [hx hy rx ry padRegion] in *.
  set (S := Math_max w h) in *. clearbody S. qc_ops.
  set (x := (S - w) / Q2Qc (inject_Z 2)) in *.
  set (y := (S - h) / Q2Qc (inject_Z 2)) in *.
  clearbody x y. destruct hotspot as [a b]. cbn [hx hy] in *.
  assert (Ea : a + x - x = a) by qc_field.
  assert (Eb : b + y - y = b) by qc_field.
  split; [split; qc_lra|]. split; [split; qc_lra|].
  split; [split; qc_lra|]. split; [split; qc_lra|].
  split; assumption.
Qed.


End HotspotClaims.

Section HotspotExamples.


End HotspotExamples.

(** ** The relay *)

Section RelayFacts.
Import Relay.

Lemma imagePart_has_inlineData response part :
  imagePartFromResponse response = Some part -> is_Some (inlineData part).
Proof.
  unfold imagePartFromResponse.
  destruct (firstCandidate response) as [c|]; [|discriminate].
  destruct (contentParts c) as [ps|]; [|discriminate].
  intros Hf. apply find_some in Hf as [_ Hd]. now apply bool_decide_eq_true in Hd.
Qed.

(** [handleApiResponse] returns exactly when the prompt was not blocked and
    the first candidate carries an inline image, and then returns that
    image's data URL. *)
Lemma handleApiResponse_returns response context url :
  handleApiResponse response context = Return url <->
  blockedBy response = None /\
  exists part i,
    imagePartFromResponse response = Some part /\
    inlineData part = Some i /\
    url = dataUrl i.
Proof.
  unfold handleApiResponse. split.
  - destruct (blockedBy response); [discriminate|].
    destruct (imagePartFromResponse response) as [[[i|] t]|] eqn:Hp.
    + intros [= <-]. split; [reflexivity|]. now exists {| inlineData := Some i; partText := t |}, i.
    + now destruct (_ && _).
    + now destruct (_ && _).
  - intros (-> & part & i & -> & Hi & ->). destruct part as [d t]. cbn in Hi. now subst d.
Qed.

Lemma legacy_handleApiResponse_returns response context url :
  LegacyService.handleApiResponse response context = Return url <->
  handleApiResponse response context = Return url.
Proof.
  rewrite handleApiResponse_returns. unfold LegacyService.handleApiResponse. split.
  - destruct (blockedBy response); [discriminate|].
    destruct (imagePartFromResponse response) as [[[i|] t]|] eqn:Hp.
    + intros [= <-]. split; [reflexivity|]. now exists {| inlineData := Some i; partText := t |}, i.
    + now destruct (_ && _).
    + now destruct (_ && _).
  - intros (-> & part & i & -> & Hi & ->). destruct part as [d t]. cbn in Hi. now subst d.
Qed.

(** A data URL is never empty. *)
Lemma dataUrl_not_empty i : dataUrl i <> "".
Proof. unfold dataUrl. cbn. discriminate. Qed.

Lemma dataUrl_prefix i : strip_prefix "data:" (dataUrl i) <> None.
Proof. unfold dataUrl. cbn. discriminate. Qed.

Lemma strip_prefix_app (p rest : string) : strip_prefix p (p +:+ rest) = Some rest.
Proof.
  induction p as [|a p IH]; [reflexivity|].
  change (strip_prefix (String a p) (String a p +:+ rest))
    with (if Ascii.eqb a a then strip_prefix p (p +:+ rest) else None).
  now rewrite Ascii.eqb_refl.
Qed.

Lemma string_app_assoc (a b c : string) : (a +:+ b) +:+ c = a +:+ (b +:+ c).
Proof.
  induction a as [|x a IH]; [reflexivity|].
  change (String x ((a +:+ b) +:+ c) = String x (a +:+ (b +:+ c))).
  now rewrite IH.
Qed.

(** The helpers of [handleApiResponse], against the fields of the response. *)
Lemma truthy_Some (v : option string) :
  truthy v = true <-> exists s, v = Some s /\ s <> "".
Proof.
  destruct v as [s|]; cbn.
  - rewrite negb_true_iff. split.
    + intros E. exists s. split; [reflexivity|]. intros ->. discriminate.
    + intros (s' & [= <-] & Hne). now apply String.eqb_neq.
  - split; [discriminate|]. now intros (s & E & _).
Qed.

Lemma blockedBy_blocked response fb :
  blockedBy response = Some fb <-> prompt_blocked response fb.
Proof.
  unfold blockedBy, prompt_blocked.
  destruct (promptFeedback response) as [fb'|].
  - destruct (truthy (blockReason fb')) eqn:E.
    + apply truthy_Some in E. split.
      * now intros [= <-].
      * now intros [[= <-] _].
    + split; [discriminate|]. intros [[= <-] Hr].
      apply truthy_Some in Hr. congruence.
  - split; [discriminate|]. now intros [E _].
Qed.

Lemma blockedBy_None response :
  blockedBy response = None <-> forall fb, ~ prompt_blocked response fb.
Proof.
  split.
  - intros E fb Hb. apply blockedBy_blocked in Hb. congruence.
  - intros Hn. destruct (blockedBy response) as [fb|] eqn:E; [|reflexivity].
    apply blockedBy_blocked in E. now destruct (Hn fb).
Qed.

Lemma find_first {A} (P : A -> bool) (l : list A) (x : A) :
  List.find P l = Some x <->
  exists before after,
    l = before ++ x :: after /\ Forall (fun y => P y = false) before /\ P x = true.
Proof.
  induction l as [|y l IH]; cbn.
  - split; [discriminate|]. intros (before & after & E & _). now destruct before.
  - destruct (P y) eqn:Hy.
    + split.
      * intros [= <-]. now exists [], l.
      * intros (before & after & E & Hb & Hx). destruct before as [|z before].
        -- now injection E as <- _.
        -- injection E as <- _. apply Forall_cons in Hb as [Hz _]. congruence.
    + rewrite IH. split.
      * intros (before & after & -> & Hb & Hx). exists (y :: before), after.
        split; [reflexivity|]. split; [now constructor|exact Hx].
      * intros (before & after & E & Hb & Hx). destruct before as [|z before].
        -- injection E as <- _. congruence.
        -- injection E as <- ->. apply Forall_cons in Hb as [_ Hb].
           now exists before, after.
Qed.

Lemma no_inlineData (part : ResponsePart) :
  bool_decide (is_Some (inlineData part)) = false <-> inlineData part = None.
Proof.
  rewrite bool_decide_eq_false. split.
  - intros Hn. destruct (inlineData part); [|reflexivity]. now destruct Hn.
  - intros -> [x Hx]. discriminate.
Qed.

Lemma imagePart_first_image response i :
  (exists part, imagePartFromResponse response = Some part /\ inlineData part = Some i)
  <-> first_image response i.
Proof.
  unfold imagePartFromResponse, firstCandidate, first_image. split.
  - intros (part & Hf & Hi).
    destruct (candidates response) as [[|c rest]|]; try discriminate.
    destruct (contentParts c) as [ps|] eqn:Hps; [|discriminate].
    apply find_first in Hf as (before & after & -> & Hb & _).
    exists c, rest, before, part, after. repeat split; try assumption.
    eapply Forall_impl; [exact Hb|]. intros p. apply no_inlineData.
  - intros (c & rest & before & part & after & -> & -> & Hb & Hi).
    exists part. split; [|exact Hi]. apply find_first.
    exists before, after. split; [reflexivity|]. split.
    + eapply Forall_impl; [exact Hb|]. intros p. apply no_inlineData.
    + apply bool_decide_eq_true. now rewrite Hi.
Qed.

Lemma imagePart_None response :
  (forall i, ~ first_image response i) ->
  match imagePartFromResponse response with
  | Some {| inlineData := Some _ |} => False
  | _ => True
  end.
Proof.
  intros Hn. destruct (imagePartFromResponse response) as [[[i|] t]|] eqn:E; try exact I.
  apply (Hn i), imagePart_first_image.
  exists {| inlineData := Some i; partText := t |}. now split.
Qed.

Lemma stopped_finish response :
  let finishReason :=
    match firstCandidate response with Some c => finishReason c | None => None end in
  truthy finishReason && negb (bool_decide (finishReason = Some "STOP")) = true <->
  exists reason, finish_not_stop response reason /\ finishReason = Some reason.
Proof.
  cbn zeta. unfold firstCandidate, finish_not_stop.
  destruct (candidates response) as [[|c rest]|]; cbn.
  - split; [discriminate|]. now intros (r & (c & rest & E & _) & _).
  - rewrite andb_true_iff, negb_true_iff, bool_decide_eq_false, truthy_Some. split.
    + intros [(r & Er & Hne) Hns]. exists r. split; [|exact Er].
      exists c, rest. repeat split; try assumption. intros ->. now apply Hns.
    + intros (r & (c' & rest' & [= <- <-] & Er & Hne & Hns) & _).
      split; [now exists r|]. rewrite Er. now intros [= ->].
  - split; [discriminate|]. now intros (r & (c & rest & E & _) & _).
Qed.

(** C7 *)(** C7.  [handleApiResponse] returns exactly when the prompt was not
    blocked and the first candidate has a part with [inlineData]; what it
    returns is built from the first such part,
    data:<mimeType>;base64,<data>, with the word undefined for a field that
    is missing.  Otherwise it throws an [Error]: the blocked-request error
    when [promptFeedback.blockReason] is set; else the stopped-unexpectedly
    error when the finish reason of the first candidate is set and is not
    STOP; else the no-image error, which quotes the trimmed text of the
    response when there is some.  So it either returns a string that starts
    with data: or throws an error with a message, and the text of the
    response only ever goes into an error message.  The earlier client-side
    [handleApiResponse] returns in the same cases the same value. *)
Theorem handleApiResponse_image_or_error response context :
  let hint := "This can happen due to safety filters or if the request is too complex." in
  let noImage :=
    "The AI model did not return an image for the " +:+ context +:+ ". " +:+
    match text response with
    | Some t =>
        if String.eqb (trim t) "" then hint
        else "The model responded with text: " +:+ dquote +:+ trim t +:+ dquote
    | None => hint
    end in
  (forall url,
     handleApiResponse response context = Return url <->
     (forall fb, ~ prompt_blocked response fb) /\
     exists i, first_image response i /\
       url = "data:" +:+ interpolate (mimeType i) +:+ ";base64," +:+ interpolate (data i)) /\
  (forall fb,
     prompt_blocked response fb ->
     handleApiResponse response context =
       Throw (Error_ ("Request was blocked. Reason: " +:+ interpolate (blockReason fb)
                      +:+ ". " +:+ js_or (blockReasonMessage fb) ""))) /\
  ((forall fb, ~ prompt_blocked response fb) ->
   (forall i, ~ first_image response i) ->
   (forall reason,
      finish_not_stop response reason ->
      handleApiResponse response context =
        Throw (Error_ ("Image generation for " +:+ context
                       +:+ " stopped unexpectedly. Reason: " +:+ reason))) /\
   ((forall reason, ~ finish_not_stop response reason) ->
    handleApiResponse response context = Throw (Error_ noImage))) /\
  ((exists url, handleApiResponse response context = Return url /\
                strip_prefix "data:" url <> None) \/
   (exists msg, handleApiResponse response context = Throw (Error_ msg) /\ msg <> "")) /\
  (forall url, LegacyService.handleApiResponse response context = Return url <->
               handleApiResponse response context = Return url).
Proof.
  cbn zeta. split; [|split; [|split; [|split]]].
  - intros url. rewrite handleApiResponse_returns, blockedBy_None.
    split.
    + intros (Hb & part & i & Hp & Hi & ->). split; [exact Hb|].
      exists i. split; [|reflexivity]. apply imagePart_first_image. now exists part.
    + intros (Hb & i & Hf & ->). split; [exact Hb|].
      apply imagePart_first_image in Hf as (part & Hp & Hi). now exists part, i.
  - intros fb Hb. apply blockedBy_blocked in Hb. unfold handleApiResponse. now rewrite Hb.
  - intros Hb Hn. apply blockedBy_None in Hb. pose proof (imagePart_None response Hn) as Hp.
    assert (Hcore : forall r : Result string,
              match imagePartFromResponse response with
              | Some {| inlineData := Some i |} => Return (dataUrl i)
              | _ => r
              end = r).
    { intros r. now destruct (imagePartFromResponse response) as [[[i|] t]|]. }
    unfold handleApiResponse. rewrite Hb, Hcore.
    pose proof (stopped_finish response) as Hs. cbn zeta in Hs.
    split.
    + intros reason (c & rest & Ec & Er & Hne & Hns).
      assert (Ef : match firstCandidate response with
                   | Some c => finishReason c | None => None end = Some reason)
        by (unfold firstCandidate; now rewrite Ec).
      assert (Hst : truthy (Some reason) && negb (bool_decide (Some reason = Some "STOP")) = true).
      { rewrite <- Ef. apply Hs. exists reason. split; [now exists c, rest|exact Ef]. }
      rewrite Ef, Hst. reflexivity.
    + intros Hnr.
      destruct (truthy _ && negb _) eqn:Hst.
      { destruct (proj1 Hs eq_refl) as (r & Hr & _). now destruct (Hnr r). }
      unfold textFeedback. destruct (text response) as [t0|]; cbn [truthy interpolate].
      * now destruct (String.eqb (trim t0) "").
      * reflexivity.
  - unfold handleApiResponse.
    destruct (blockedBy response) as [fb|].
    + right. eexists. split; [reflexivity|]. discriminate.
    + destruct (imagePartFromResponse response) as [[[i|] t]|].
      * left. eexists. split; [reflexivity|]. apply dataUrl_prefix.
      * right. destruct (_ && _); eexists; (split; [reflexivity|]); discriminate.
      * right. destruct (_ && _); eexists; (split; [reflexivity|]); discriminate.
  - intros url. apply legacy_handleApiResponse_returns.
Qed.


Context {num : Type}.
Implicit Types (gc : ApiCall num -> Result GenerateContentResponse)
               (env : Env) (req : Request num) (b : RequestBody num).

(** The handler, branch by branch. *)
Lemma handler_cases gc env req :
  handler gc env req =
    if String.eqb (method req) "OPTIONS" then
      respond (Http.end_ (Http.status 200 corsRes)) []
    else if negb (String.eqb (method req) "POST") then
      respond (Http.send_json (errorBody "Método no permitido" None)
                 (Http.status 405 corsRes)) []
    else match body req with
         | None =>
             {| res := corsRes; apiCalls := [];
                uncaught := Some (Error_ "Cannot destructure property 'type' of 'req.body' as it is undefined.") |}
         | Some b =>
             if negb (truthy (GEMINI_API_KEY env)) then
               respond (Http.send_json (errorBody "API Key de Gemini no configurada" None)
                          (Http.status 500 corsRes)) []
             else
               match served gc (interpolate (GEMINI_API_KEY env)) b with
               | Some (calls, Return response) =>
                   respond (Http.send_json (successBody response)
                              (Http.status 200 corsRes)) calls
               | Some (calls, Throw error) =>
                   respond (Http.send_json
                              (errorBody "Error interno del servidor" (message error))
                              (Http.status 500 corsRes)) calls
               | None =>
                   respond (Http.send_json (errorBody "Tipo de operación no válido" None)
                              (Http.status 400 corsRes)) []
               end
         end.
Proof.
  unfold handler, served. fold corsRes.
  destruct (String.eqb (method req) "OPTIONS"); [reflexivity|].
  destruct (negb (String.eqb (method req) "POST")); [reflexivity|].
  destruct (body req) as [b|]; [|reflexivity].
  destruct (negb (truthy (GEMINI_API_KEY env))); [reflexivity|].
  repeat (destruct (is_type b _); [reflexivity|]). reflexivity.
Qed.

Lemma handler_headers gc env req :
  Http.headers (res (handler gc env req)) = Http.headers corsRes.
Proof.
  rewrite handler_cases.
  repeat match goal with
         | |- context [if ?c then _ else _] => destruct c
         | |- context [match ?x with _ => _ end] => destruct x
         end; reflexivity.
Qed.

(** C10.  Every run of the handler leaves Access-Control-Allow-Origin set
    to [*] on [res]; an OPTIONS request is answered with status 200 and no
    body; a request whose method is neither POST nor OPTIONS is answered
    with status 405 and the error 'Método no permitido'.  Neither reaches
    the external API. *)
Theorem handler_methods_and_cors gc env req :
  let run := handler gc env req in
  Http.getHeader "Access-Control-Allow-Origin" (res run) = Some "*" /\
  (method req = "OPTIONS" ->
   Http.statusCode (res run) = Some 200%Z /\ Http.json (res run) = None /\
   Http.ended (res run) = true /\ apiCalls run = [] /\ uncaught run = None) /\
  (method req <> "OPTIONS" -> method req <> "POST" ->
   Http.statusCode (res run) = Some 405%Z /\
   Http.json (res run) = Some (errorBody "Método no permitido" None) /\
   Http.ended (res run) = true /\ apiCalls run = [] /\ uncaught run = None).
Proof.
  cbn zeta. split; [|split].
  - unfold Http.getHeader. now rewrite handler_headers.
  - intros Hm. rewrite handler_cases, Hm. now cbn.
  - intros Ho Hp. rewrite handler_cases.
    apply String.eqb_neq in Ho, Hp. rewrite Ho, Hp. now cbn.
Qed.


(** *** The key *)

Lemma callModel_key gc ai parts context :
  Forall (fun c => apiKey c = ai) (fst (callModel gc ai parts context)).
Proof. cbn. now repeat constructor. Qed.

Lemma served_key gc ai b r :
  served gc ai b = Some r -> Forall (fun c => apiKey c = ai) (fst r).
Proof.
  unfold served, handleEditRequest, handleFilterRequest, handleAdjustmentRequest,
    handlePlacementRequest.
  repeat match goal with
         | |- context [if ?c then _ else _] => destruct c
         | |- context [match ?x with _ => _ end] => destruct x
         end;
    intros [= <-]; first [apply callModel_key | constructor].
Qed.

(** What the relay does with a request depends on the key only through
    what the API answers. *)
Lemma callModel_same_answers gc1 gc2 k1 k2 parts context :
  (forall p, gc1 {| apiKey := k1; params := p |} = gc2 {| apiKey := k2; params := p |}) ->
  snd (callModel gc1 k1 parts context) = snd (callModel gc2 k2 parts context) /\
  map params (fst (callModel gc1 k1 parts context))
    = map params (fst (callModel gc2 k2 parts context)).
Proof. intros Hsame. cbn. now rewrite Hsame. Qed.

Lemma served_same_answers gc1 gc2 k1 k2 b :
  (forall p, gc1 {| apiKey := k1; params := p |} = gc2 {| apiKey := k2; params := p |}) ->
  match served gc1 k1 b, served gc2 k2 b with
  | Some r1, Some r2 => snd r1 = snd r2 /\ map params (fst r1) = map params (fst r2)
  | None, None => True
  | _, _ => False
  end.
Proof.
  intros Hsame.
  unfold served, handleEditRequest, handleFilterRequest, handleAdjustmentRequest,
    handlePlacementRequest.
  repeat match goal with
         | |- context [if ?c then _ else _] => destruct c
         | |- context [match base64ToPart ?x ?m with _ => _ end] =>
             destruct (base64ToPart x m)
         | |- context [match hotspot ?x with _ => _ end] => destruct (hotspot x)
         end;
    first [now apply callModel_same_answers | now split | exact I].
Qed.

(** C3, as the handler has it.  The key the API is called with is the value
    of GEMINI_API_KEY, on every call.  Two runs on the same request under
    two (non-empty) keys, where the API answers each call alike, end with
    the same [res] - status, headers and body - and make the same calls but
    for the key.  And when the key is unset or empty, a POST request with
    a body is answered with status 500 and the error 'API Key de Gemini
    no configurada', without a call to the API. *)
Theorem relay_keeps_key_server_side gc1 gc2 env1 env2 req :
  Forall (fun c => GEMINI_API_KEY env1 = Some (apiKey c))
         (apiCalls (handler gc1 env1 req)) /\
  (truthy (GEMINI_API_KEY env1) = true ->
   truthy (GEMINI_API_KEY env2) = true ->
   (forall p, gc1 {| apiKey := interpolate (GEMINI_API_KEY env1); params := p |}
              = gc2 {| apiKey := interpolate (GEMINI_API_KEY env2); params := p |}) ->
   res (handler gc1 env1 req) = res (handler gc2 env2 req) /\
   uncaught (handler gc1 env1 req) = uncaught (handler gc2 env2 req) /\
   map params (apiCalls (handler gc1 env1 req))
     = map params (apiCalls (handler gc2 env2 req))) /\
  (truthy (GEMINI_API_KEY env1) = false ->
   method req = "POST" -> body req <> None ->
   Http.statusCode (res (handler gc1 env1 req)) = Some 500%Z /\
   Http.json (res (handler gc1 env1 req))
     = Some (errorBody "API Key de Gemini no configurada" None) /\
   apiCalls (handler gc1 env1 req) = [] /\
   uncaught (handler gc1 env1 req) = None).
Proof.
  split; [|split].
  - rewrite handler_cases.
    destruct (String.eqb _ _); [constructor|]. destruct (negb _); [constructor|].
    destruct (body req) as [b|]; [|constructor].
    destruct (truthy (GEMINI_API_KEY env1)) eqn:Hk; [|constructor]. cbn [negb].
    destruct (served _ _ b) as [[calls r]|] eqn:Hs.
    + apply served_key in Hs. cbn [fst] in Hs.
      assert (Hcalls : Forall (fun c => GEMINI_API_KEY env1 = Some (apiKey c)) calls).
      { eapply Forall_impl; [exact Hs|]. intros c ->.
        destruct (GEMINI_API_KEY env1); [reflexivity|discriminate]. }
      now destruct r.
    + constructor.
  - intros Hk1 Hk2 Hsame. rewrite !handler_cases.
    destruct (String.eqb _ _); [now repeat split|].
    destruct (negb _); [now repeat split|].
    destruct (body req) as [b|]; [|now repeat split].
    rewrite Hk1, Hk2. cbn [negb].
    pose proof (served_same_answers gc1 gc2 _ _ b Hsame) as Hserved.
    destruct (served gc1 _ b) as [[calls1 r1]|], (served gc2 _ b) as [[calls2 r2]|];
      try contradiction; [|now repeat split].
    cbn [fst snd] in Hserved. destruct Hserved as [-> Hcalls].
    now destruct r2.
  - intros Hk Hm Hb. rewrite handler_cases, Hm, Hk.
    destruct (body req); [now cbn|contradiction].
Qed.

(** *** The operation types *)

(** C2 fails on the code: the requests [generateFromGrid] and
    [generateExpandedImage] send (type 'grid', type 'expand') are answered
    400 'Tipo de operación no válido' by a relay that has its key, without
    a call to the API; and so neither service function ever resolves
    through the relay. *)
Theorem grid_and_expand_not_served gc env b :
  truthy (GEMINI_API_KEY env) = true ->
  type b = Some "grid" \/ type b = Some "expand" ->
  let run := handler gc env {| method := "POST"; body := Some b |} in
  Http.statusCode (res run) = Some 400%Z /\
  Http.json (res run) = Some (errorBody "Tipo de operación no válido" None) /\
  apiCalls run = [] /\ uncaught run = None.
Proof.
  intros Hk Ht. cbn zeta. rewrite handler_cases. cbn [method body]. rewrite Hk.
  unfold served, is_type. now destruct Ht as [-> | ->].
Qed.

End RelayFacts.

Section RelayExamples.
Import Relay.

(** C7 fails as written.  A response whose first candidate holds only text
    and whose second holds the image contains an inline-image part, and
    [handleApiResponse] throws the no-image error: it looks at the first
    candidate only.  And a part whose [inlineData] has neither [mimeType]
    nor [data] makes it return data:undefined;base64,undefined, which is
    no image. *)
Lemma handleApiResponse_reads_the_first_candidate_only :
  let image := {| inlineData := Some {| mimeType := Some "image/png"; data := Some "AAAA" |};
                  partText := None |} in
  let words := {| inlineData := None; partText := Some "Here you are" |} in
  let late :=
    {| promptFeedback := None;
       candidates := Some [ {| contentParts := Some [words]; finishReason := Some "STOP" |};
                            {| contentParts := Some [image]; finishReason := Some "STOP" |} ];
       text := Some "Here you are" |} in
  let hollow :=
    {| promptFeedback := None;
       candidates :=
         Some [ {| contentParts :=
                     Some [ {| inlineData := Some {| mimeType := None; data := None |};
                               partText := None |} ];
                   finishReason := Some "STOP" |} ];
       text := None |} in
  contains_image late /\
  handleApiResponse late "edit" =
    Throw (Error_ ("The AI model did not return an image for the edit. "
                   +:+ "The model responded with text: " +:+ dquote +:+ "Here you are"
                   +:+ dquote)) /\
  LegacyService.handleApiResponse late "edit" = handleApiResponse late "edit" /\
  handleApiResponse hollow "edit" = Return "data:undefined;base64,undefined" /\
  LegacyService.handleApiResponse hollow "edit" = Return "data:undefined;base64,undefined".
Proof.
  cbn zeta. split; [|repeat split; reflexivity].
  eexists _, _, _, _. split; [reflexivity|]. split; [right; left; reflexivity|].
  split; [reflexivity|]. split; [left; reflexivity|]. now eexists.
Qed.

Lemma handler_methods_and_cors_witness :
  Http.statusCode
    (res (handler (num:=Z) quotaExceeded {| GEMINI_API_KEY := Some "key" |}
            {| method := "OPTIONS"; body := None |})) = Some 200%Z /\
  Http.statusCode
    (res (handler (num:=Z) quotaExceeded {| GEMINI_API_KEY := Some "key" |}
            {| method := "DELETE"; body := None |})) = Some 405%Z.
Proof.
  split.
  - exact (proj1 (proj1 (proj2 (handler_methods_and_cors quotaExceeded
             {| GEMINI_API_KEY := Some "key" |} {| method := "OPTIONS"; body := None |}))
             eq_refl)).
  - refine (proj1 (proj2 (proj2 (handler_methods_and_cors quotaExceeded
              {| GEMINI_API_KEY := Some "key" |} {| method := "DELETE"; body := None |}))
              _ _)); discriminate.
Defined.

Lemma relay_keeps_key_server_side_witness :
  res (handler quotaExceeded {| GEMINI_API_KEY := Some "key-one" |} sampleFilterRequest)
    = res (handler quotaExceeded {| GEMINI_API_KEY := Some "key-two" |} sampleFilterRequest) /\
  Http.statusCode
    (res (handler quotaExceeded {| GEMINI_API_KEY := None |} sampleFilterRequest))
    = Some 500%Z.
Proof.
  split.
  - exact (proj1 (proj1 (proj2 (relay_keeps_key_server_side
             quotaExceeded quotaExceeded
             {| GEMINI_API_KEY := Some "key-one" |} {| GEMINI_API_KEY := Some "key-two" |}
             sampleFilterRequest))
             eq_refl eq_refl (fun _ => eq_refl))).
  - refine (proj1 (proj2 (proj2 (relay_keeps_key_server_side
              quotaExceeded quotaExceeded
              {| GEMINI_API_KEY := None |} {| GEMINI_API_KEY := None |}
              sampleFilterRequest))
              eq_refl eq_refl _)). discriminate.
Defined.

(** C3 as stated fails: with the key unset, an OPTIONS request is answered
    200 and a GET request 405, not 500 with the key error; the method is
    looked at first. *)
Lemma key_check_comes_after_method_gate :
  let unset := {| GEMINI_API_KEY := None |} in
  let preflight :=
    handler (num:=Z) quotaExceeded unset {| method := "OPTIONS"; body := None |} in
  let get := handler (num:=Z) quotaExceeded unset {| method := "GET"; body := None |} in
  truthy (GEMINI_API_KEY unset) = false /\
  Http.statusCode (res preflight) = Some 200%Z /\ Http.json (res preflight) = None /\
  Http.statusCode (res get) = Some 405%Z /\
  Http.json (res get) = Some (errorBody "Método no permitido" None).
Proof. cbn zeta. repeat split. Qed.

Lemma grid_and_expand_not_served_witness :
  Http.statusCode (res (handler quotaExceeded {| GEMINI_API_KEY := Some "key" |}
                          {| method := "POST"; body := Some sampleGridBody |}))
    = Some 400%Z.
Proof.
  exact (proj1 (grid_and_expand_not_served quotaExceeded
                  {| GEMINI_API_KEY := Some "key" |} sampleGridBody
                  eq_refl (or_introl eq_refl))).
Defined.

End RelayExamples.

(** *** Through the relay *)

Section ThroughTheRelay.
Context {num : Type} `{JsNumber num}.
Variable br : Browser num.
Variable env : Relay.Env.
Variable generateContent : Relay.ApiCall num -> Relay.Result Relay.GenerateContentResponse.

(** A request of a type the relay has no case for is answered with an
    error status, whatever the key, and the service function's promise
    rejects with that error. *)
Lemma postGenerate_unserved (b : Relay.RequestBody num) (fallback : string) :
  Relay.served generateContent (interpolate (Relay.GEMINI_API_KEY env)) b = None ->
  snd (postGenerate (relayFetch env generateContent) b fallback)
    = Rejected (ErrorObj
        (if truthy (Relay.GEMINI_API_KEY env)
         then "Tipo de operación no válido"
         else "API Key de Gemini no configurada")).
Proof.
  intros Hs. unfold postGenerate, relayFetch. cbn [snd request].
  rewrite handler_cases. cbn [Relay.method Relay.body]. rewrite Hs.
  now destruct (truthy (Relay.GEMINI_API_KEY env)).
Qed.

Lemma grid_unserved ai (b : Relay.RequestBody num) :
  Relay.type b = Some "grid" \/ Relay.type b = Some "expand" ->
  Relay.served generateContent ai b = None.
Proof. unfold Relay.served, Relay.is_type. now intros [-> | ->]. Qed.

(** Neither [generateFromGrid] nor [generateExpandedImage] ever resolves
    through the relay, and the API is never called for them. *)
Lemma generateFromGrid_never_resolves (gridImages : list (File num)) (userPrompt : string)
    (targetDimensions : option (num * num)) :
  exists r,
    snd (generateFromGrid br (relayFetch env generateContent)
           gridImages userPrompt targetDimensions) = Rejected r.
Proof.
  unfold generateFromGrid. destruct (allBase64 br gridImages) as [l|r]; [|now exists r].
  match goal with
  | |- context [postGenerate ?f ?b ?m] =>
      pose proof (postGenerate_unserved b m (grid_unserved _ b (or_introl eq_refl))) as Hp;
      destruct (postGenerate f b m) as [sent out]
  end.
  cbn [snd] in Hp. subst out. eauto.
Qed.

Lemma generateExpandedImage_never_resolves (originalImage : File num)
    (direction userPrompt : string) :
  exists r,
    snd (generateExpandedImage br (relayFetch env generateContent)
           originalImage direction userPrompt) = Rejected r.
Proof.
  unfold generateExpandedImage.
  destruct (fileToBase64 br originalImage) as [l|r]; [|now exists r].
  match goal with
  | |- context [postGenerate ?f ?b ?m] =>
      pose proof (postGenerate_unserved b m (grid_unserved _ b (or_intror eq_refl))) as Hp;
      destruct (postGenerate f b m) as [sent out]
  end.
  cbn [snd] in Hp. subst out. eauto.
Qed.

(** A filter request with its image is forwarded: one call, with the key
    of the environment, and the answer is the model's image or a 500. *)
Lemma handler_forwards_filter (b : Relay.RequestBody num) (img : string) :
  truthy (Relay.GEMINI_API_KEY env) = true ->
  Relay.type b = Some "filter" ->
  Relay.originalImage b = Some img ->
  let call :=
    {| Relay.apiKey := interpolate (Relay.GEMINI_API_KEY env);
       Relay.params :=
         {| Relay.model := "gemini-2.5-flash-image-preview";
            Relay.contents :=
              [ Relay.inlineDataPart "image/png" (stripDataUrlPrefix img);
                Relay.textPart (Relay.FilterInstructions (Relay.filterPrompt b)) ];
            Relay.responseModalities := [Relay.IMAGE; Relay.TEXT] |} |} in
  let run := Relay.handler generateContent env
               {| Relay.method := "POST"; Relay.body := Some b |} in
  Relay.apiCalls run = [call] /\
  match generateContent call with
  | Relay.Return response =>
      match Relay.handleApiResponse response "filter" with
      | Relay.Return url =>
          Http.statusCode (Relay.res run) = Some 200%Z /\
          Http.json (Relay.res run) = Some (Relay.successBody url)
      | Relay.Throw e =>
          Http.statusCode (Relay.res run) = Some 500%Z /\
          Http.json (Relay.res run)
            = Some (Relay.errorBody "Error interno del servidor" (Relay.message e))
      end
  | Relay.Throw e =>
      Http.statusCode (Relay.res run) = Some 500%Z /\
      Http.json (Relay.res run)
        = Some (Relay.errorBody "Error interno del servidor" (Relay.message e))
  end.
Proof.
  intros Hk Ht Himg. cbn zeta. rewrite handler_cases. cbn [Relay.method Relay.body].
  rewrite Hk. unfold Relay.served, Relay.is_type. rewrite Ht. cbn [String.eqb negb].
  unfold Relay.handleFilterRequest. rewrite Himg. cbn [Relay.base64ToPart].
  unfold Relay.callModel.
  destruct (generateContent _) as [response|e]; [|now split].
  now destruct (Relay.handleApiResponse response "filter").
Qed.

End ThroughTheRelay.

(** ** The editor *)

Section EditorFacts.
Import App.
Context {num : Type} `{JsNumber num}.
Variable br : Browser num.
Variable fetch : FetchCall num -> Promise Fetch.Response.

Implicit Types (s c : State num) (f : File num).

(** [history_ok] looks at the two history cells only. *)
Lemma history_ok_frame s s' :
  history s' = history s -> historyIndex s' = historyIndex s ->
  history_ok s -> history_ok s'.
Proof. unfold history_ok. now intros -> ->. Qed.

Lemma slice0_take {A} (l : list A) (e : Z) :
  (0 <= e)%Z -> slice0 l e = take (Z.to_nat e) l.
Proof.
  intros He. unfold slice0.
  destruct (Z.ltb_spec e 0); [lia|].
  destruct (Z.min_spec e (Z.of_nat (length l))) as [[Hlt ->]|[Hge ->]]; [reflexivity|].
  rewrite Nat2Z.id. rewrite !take_ge by lia. reflexivity.
Qed.

Lemma addImageToHistory_cells c f s :
  let s' := addImageToHistory c f s in
  history s' = slice0 (history c) (historyIndex c + 1) ++ [f] /\
  historyIndex s' = (Z.of_nat (length (history s')) - 1)%Z /\
  currentImage s' = Some f /\
  last (history s') = Some f.
Proof.
  cbn zeta. unfold addImageToHistory, currentImage, js_index. cbn.
  set (kept := slice0 (history c) (historyIndex c + 1)).
  split; [reflexivity|]. split; [reflexivity|].
  rewrite length_app. cbn [length].
  destruct (Z.leb_spec 0 (Z.of_nat (length kept + 1) - 1)); [|lia].
  replace (Z.to_nat (Z.of_nat (length kept + 1) - 1)) with (length kept + 0)%nat by lia.
  split; [now rewrite lookup_app_r, Nat.add_comm by lia; rewrite Nat.add_sub|].
  apply last_snoc.
Qed.

Lemma addImageToHistory_ok c f s : history_ok (addImageToHistory c f s).
Proof.
  destruct (addImageToHistory_cells c f s) as (Hh & Hi & _ & _).
  unfold history_ok. rewrite Hi, Hh, length_app. cbn [length].
  split; [lia|]. split; [lia|]. intros E. now destruct (slice0 _ _).
Qed.

Lemma settle_ok c filePrefix errPrefix onSuccess now outcome s :
  (forall s0, history (onSuccess s0) = history s0 /\
              historyIndex (onSuccess s0) = historyIndex s0) ->
  history_ok s ->
  history_ok (settle br c filePrefix errPrefix onSuccess now outcome s).
Proof.
  intros Hsucc Hok. unfold settle.
  destruct outcome as [imageUrl|err].
  - destruct (dataURLtoFile br imageUrl _) as [newImageFile|err].
    + destruct (Hsucc (addImageToHistory c newImageFile s)) as [Hh Hi].
      eapply history_ok_frame; [| |apply (addImageToHistory_ok c newImageFile s)].
      * exact Hh.
      * exact Hi.
    + exact Hok.
  - exact Hok.
Qed.

Lemma begun_ok {A} (b : Begun num A) s :
  history (begun b) = history s -> historyIndex (begun b) = historyIndex s ->
  history_ok s -> history_ok (begun b).
Proof. apply history_ok_frame. Qed.

(** Every event keeps the invariant. *)
Lemma dispatch_ok s (e : Event num) :
  history_ok s -> history_ok (dispatch br fetch s e).
Proof.
  intros Hok.
  assert (Hframe : forall s', history s' = history s -> historyIndex s' = historyIndex s ->
                              history_ok s')
    by (intros s' Hh Hi; now apply (history_ok_frame s s')).
  destruct e; cbn [dispatch].
  - (* ImageUpload *) unfold history_ok. cbn. split; [lia|]. split; discriminate.
  - (* Generate *)
    unfold handleGenerate, handleGenerate_begin.
    destruct (currentImage s); [|now apply Hframe].
    destruct (String.eqb _ _); [now apply Hframe|].
    destruct (editHotspot s); [|now apply Hframe].
    apply settle_ok; [now intros|now apply Hframe].
  - (* ApplyFilter *)
    unfold handleApplyFilter, handleApplyFilter_begin.
    destruct (currentImage s); [|now apply Hframe].
    apply settle_ok; [now intros|now apply Hframe].
  - (* ApplyAdjustment *)
    unfold handleApplyAdjustment, handleApplyAdjustment_begin.
    destruct (currentImage s); [|now apply Hframe].
    apply settle_ok; [now intros|now apply Hframe].
  - (* PlaceObject *)
    unfold handlePlaceObject, handlePlaceObject_begin.
    destruct (currentImage s); [|now apply Hframe].
    destruct (placementObject s); [|now apply Hframe].
    destruct (editHotspot s); [|now apply Hframe].
    destruct (String.eqb _ _); [now apply Hframe|].
    apply settle_ok; [now intros|now apply Hframe].
  - (* GenerateGrid *)
    unfold handleGenerateGrid, handleGenerateGrid_begin.
    destruct (gridImages s); [now apply Hframe|].
    destruct (String.eqb _ _); [now apply Hframe|].
    destruct imgRef; [|now apply Hframe].
    apply settle_ok; [now intros|now apply Hframe].
  - (* ExpandImage *)
    unfold handleExpandImage, handleExpandImage_begin.
    destruct (currentImage s); [|now apply Hframe].
    apply settle_ok; [now intros|now apply Hframe].
  - (* ApplyCrop *)
    unfold handleApplyCrop.
    destruct (completedCrop s); [|now apply Hframe].
    destruct imgRef; [|now apply Hframe].
    destruct (negb _); [now apply Hframe|].
    destruct (dataURLtoFile _ _ _); [|now apply Hframe].
    apply addImageToHistory_ok.
  - (* Undo *)
    unfold handleUndo, canUndo. destruct (Z.ltb_spec 0 (historyIndex s)); [|exact Hok].
    destruct Hok as [Hr He]. unfold history_ok. cbn. split; [lia|].
    split; [lia|]. intros E. apply He in E. lia.
  - (* Redo *)
    unfold handleRedo, canRedo.
    destruct (Z.ltb_spec (historyIndex s) (Z.of_nat (length (history s)) - 1)); [|exact Hok].
    destruct Hok as [Hr He]. unfold history_ok. cbn. split; [lia|].
    split; [lia|]. intros E. rewrite E in *. cbn in *. lia.
  - (* Reset *)
    unfold handleReset. destruct (Z.ltb_spec 0 (Z.of_nat (length (history s)))); [|exact Hok].
    unfold history_ok. cbn. split; [lia|]. split; [discriminate|].
    intros E. rewrite E in *. cbn in *. lia.
  - (* UploadNew *) unfold history_ok. cbn. split; [lia|]. now split.
  - (* StartGridMode *)
    unfold handleStartGridMode. destruct placeholder; [|now apply Hframe].
    unfold history_ok. cbn. split; [lia|]. split; discriminate.
  - (* ImageClick *) unfold handleImageClick. destruct (activeTab s); now apply Hframe.
  - (* TabChange *)
    unfold handleTabChange. destruct (negb (tab_eqb (activeTab s) tab)); [|exact Hok].
    destruct (negb (tab_eqb tab Tab.place)); now apply Hframe.
  - now apply Hframe.
  - now apply Hframe.
  - now apply Hframe.
  - now apply Hframe.
  - now apply Hframe.
  - now apply Hframe.
  - now apply Hframe.
  - now apply Hframe.
  - (* GenerateBegins *)
    unfold handleGenerate_begin.
    destruct (currentImage s); [|now apply Hframe].
    destruct (String.eqb _ _); [now apply Hframe|].
    destruct (editHotspot s); now apply Hframe.
  - unfold handleApplyFilter_begin. destruct (currentImage s); now apply Hframe.
  - unfold handleApplyAdjustment_begin. destruct (currentImage s); now apply Hframe.
  - unfold handlePlaceObject_begin.
    destruct (currentImage s); [|now apply Hframe].
    destruct (placementObject s); [|now apply Hframe].
    destruct (editHotspot s); [|now apply Hframe].
    destruct (String.eqb _ _); now apply Hframe.
  - unfold handleGenerateGrid_begin.
    destruct (gridImages s); [now apply Hframe|].
    destruct (String.eqb _ _); [now apply Hframe|].
    destruct imgRef; now apply Hframe.
  - unfold handleExpandImage_begin. destruct (currentImage s); now apply Hframe.
  - apply settle_ok; [now intros|exact Hok].
  - apply settle_ok; [now intros|exact Hok].
  - apply settle_ok; [now intros|exact Hok].
  - apply settle_ok; [now intros|exact Hok].
  - apply settle_ok; [now intros|exact Hok].
  - apply settle_ok; [now intros|exact Hok].
Qed.

Lemma initial_ok : history_ok (initial (num:=num)).
Proof. unfold history_ok. cbn. split; [lia|]. now split. Qed.

Lemma run_ok (events : list (Event num)) : history_ok (run br fetch events).
Proof.
  unfold run. generalize (initial_ok). generalize (initial (num:=num)).
  induction events as [|e events IH]; intros s Hok; cbn [fold_left]; [exact Hok|].
  apply IH. now apply dispatch_ok.
Qed.

End EditorFacts.

Section EditorClaims.
Import App.
Context {num : Type} `{JsNumber num}.
Variable br : Browser num.
Variable fetch : FetchCall num -> Promise Fetch.Response.

Implicit Types (s c : State num) (f : File num).

(** C8.  After every sequence of events from the initial render - image
    upload, the generation handlers (run to completion, or begun and
    settled later with other events in between), crop, undo, redo, reset,
    upload-new and the rest - the history cells satisfy
    -1 <= historyIndex < history.length, and historyIndex = -1 exactly
    when history is empty; every single event keeps that.  [handleUndo]
    lowers the index by one exactly when historyIndex > 0 and [handleRedo]
    raises it by one exactly when historyIndex < history.length - 1;
    neither touches the entries.  [addImageToHistory] keeps the entries up
    to the current index of its render, drops the later ones and appends the
    new image, which is then the last entry and the current image. *)
Theorem edit_history_invariant :
  (forall events : list (Event num), history_ok (run br fetch events)) /\
  (forall s (e : Event num), history_ok s -> history_ok (dispatch br fetch s e)) /\
  (forall s,
     history (handleUndo s) = history s /\
     historyIndex (handleUndo s)
       = (if (0 <? historyIndex s)%Z then historyIndex s - 1 else historyIndex s)%Z) /\
  (forall s,
     history (handleRedo s) = history s /\
     historyIndex (handleRedo s)
       = (if (historyIndex s <? Z.of_nat (length (history s)) - 1)%Z
          then historyIndex s + 1 else historyIndex s)%Z) /\
  (forall c f s,
     let s' := addImageToHistory c f s in
     history s' = slice0 (history c) (historyIndex c + 1) ++ [f] /\
     (history_ok c ->
      history s' = take (Z.to_nat (historyIndex c + 1)) (history c) ++ [f] /\
      length (history s') = Z.to_nat (historyIndex c + 2)) /\
     historyIndex s' = (Z.of_nat (length (history s')) - 1)%Z /\
     last (history s') = Some f /\
     currentImage s' = Some f).
Proof.
  split; [apply run_ok|]. split; [apply dispatch_ok|].
  split; [|split].
  - intros s. unfold handleUndo, canUndo. now destruct (0 <? historyIndex s)%Z.
  - intros s. unfold handleRedo, canRedo. now destruct (historyIndex s <? _)%Z.
  - intros c f s s'.
    destruct (addImageToHistory_cells c f s) as (Hh & Hi & Hc & Hl). fold s' in Hh, Hi, Hc, Hl.
    split; [exact Hh|]. split; [|now repeat split].
    intros [[Hlo Hhi] _]. rewrite Hh, slice0_take by lia.
    split; [reflexivity|]. rewrite length_app, length_take. cbn [length]. lia.
Qed.

(** What a failed generation leaves: the state at the [await] with the
    error message set and [isLoading] false. *)
Lemma settle_rejected c filePrefix errPrefix onSuccess now err s :
  settle br c filePrefix errPrefix onSuccess now (Rejected err) s
  = setIsLoading false
      (setError (Some (errPrefix +:+ errorMessage err "An unknown error occurred.")) s).
Proof. reflexivity. Qed.

Lemma settle_isLoading c filePrefix errPrefix onSuccess now outcome s :
  isLoading (settle br c filePrefix errPrefix onSuccess now outcome s) = false.
Proof. reflexivity. Qed.

(** C9.  In each of the six generation handlers, when the guards pass and
    the service call rejects, [history] and [historyIndex] are as the
    handler found them; [error] is the failure message, [isLoading] is
    false, and [justPlacedObject] is false - reset by the line before the
    [try] - in every handler but [handlePlaceObject], which leaves it;
    every other cell is as the handler found it.  And however the service
    call settles, [isLoading] is false when the handler finishes. *)
Theorem generation_failure_is_atomic (now : string) s (err : Rejection) :
  let failed (errPrefix : string) (placed : bool) (s' : State num) :=
    history s' = history s /\ historyIndex s' = historyIndex s /\
    error s' = Some (errPrefix +:+ errorMessage err "An unknown error occurred.") /\
    isLoading s' = false /\
    justPlacedObject s' = placed /\
    prompt s' = prompt s /\
    editHotspot s' = editHotspot s /\ displayHotspot s' = displayHotspot s /\
    activeTab s' = activeTab s /\
    placementObject s' = placementObject s /\ placementPrompt s' = placementPrompt s /\
    gridImages s' = gridImages s /\ gridPrompt s' = gridPrompt s /\
    crop s' = crop s /\ completedCrop s' = completedCrop s in
  (forall img p h s1,
     handleGenerate_begin s = Awaits (img, p, h) s1 ->
     (snd (generateEditedImage br fetch img p h) = Rejected err ->
      failed "Failed to generate the image. " false (handleGenerate br fetch now s)) /\
     isLoading (handleGenerate br fetch now s) = false) /\
  (forall filterPrompt img s1,
     handleApplyFilter_begin s = Awaits img s1 ->
     (snd (generateFilteredImage br fetch img filterPrompt) = Rejected err ->
      failed "Failed to apply the filter. " false
             (handleApplyFilter br fetch filterPrompt now s)) /\
     isLoading (handleApplyFilter br fetch filterPrompt now s) = false) /\
  (forall adjustmentPrompt img s1,
     handleApplyAdjustment_begin s = Awaits img s1 ->
     (snd (generateAdjustedImage br fetch img adjustmentPrompt) = Rejected err ->
      failed "Failed to apply the adjustment. " false
             (handleApplyAdjustment br fetch adjustmentPrompt now s)) /\
     isLoading (handleApplyAdjustment br fetch adjustmentPrompt now s) = false) /\
  (forall img obj p h s1,
     handlePlaceObject_begin s = Awaits (img, obj, p, h) s1 ->
     (snd (generatePlacedImage br fetch img obj p h) = Rejected err ->
      failed "Failed to place the object. " (justPlacedObject s)
             (handlePlaceObject br fetch now s)) /\
     isLoading (handlePlaceObject br fetch now s) = false) /\
  (forall imgRef imgs p dims s1,
     handleGenerateGrid_begin imgRef s = Awaits (imgs, p, dims) s1 ->
     (snd (generateFromGrid br fetch imgs p (Some dims)) = Rejected err ->
      failed "Failed to generate from grid. " false
             (handleGenerateGrid br fetch imgRef now s)) /\
     isLoading (handleGenerateGrid br fetch imgRef now s) = false) /\
  (forall direction prompt img s1,
     handleExpandImage_begin s = Awaits img s1 ->
     (snd (generateExpandedImage br fetch img direction prompt) = Rejected err ->
      failed "Failed to expand the image. " false
             (handleExpandImage br fetch direction prompt now s)) /\
     isLoading (handleExpandImage br fetch direction prompt now s) = false).
Proof.
  cbn zeta. repeat split.
  all: try match goal with
           | Hb : ?b = Awaits _ _ |- isLoading ?h = false =>
               unfold handleGenerate, handleApplyFilter, handleApplyAdjustment,
                 handlePlaceObject, handleGenerateGrid, handleExpandImage;
               rewrite Hb; reflexivity
           end.
  all: match goal with
       | Hb : _ = Awaits _ ?s1, Hr : snd _ = Rejected _ |- _ =>
           unfold handleGenerate, handleApplyFilter, handleApplyAdjustment,
             handlePlaceObject, handleGenerateGrid, handleExpandImage;
           try (rewrite Hb, Hr);
           revert Hb;
           unfold handleGenerate_begin, handleApplyFilter_begin,
             handleApplyAdjustment_begin, handlePlaceObject_begin,
             handleGenerateGrid_begin, handleExpandImage_begin;
           repeat match goal with
                  | |- context [match ?x with _ => _ end] =>
                      destruct x eqn:?; try discriminate
                  end;
           intros [= <-]; subst; first [reflexivity | cbn; congruence]
       end.
Qed.

End EditorClaims.

Section EditorExamples.
Import App.

Lemma generation_failure_is_atomic_witness :
  let s' := handleGenerate (sampleBrowser (flatImage 2 4)) offline "1700000000000"
              sampleEditing in
  error s' = Some "Failed to generate the image. Failed to fetch" /\
  history s' = [sampleUpload] /\ historyIndex s' = 0%Z /\ isLoading s' = false.
Proof.
  cbn zeta.
  pose proof (proj1 (proj1 (generation_failure_is_atomic
                 (sampleBrowser (flatImage 2 4)) offline "1700000000000" sampleEditing
                 (ErrorObj "Failed to fetch"))
               sampleUpload "warmer light" {| hx := num_of_Z 1; hy := num_of_Z 3 |}
               (setJustPlacedObject false (loading sampleEditing)) eq_refl) eq_refl)
    as (Hh & Hi & He & Hl & _).
  split; [exact He|]. split; [exact Hh|]. split; [exact Hi|exact Hl].
Defined.

(** C9 fails as written: a failed generation sets more than the error
    message.  After an object was placed ([justPlacedObject] true), a
    retouch that fails leaves [justPlacedObject] false. *)
Lemma failed_generation_resets_justPlacedObject :
  let s := setJustPlacedObject true sampleEditing in
  let s' := handleGenerate (sampleBrowser (flatImage 2 4)) offline "1700000000000" s in
  justPlacedObject s = true /\
  error s' = Some "Failed to generate the image. Failed to fetch" /\
  history s' = history s /\ historyIndex s' = historyIndex s /\
  isLoading s' = false /\
  justPlacedObject s' = false.
Proof. cbn zeta. repeat split. Qed.

End EditorExamples.

(** * Further properties

    The relay request by request, the service functions through it, the
    reach of the hotspot marker, data URLs, and the editor's history,
    hotspot and controls. *)

(** ** The relay, request by request *)

Section RelayBehaviour.
Import Relay.
Context {num : Type}.
Implicit Types (gc : ApiCall num -> Result GenerateContentResponse)
               (env : Env) (req : Request num) (b : RequestBody num).

(** What a case of the [switch] does: it throws before it calls the API, or
    it calls it once and hands the answer to [handleApiResponse]. *)
Lemma served_shape gc ai b r :
  served gc ai b = Some r ->
  (fst r = [] /\ exists e, snd r = Throw e) \/
  (exists parts context,
     fst r = [modelCall ai parts] /\
     snd r = match gc (modelCall ai parts) with
             | Return response => handleApiResponse response context
             | Throw e => Throw e
             end).
Proof.
  unfold served, handleEditRequest, handleFilterRequest, handleAdjustmentRequest,
    handlePlacementRequest, base64ToPart.
  repeat match goal with
         | |- context [if ?c then _ else _] => destruct c
         | |- context [match ?x with _ => _ end] => destruct x
         end;
    intros [= <-];
    first [ left; split; [reflexivity|eexists; reflexivity]
          | right; eexists _, _; split; reflexivity ].
Qed.

Lemma handleApiResponse_any_context response context context' url :
  handleApiResponse response context = Return url ->
  handleApiResponse response context' = Return url.
Proof. rewrite !handleApiResponse_returns. tauto. Qed.

(** X1.  Every run of the handler leaves exactly the three CORS headers on
    [res]; it calls the generative API at most once, and only for a POST
    request under a set key, with the key of the environment, the model
    'gemini-2.5-flash-image-preview' and the modalities IMAGE and TEXT.
    Unless the request is a POST without a body (where destructuring
    [req.body] throws before anything is sent), the run ends the response,
    with a JSON body unless the method is OPTIONS, and with one of the
    statuses 200, 400, 405 and 500. *)
Theorem handler_answers_once gc env req :
  let run := handler gc env req in
  Http.headers (res run) =
    [ ("Access-Control-Allow-Headers", "Content-Type");
      ("Access-Control-Allow-Methods", "POST, OPTIONS");
      ("Access-Control-Allow-Origin", "*") ] /\
  (apiCalls run = [] \/
   exists parts,
     apiCalls run = [modelCall (interpolate (GEMINI_API_KEY env)) parts] /\
     method req = "POST" /\ truthy (GEMINI_API_KEY env) = true) /\
  match uncaught run with
  | Some _ =>
      method req = "POST" /\ body req = None /\
      Http.ended (res run) = false /\ Http.statusCode (res run) = None
  | None =>
      Http.ended (res run) = true /\
      (Http.json (res run) = None <-> method req = "OPTIONS") /\
      (Http.statusCode (res run) = Some 200%Z \/
       Http.statusCode (res run) = Some 400%Z \/
       Http.statusCode (res run) = Some 405%Z \/
       Http.statusCode (res run) = Some 500%Z)
  end.
Proof.
  cbn zeta. split; [now rewrite handler_headers|].
  rewrite handler_cases.
  destruct (String.eqb (method req) "OPTIONS") eqn:Ho.
  { apply String.eqb_eq in Ho. cbn. split; [now left|]. split; [reflexivity|].
    split; [now split|now left]. }
  apply String.eqb_neq in Ho.
  destruct (String.eqb (method req) "POST") eqn:Hp; cbn [negb].
  2:{ cbn. split; [now left|]. split; [reflexivity|]. split; [|now right; right; left].
      split; [discriminate|contradiction]. }
  apply String.eqb_eq in Hp.
  destruct (body req) as [b|] eqn:Hb; [|cbn; split; [now left|]; now repeat split].
  destruct (truthy (GEMINI_API_KEY env)) eqn:Hk; cbn [negb].
  2:{ cbn. split; [now left|]. split; [reflexivity|]. split; [|now right; right; right].
      split; [discriminate|contradiction]. }
  destruct (served gc _ b) as [[calls r]|] eqn:Hs.
  2:{ cbn. split; [now left|]. split; [reflexivity|]. split; [|now right; left].
      split; [discriminate|contradiction]. }
  assert (Hcalls : calls = [] \/
            exists parts, calls = [modelCall (interpolate (GEMINI_API_KEY env)) parts]).
  { destruct (served_shape _ _ _ _ Hs) as [[Hc _]|(parts & context & Hc & _)];
      cbn [fst] in Hc; subst calls; [now left|right; now exists parts]. }
  destruct r as [url|e]; cbn.
  - split; [destruct Hcalls as [->|[parts ->]]; [now left|right; now exists parts]|].
    split; [reflexivity|]. split; [|now left]. split; [discriminate|contradiction].
  - split; [destruct Hcalls as [->|[parts ->]]; [now left|right; now exists parts]|].
    split; [reflexivity|]. split; [|now right; right; right].
    split; [discriminate|contradiction].
Qed.

(** X2.  The handler answers [{ success: true, data: url }] exactly when it
    made one call to the API, the call returned a response, and
    [handleApiResponse] accepts that response with [url] (which it does for
    every context alike).  Such an answer has status 200 and a [data] that
    starts with [data:]; and no other body the handler sends carries
    [success: true]. *)
Theorem handler_success_is_the_model_image gc env req url :
  let run := handler gc env req in
  let ai := interpolate (GEMINI_API_KEY env) in
  (Http.json (res run) = Some (successBody url) <->
   exists parts response,
     apiCalls run = [modelCall ai parts] /\
     gc (modelCall ai parts) = Return response /\
     forall context, handleApiResponse response context = Return url) /\
  (Http.json (res run) = Some (successBody url) ->
   Http.statusCode (res run) = Some 200%Z /\ strip_prefix "data:" url <> None) /\
  (forall j, Http.json (res run) = Some j -> Http.success j = Some true ->
             exists url', j = successBody url').
Proof.
  cbn zeta. rewrite handler_cases.
  destruct (String.eqb (method req) "OPTIONS").
  { cbn. split; [|split]; try discriminate.
    split; [discriminate|]. now intros (? & ? & [=] & _). }
  destruct (negb (String.eqb (method req) "POST")).
  { cbn. split; [|split]; try discriminate.
    - split; [discriminate|]. now intros (? & ? & [=] & _).
    - now intros j [= <-]. }
  destruct (body req) as [b|].
  2:{ cbn. split; [|split]; try discriminate.
      split; [discriminate|]. now intros (? & ? & [=] & _). }
  destruct (negb (truthy (GEMINI_API_KEY env))).
  { cbn. split; [|split]; try discriminate.
    - split; [discriminate|]. now intros (? & ? & [=] & _).
    - now intros j [= <-]. }
  destruct (served gc _ b) as [[calls r]|] eqn:Hs.
  2:{ cbn. split; [|split]; try discriminate.
      - split; [discriminate|]. now intros (? & ? & [=] & _).
      - now intros j [= <-]. }
  apply served_shape in Hs. cbn [fst snd] in Hs.
  assert (Hiff : r = Return url <->
    exists parts response,
      calls = [modelCall (interpolate (GEMINI_API_KEY env)) parts] /\
      gc (modelCall (interpolate (GEMINI_API_KEY env)) parts) = Return response /\
      forall context, handleApiResponse response context = Return url).
  { destruct Hs as [[-> [e ->]]|(parts & context & -> & ->)].
    - split; [discriminate|]. now intros (? & ? & [=] & _).
    - split.
      + destruct (gc _) as [response|e] eqn:Hg; [|discriminate].
        intros Hr. exists parts, response. split; [reflexivity|]. split; [exact Hg|].
        intros context'. now apply handleApiResponse_any_context with context.
      + intros (parts' & response & [= <-] & Hg & Hr). now rewrite Hg. }
  destruct r as [u|e]; cbn [respond res apiCalls Http.send_json Http.status Http.json
                              Http.statusCode].
  - split; [|split].
    + rewrite <- Hiff. split; [now intros [= ->]|now intros [= ->]].
    + intros [= ->]. split; [reflexivity|].
      apply proj1 in Hiff. destruct (Hiff eq_refl) as (_ & response & _ & _ & Hr).
      specialize (Hr ""). apply handleApiResponse_returns in Hr as (_ & _ & i & _ & _ & ->).
      apply dataUrl_prefix.
    + intros j [= <-] _. now exists u.
  - split; [|split]; try discriminate.
    + split; [discriminate|]. intros Hex. apply Hiff in Hex. discriminate.
    + now intros j [= <-].
Qed.

(** X3.  A request of one of the four served types that lacks its image -
    [originalImage] undefined, or for a placement [objectImage] or [hotspot]
    undefined - is answered, under a set key, with status 500 and the error
    'Error interno del servidor' with the thrown message as [details]; the
    API is not called. *)
Theorem handler_missing_image_makes_no_call gc env b :
  truthy (GEMINI_API_KEY env) = true ->
  type b = Some "edit" \/ type b = Some "filter" \/
  type b = Some "adjustment" \/ type b = Some "placement" ->
  originalImage b = None \/
  (type b = Some "placement" /\ (objectImage b = None \/ hotspot b = None)) ->
  let run := handler gc env {| method := "POST"; body := Some b |} in
  Http.statusCode (res run) = Some 500%Z /\
  (exists details,
     Http.json (res run) = Some (errorBody "Error interno del servidor" (Some details))) /\
  apiCalls run = [] /\ uncaught run = None.
Proof.
  intros Hk Ht Hmiss. cbn zeta. rewrite handler_cases. cbn [method body]. rewrite Hk.
  cbn [negb]. unfold served, is_type, handleEditRequest, handleFilterRequest,
    handleAdjustmentRequest, handlePlacementRequest, base64ToPart.
  destruct Hmiss as [Ho|[Hp Hmiss]].
  - rewrite Ho. destruct Ht as [Ht|[Ht|[Ht|Ht]]]; rewrite Ht; cbn;
      (split; [reflexivity|]); (split; [eexists; reflexivity|now split]).
  - rewrite Hp. cbn [String.eqb Ascii.eqb Bool.eqb].
    destruct (originalImage b) as [o|];
      [destruct Hmiss as [Hm|Hm]; rewrite Hm; [|destruct (objectImage b)]|]; cbn;
      (split; [reflexivity|]); (split; [eexists; reflexivity|now split]).
Qed.

(** X4.  What the handler does with a POST request depends on [type],
    [originalImage] and the fields of that type only: [userPrompt] for an
    edit, [filterPrompt] for a filter, [adjustmentPrompt] for an adjustment,
    and [userPrompt], [objectImage] and [hotspot] for a placement.  Two
    bodies that agree on those get the same run - response and API calls.
    In particular the [hotspot] of an edit request is never read. *)
Theorem handler_reads_the_fields_of_its_type gc env b b' :
  type b = type b' ->
  originalImage b = originalImage b' ->
  (type b = Some "edit" -> userPrompt b = userPrompt b') ->
  (type b = Some "filter" -> filterPrompt b = filterPrompt b') ->
  (type b = Some "adjustment" -> adjustmentPrompt b = adjustmentPrompt b') ->
  (type b = Some "placement" ->
   userPrompt b = userPrompt b' /\ objectImage b = objectImage b' /\
   hotspot b = hotspot b') ->
  handler gc env {| method := "POST"; body := Some b |}
  = handler gc env {| method := "POST"; body := Some b' |}.
Proof.
  intros Ht Ho He Hf Ha Hp. rewrite !handler_cases. cbn [method body].
  destruct (negb (truthy (GEMINI_API_KEY env))); [reflexivity|].
  assert (Hs : served gc (interpolate (GEMINI_API_KEY env)) b
               = served gc (interpolate (GEMINI_API_KEY env)) b').
  { unfold served, is_type. rewrite <- Ht, <- Ho.
    destruct (type b) as [t|]; [|reflexivity].
    destruct (String.eqb_spec t "edit") as [->|_]; [now rewrite He|].
    destruct (String.eqb_spec t "filter") as [->|_]; [now rewrite Hf|].
    destruct (String.eqb_spec t "adjustment") as [->|_]; [now rewrite Ha|].
    destruct (String.eqb_spec t "placement") as [->|_]; [|reflexivity].
    destruct (Hp eq_refl) as (-> & -> & ->). reflexivity. }
  now rewrite Hs.
Qed.

(** X5.  The call the relay makes for a request that has its image, under a
    set key: the scene image first, labelled 'image/png' and stripped of its
    data-URL prefix, then for a placement the object image, labelled and
    stripped alike, then the instructions, which carry [userPrompt],
    [filterPrompt] or [adjustmentPrompt] and, for a placement, the two
    coordinates of [hotspot]. *)
Theorem relay_model_call gc env b (image : string) :
  truthy (GEMINI_API_KEY env) = true ->
  originalImage b = Some image ->
  let ai := interpolate (GEMINI_API_KEY env) in
  let run := handler gc env {| method := "POST"; body := Some b |} in
  let scene := inlineDataPart "image/png" (stripDataUrlPrefix image) in
  (type b = Some "edit" ->
   apiCalls run = [modelCall ai [scene; textPart (EditInstructions (userPrompt b))]]) /\
  (type b = Some "filter" ->
   apiCalls run = [modelCall ai [scene; textPart (FilterInstructions (filterPrompt b))]]) /\
  (type b = Some "adjustment" ->
   apiCalls run
   = [modelCall ai [scene; textPart (AdjustmentInstructions (adjustmentPrompt b))]]) /\
  (forall (object : string) (h : Hotspot num),
     type b = Some "placement" -> objectImage b = Some object -> hotspot b = Some h ->
     apiCalls run
     = [modelCall ai [scene; inlineDataPart "image/png" (stripDataUrlPrefix object);
                      textPart (PlacementInstructions (userPrompt b) (hx h) (hy h))]]).
Proof.
  intros Hk Himg. cbn zeta. rewrite handler_cases. cbn [method body]. rewrite Hk.
  cbn [negb]. unfold served, is_type, handleEditRequest, handleFilterRequest,
    handleAdjustmentRequest, handlePlacementRequest, base64ToPart, callModel.
  rewrite Himg.
  split; [|split; [|split]].
  - intros ->. cbn [String.eqb Ascii.eqb Bool.eqb fst snd].
    now destruct (gc _) as [response|e]; [destruct (handleApiResponse response "edit")|].
  - intros ->. cbn [String.eqb Ascii.eqb Bool.eqb fst snd].
    now destruct (gc _) as [response|e]; [destruct (handleApiResponse response "filter")|].
  - intros ->. cbn [String.eqb Ascii.eqb Bool.eqb fst snd].
    now destruct (gc _) as [response|e];
      [destruct (handleApiResponse response "adjustment")|].
  - intros object h -> -> ->. cbn [String.eqb Ascii.eqb Bool.eqb fst snd].
    now destruct (gc _) as [response|e];
      [destruct (handleApiResponse response "placement")|].
Qed.

End RelayBehaviour.

Section RelayBehaviourExamples.
Import Relay.

Lemma handler_missing_image_makes_no_call_witness :
  let run := handler (num:=Z) quotaExceeded {| GEMINI_API_KEY := Some "key" |}
               {| method := "POST";
                  body := Some {| type := Some "edit"; originalImage := None;
                                  userPrompt := Some "add a lamp"; hotspot := None;
                                  filterPrompt := None; adjustmentPrompt := None;
                                  objectImage := None; images := None;
                                  targetDimensions := None; direction := None |} |} in
  Http.statusCode (res run) = Some 500%Z /\ apiCalls run = [].
Proof.
  cbn zeta.
  pose proof (handler_missing_image_makes_no_call (num:=Z) quotaExceeded
                {| GEMINI_API_KEY := Some "key" |}
                {| type := Some "edit"; originalImage := None;
                   userPrompt := Some "add a lamp"; hotspot := None;
                   filterPrompt := None; adjustmentPrompt := None;
                   objectImage := None; images := None;
                   targetDimensions := None; direction := None |}
                eq_refl (or_introl eq_refl) (or_introl eq_refl)) as (Hs & _ & Hc & _).
  split; [exact Hs|exact Hc].
Defined.

Lemma handler_reads_the_fields_of_its_type_witness :
  let edit (h : option (Hotspot Z)) (fp : option string) : Request Z :=
    {| method := "POST";
       body := Some {| type := Some "edit";
                       originalImage := Some "data:image/png;base64,AAAA";
                       userPrompt := Some "add a lamp"; hotspot := h;
                       filterPrompt := fp; adjustmentPrompt := None;
                       objectImage := None; images := None;
                       targetDimensions := None; direction := None |} |} in
  handler quotaExceeded {| GEMINI_API_KEY := Some "key" |} (edit None None)
  = handler quotaExceeded {| GEMINI_API_KEY := Some "key" |}
      (edit (Some {| hx := 3%Z; hy := 5%Z |}) (Some "sepia")).
Proof.
  cbn zeta.
  apply (handler_reads_the_fields_of_its_type (num:=Z) quotaExceeded
           {| GEMINI_API_KEY := Some "key" |}
           {| type := Some "edit"; originalImage := Some "data:image/png;base64,AAAA";
              userPrompt := Some "add a lamp"; hotspot := None;
              filterPrompt := None; adjustmentPrompt := None;
              objectImage := None; images := None;
              targetDimensions := None; direction := None |}
           {| type := Some "edit"; originalImage := Some "data:image/png;base64,AAAA";
              userPrompt := Some "add a lamp"; hotspot := Some {| hx := 3%Z; hy := 5%Z |};
              filterPrompt := Some "sepia"; adjustmentPrompt := None;
              objectImage := None; images := None;
              targetDimensions := None; direction := None |});
    first [reflexivity | discriminate].
Defined.

Lemma relay_model_call_witness :
  apiCalls (handler quotaExceeded {| GEMINI_API_KEY := Some "key" |} sampleFilterRequest)
  = [ modelCall "key" [ inlineDataPart "image/png" "AAAA";
                        textPart (FilterInstructions (Some "sepia")) ] ].
Proof.
  exact (proj1 (proj2 (relay_model_call (num:=Z) quotaExceeded
                         {| GEMINI_API_KEY := Some "key" |}
                         {| type := Some "filter";
                            originalImage := Some "data:image/png;base64,AAAA";
                            userPrompt := None; hotspot := None;
                            filterPrompt := Some "sepia"; adjustmentPrompt := None;
                            objectImage := None; images := None;
                            targetDimensions := None; direction := None |}
                         "data:image/png;base64,AAAA" eq_refl eq_refl))
               eq_refl).
Defined.

End RelayBehaviourExamples.

(** ** Data URLs: written by the relay, read by the relay and the editor *)

Section DataUrls.

Lemma string_cons_app (c : ascii) (a b : string) : String c a +:+ b = String c (a +:+ b).
Proof. reflexivity. Qed.

Lemma string_length_app (a b : string) :
  String.length (a +:+ b) = (String.length a + String.length b)%nat.
Proof.
  induction a as [|c a IH]; [reflexivity|].
  rewrite string_cons_app. cbn [String.length]. now rewrite IH.
Qed.

Lemma skip_lower_app (sub rest : string) :
  forallb is_lower (list_ascii_of_string sub) = true ->
  skip_lower (sub +:+ rest) = skip_lower rest.
Proof.
  induction sub as [|c sub IH]; [reflexivity|].
  cbn [list_ascii_of_string forallb]. intros [Hc Hs]%andb_true_iff.
  rewrite string_cons_app. cbn [skip_lower]. rewrite Hc. now apply IH.
Qed.

Lemma stripDataUrlPrefix_image (subtype data : string) :
  forallb is_lower (list_ascii_of_string subtype) = true ->
  subtype <> "" ->
  stripDataUrlPrefix ("data:image/" +:+ subtype +:+ ";base64," +:+ data) = data.
Proof.
  intros Hl Hn. unfold stripDataUrlPrefix. rewrite strip_prefix_app.
  cbn zeta. rewrite (skip_lower_app _ _ Hl).
  change (skip_lower (";base64," +:+ data)) with (";base64," +:+ data).
  rewrite !string_length_app.
  destruct subtype as [|c sub]; [contradiction|]. cbn [String.length].
  match goal with
  | |- context [(?a <? ?b)%nat] => destruct (Nat.ltb_spec a b); [|lia]
  end.
  now rewrite strip_prefix_app.
Qed.

Lemma strip_prefix_Some (p s rest : string) :
  strip_prefix p s = Some rest -> s = p +:+ rest.
Proof.
  revert s. induction p as [|a p IH]; intros s; [now intros [= ->]|].
  destruct s as [|c s]; [discriminate|]. cbn [strip_prefix].
  destruct (Ascii.eqb_spec a c) as [->|]; [|discriminate].
  intros Hs. rewrite string_cons_app. f_equal. now apply IH.
Qed.

Lemma split_comma_no_comma (s : string) : no_comma s = true -> split_comma s = [s].
Proof.
  unfold no_comma. induction s as [|c s IH]; [reflexivity|].
  cbn [list_ascii_of_string forallb split_comma].
  intros [Hc Hs]%andb_true_iff. apply negb_true_iff in Hc. rewrite Hc, (IH Hs). reflexivity.
Qed.

Lemma split_comma_app (a b : string) :
  no_comma a = true ->
  split_comma (a +:+ String ","%char b) = a :: split_comma b.
Proof.
  unfold no_comma. induction a as [|c a IH]; [reflexivity|].
  cbn [list_ascii_of_string forallb]. intros [Hc Hs]%andb_true_iff.
  apply negb_true_iff in Hc. rewrite string_cons_app. cbn [split_comma].
  now rewrite Hc, (IH Hs).
Qed.

Lemma until_semicolon_app (m rest : string) :
  forallb (fun c => negb (Ascii.eqb c ";"%char) && negb (is_line_terminator c))
          (list_ascii_of_string m) = true ->
  until_semicolon (m +:+ String ";"%char rest) = Some m.
Proof.
  induction m as [|c m IH]; [reflexivity|].
  cbn [list_ascii_of_string forallb]. intros [[Hc Hl]%andb_true_iff Hs]%andb_true_iff.
  apply negb_true_iff in Hc, Hl. rewrite string_cons_app. cbn [until_semicolon].
  now rewrite Hc, Hl, (IH Hs).
Qed.

Lemma plain_mime_parts (m : string) :
  plain_mime m = true ->
  m <> "" /\ no_comma m = true /\
  forallb (fun c => negb (Ascii.eqb c ";"%char) && negb (is_line_terminator c))
          (list_ascii_of_string m) = true.
Proof.
  unfold plain_mime, no_comma. intros [Hn Hall]%andb_true_iff.
  apply negb_true_iff, String.eqb_neq in Hn. split; [exact Hn|].
  clear Hn. induction (list_ascii_of_string m) as [|c l IH]; [now split|].
  cbn [forallb] in *. apply andb_true_iff in Hall as [Hc Hl].
  apply andb_true_iff in Hc as [Hc _].
  apply andb_true_iff in Hc as [Hc H3]. apply andb_true_iff in Hc as [H1 H2].
  destruct (IH Hl) as [-> ->]. now rewrite H1, H2, H3.
Qed.

Lemma no_comma_app (a b : string) :
  no_comma a = true -> no_comma b = true -> no_comma (a +:+ b) = true.
Proof.
  unfold no_comma. intros Ha Hb. induction a as [|c a IH]; [exact Hb|].
  rewrite string_cons_app. cbn [list_ascii_of_string forallb] in *.
  apply andb_true_iff in Ha as [-> Ha]. now apply IH.
Qed.

(** The two parsers split a well-formed data URL alike. *)
Lemma data_url_splits (m d : string) :
  plain_mime m = true -> no_comma d = true ->
  exists arr0,
    split_comma ("data:" +:+ m +:+ ";base64," +:+ d) = [arr0; d] /\
    mimeMatch arr0 = Some m.
Proof.
  intros Hm Hd. destruct (plain_mime_parts m Hm) as (Hn & Hc & Hs).
  exists ("data:" +:+ m +:+ ";base64"). split.
  - assert (E : "data:" +:+ m +:+ ";base64," +:+ d
                = ("data:" +:+ m +:+ ";base64") +:+ String ","%char d).
    { rewrite !string_app_assoc. reflexivity. }
    rewrite E, split_comma_app, (split_comma_no_comma d Hd); [reflexivity|].
    apply (no_comma_app "data:"); [reflexivity|]. now apply no_comma_app.
  - change ("data:" +:+ m +:+ ";base64")
      with (String "d" (String "a" (String "t" (String "a" (String ":" (m +:+ ";base64")))))).
    cbn [mimeMatch Ascii.eqb Bool.eqb].
    change (m +:+ ";base64") with (m +:+ String ";"%char "base64").
    now rewrite until_semicolon_app.
Qed.

Context {num : Type}.
Variable br : Browser num.

(** X6.  [base64ToPart] takes the prefix [data:image/<subtype>;base64,] off
    a data URL whose subtype is one or more lower-case letters, and so off
    the data URLs [handleApiResponse] builds for such an image type; it
    sends a string that does not start with [data:image/] as it is; and
    whatever the string, what it sends is the string itself or what follows
    such a prefix.  The part is labelled with the MIME type it is given,
    not with the one in the URL. *)
Theorem base64ToPart_strips_the_image_prefix (subtype data mimeType : string) :
  forallb is_lower (list_ascii_of_string subtype) = true ->
  negb (String.eqb subtype "") = true ->
  Relay.base64ToPart (num:=num)
    (Some ("data:image/" +:+ subtype +:+ ";base64," +:+ data)) mimeType
    = Relay.Return (Relay.inlineDataPart mimeType data) /\
  Relay.base64ToPart (num:=num)
    (Some (Relay.dataUrl {| Relay.mimeType := Some ("image/" +:+ subtype);
                            Relay.data := Some data |})) mimeType
    = Relay.Return (Relay.inlineDataPart mimeType data) /\
  (forall other : string,
     strip_prefix "data:image/" other = None ->
     Relay.base64ToPart (num:=num) (Some other) mimeType
     = Relay.Return (Relay.inlineDataPart mimeType other)) /\
  (forall base64Data : string,
     exists sent,
       Relay.base64ToPart (num:=num) (Some base64Data) mimeType
       = Relay.Return (Relay.inlineDataPart mimeType sent) /\
       (sent = base64Data \/
        exists sub, base64Data = "data:image/" +:+ sub +:+ ";base64," +:+ sent)).
Proof.
  intros Hl Hn. apply negb_true_iff, String.eqb_neq in Hn.
  split; [|split; [|split]].
  - unfold Relay.base64ToPart. now rewrite stripDataUrlPrefix_image.
  - unfold Relay.base64ToPart, Relay.dataUrl. cbn [interpolate Relay.mimeType Relay.data].
    change ("data:" +:+ ("image/" +:+ subtype) +:+ ";base64," +:+ data)
      with ("data:image/" +:+ subtype +:+ ";base64," +:+ data).
    now rewrite stripDataUrlPrefix_image.
  - intros other Ho. unfold Relay.base64ToPart, stripDataUrlPrefix. now rewrite Ho.
  - intros s. unfold Relay.base64ToPart, stripDataUrlPrefix.
    destruct (strip_prefix "data:image/" s) as [rest|] eqn:Hp;
      [|eexists; split; [reflexivity|now left]].
    cbn zeta. destruct (_ <? _)%nat; [|eexists; split; [reflexivity|now left]].
    destruct (strip_prefix ";base64," (skip_lower rest)) as [data'|] eqn:Hd;
      [|eexists; split; [reflexivity|now left]].
    eexists; split; [reflexivity|]. right.
    apply strip_prefix_Some in Hp, Hd. subst s.
    assert (Hex : exists sub, rest = sub +:+ skip_lower rest).
    { clear. induction rest as [|c rest [sub IH]]; [now exists ""|].
      cbn [skip_lower]. destruct (is_lower c); [|now exists ""].
      exists (String c sub). rewrite string_cons_app. now f_equal. }
    destruct Hex as [sub Hsub]. exists sub. rewrite Hsub at 1. now rewrite Hd.
Qed.

(** X7.  The data URL [handleApiResponse] builds from a MIME type (not
    empty, ASCII, without comma, semicolon or line break) and a payload without a
    comma is [data:<mime>;base64,<payload>], and both parsers read it back:
    [dataURLtoFile] resolves with a file of that MIME type holding the
    decoded payload, under the name it is given, and the earlier
    [fileToPart] resolves with that MIME type and that payload. *)
Theorem data_url_is_read_back (m d filename bstr : string) :
  plain_mime m = true ->
  no_comma d = true ->
  atob br d = Some bstr ->
  let url := Relay.dataUrl {| Relay.mimeType := Some m; Relay.data := Some d |} in
  url = "data:" +:+ m +:+ ";base64," +:+ d /\
  App.dataURLtoFile br (Some url) filename =
    Resolved {| name := filename; type := m; blob := BytesBlob bstr |} /\
  forall file : File num,
    readAsDataURL br file = reader_onload (Some url) ->
    LegacyParts.fileToPart br file =
      Resolved {| LegacyParts.mimeType := m; LegacyParts.data := d |}.
Proof.
  intros Hm Hd Hatob. cbn zeta.
  destruct (data_url_splits m d Hm Hd) as (arr0 & Hsplit & Hmime).
  destruct (plain_mime_parts m Hm) as (Hn & _ & _). apply String.eqb_neq in Hn.
  split; [reflexivity|]. split.
  - unfold App.dataURLtoFile, Relay.dataUrl.
    cbn [interpolate Relay.mimeType Relay.data]. now rewrite Hsplit, Hmime, Hn, Hatob.
  - intros file Hread. unfold LegacyParts.fileToPart, Relay.dataUrl in *.
    cbn [interpolate Relay.mimeType Relay.data] in *. now rewrite Hread, Hsplit, Hmime, Hn.
Qed.

(** X8.  A string without a comma - bare base64, say - is refused by both
    parsers with the error 'Invalid data URL', before [atob] is called. *)
Theorem data_url_without_comma_is_refused (s filename : string) :
  no_comma s = true ->
  App.dataURLtoFile br (Some s) filename = Rejected (ErrorObj "Invalid data URL") /\
  forall file : File num,
    readAsDataURL br file = reader_onload (Some s) ->
    LegacyParts.fileToPart br file = Rejected (ErrorObj "Invalid data URL").
Proof.
  intros Hs. split.
  - unfold App.dataURLtoFile. now rewrite split_comma_no_comma.
  - intros file Hread. unfold LegacyParts.fileToPart.
    now rewrite Hread, split_comma_no_comma.
Qed.

End DataUrls.

Section DataUrlExamples.

Lemma base64ToPart_strips_the_image_prefix_witness :
  Relay.base64ToPart (num:=Z) (Some "data:image/png;base64,AAAA") "image/png"
  = Relay.Return (Relay.inlineDataPart "image/png" "AAAA").
Proof.
  exact (proj1 (base64ToPart_strips_the_image_prefix (num:=Z) "png" "AAAA" "image/png"
                  eq_refl eq_refl)).
Defined.

Lemma data_url_is_read_back_witness :
  App.dataURLtoFile (sampleBrowser (num:=Qc) (flatImage 2 4))
    (Some "data:image/png;base64,AAAA") "edited-1700000000000.png"
  = Resolved {| name := "edited-1700000000000.png"; type := "image/png";
                blob := BytesBlob "AAAA" |}.
Proof.
  exact (proj1 (proj2 (data_url_is_read_back (sampleBrowser (num:=Qc) (flatImage 2 4))
                         "image/png" "AAAA" "edited-1700000000000.png" "AAAA"
                         eq_refl eq_refl eq_refl))).
Defined.

Lemma data_url_without_comma_is_refused_witness :
  App.dataURLtoFile (sampleBrowser (num:=Qc) (flatImage 2 4)) (Some "AAAA") "x.png"
  = Rejected (ErrorObj "Invalid data URL").
Proof.
  exact (proj1 (data_url_without_comma_is_refused (sampleBrowser (num:=Qc) (flatImage 2 4))
                  "AAAA" "x.png" eq_refl)).
Defined.

End DataUrlExamples.

(** ** The service functions and their requests *)

Section ServiceBehaviour.
Context {num : Type} `{JsNumber num}.
Variable br : Browser num.
Variable fetch : FetchCall num -> Promise Fetch.Response.

Lemma postGenerate_sent (b : Relay.RequestBody num) (fallback : string) :
  fst (postGenerate fetch b fallback) = [post b].
Proof. reflexivity. Qed.

Lemma thenCrop_sent (p : Padded num) (r : list (FetchCall num) * Promise (option string)) :
  fst (thenCrop br p r) = fst r.
Proof. now destruct r as [sent [u|e]]. Qed.

Lemma postGenerate_reports (b : Relay.RequestBody num) (fallback : string) :
  match fetch (post b) with
  | Rejected r => snd (postGenerate fetch b fallback) = Rejected r
  | Resolved response =>
      forall j, Fetch.body response = Some j ->
        snd (postGenerate fetch b fallback) =
          if Fetch.ok response then Resolved (Http.data j)
          else Rejected (ErrorObj (js_or (Http.error j) fallback))
  end.
Proof.
  unfold postGenerate, post. cbn [snd].
  destruct (fetch _) as [response|r]; [|reflexivity].
  intros j ->. now destruct (Fetch.ok response).
Qed.

(** X9.  Each of the six service functions sends at most one request: a
    POST to /api/generate whose body carries the function's own [type]
    ('edit', 'filter', 'adjustment', 'placement', 'grid', 'expand'); and
    when it sends none - a file could not be read, decoded, drawn or
    encoded - its promise is rejected. *)
Theorem services_send_one_request
    (originalImage objectImage : File num) (gridImages : list (File num))
    (prompt direction : string) (hotspot : Hotspot num)
    (targetDimensions : option (num * num)) :
  let sends (type : string) (sent : list (FetchCall num)) (rejected : Prop) :=
    (sent = [] /\ rejected) \/
    (exists b, sent = [post b] /\ Relay.type b = Some type) in
  let rejects {A} (p : Promise A) := exists r, p = Rejected r in
  sends "edit"
    (fst (generateEditedImage br fetch originalImage prompt hotspot))
    (rejects (snd (generateEditedImage br fetch originalImage prompt hotspot))) /\
  sends "filter"
    (fst (generateFilteredImage br fetch originalImage prompt))
    (rejects (snd (generateFilteredImage br fetch originalImage prompt))) /\
  sends "adjustment"
    (fst (generateAdjustedImage br fetch originalImage prompt))
    (rejects (snd (generateAdjustedImage br fetch originalImage prompt))) /\
  sends "placement"
    (fst (generatePlacedImage br fetch originalImage objectImage prompt hotspot))
    (rejects (snd (generatePlacedImage br fetch originalImage objectImage prompt hotspot))) /\
  sends "grid"
    (fst (generateFromGrid br fetch gridImages prompt targetDimensions))
    (rejects (snd (generateFromGrid br fetch gridImages prompt targetDimensions))) /\
  sends "expand"
    (fst (generateExpandedImage br fetch originalImage direction prompt))
    (rejects (snd (generateExpandedImage br fetch originalImage direction prompt))).
Proof.
  cbn zeta.
  unfold generateEditedImage, generateFilteredImage, generateAdjustedImage,
    generatePlacedImage, generateFromGrid, generateExpandedImage.
  repeat split.
  all: repeat match goal with
         | |- context [match ?x with Resolved _ => _ | Rejected _ => _ end] =>
             lazymatch x with
             | fetch _ => fail
             | _ => destruct x as [?|?]; [|left; split; [reflexivity|eexists; reflexivity]]
             end
         end.
  all: right; eexists; rewrite ?thenCrop_sent, postGenerate_sent; split; reflexivity.
Qed.

(** X10.  What each service function makes of the answer to the request it
    sent: when [fetch] rejects (the network is down) its promise rejects
    with the same reason; when the response is not ok and its body is JSON,
    its promise rejects with an [Error] whose message is the body's [error]
    if that is a non-empty string, and the function's own fallback text
    otherwise.  The body's [details] are not read. *)
Theorem services_report_the_relay_error
    (originalImage objectImage : File num) (gridImages : list (File num))
    (prompt direction : string) (hotspot : Hotspot num)
    (targetDimensions : option (num * num)) :
  let reports (fallback : string) (sent : list (FetchCall num)) {A} (p : Promise A) :=
    forall call, sent = [call] ->
      match fetch call with
      | Rejected r => p = Rejected r
      | Resolved response =>
          Fetch.ok response = false ->
          forall j, Fetch.body response = Some j ->
            p = Rejected (ErrorObj (js_or (Http.error j) fallback))
      end in
  (let s := generateEditedImage br fetch originalImage prompt hotspot in
   reports "Error en la generación de imagen" (fst s) (snd s)) /\
  (let s := generateFilteredImage br fetch originalImage prompt in
   reports "Error en la generación de filtro" (fst s) (snd s)) /\
  (let s := generateAdjustedImage br fetch originalImage prompt in
   reports "Error en la generación de ajuste" (fst s) (snd s)) /\
  (let s := generatePlacedImage br fetch originalImage objectImage prompt hotspot in
   reports "Error en la colocación de objeto" (fst s) (snd s)) /\
  (let s := generateFromGrid br fetch gridImages prompt targetDimensions in
   reports "Error en la generación de grid" (fst s) (snd s)) /\
  (let s := generateExpandedImage br fetch originalImage direction prompt in
   reports "Error en la expansión de imagen" (fst s) (snd s)).
Proof.
  cbn zeta.
  unfold generateEditedImage, generateFilteredImage, generateAdjustedImage,
    generatePlacedImage, generateFromGrid, generateExpandedImage.
  repeat split.
  all: repeat match goal with
         | |- context [match ?x with Resolved _ => _ | Rejected _ => _ end] =>
             lazymatch x with
             | fetch _ => fail
             | _ => destruct x as [?|?]; [|intros call [=]]
             end
         end.
  all: intros call; rewrite ?thenCrop_sent, postGenerate_sent; intros [= <-].
  all: match goal with
       | |- context [postGenerate fetch ?b ?fb] =>
           pose proof (postGenerate_reports b fb) as Hp;
           destruct (postGenerate fetch b fb) as [sent out]; cbn [snd] in Hp
       end.
  all: destruct (fetch _) as [response|r]; [|subst out; reflexivity].
  all: intros Hok j Hj; specialize (Hp j Hj); rewrite Hok in Hp; subst out; reflexivity.
Qed.

End ServiceBehaviour.

(** ** From the client through the relay to the model and back *)

Section EndToEnd.
Context {num : Type} `{JsNumber num}.
Variable br : Browser num.
Variable env : Relay.Env.
Variable generateContent : Relay.ApiCall num -> Relay.Result Relay.GenerateContentResponse.

(** What the client makes of the relay's answer to a request the relay has a
    case for. *)
Lemma postGenerate_served (b : Relay.RequestBody num) (fallback : string) calls r :
  truthy (Relay.GEMINI_API_KEY env) = true ->
  Relay.served generateContent (interpolate (Relay.GEMINI_API_KEY env)) b = Some (calls, r) ->
  snd (postGenerate (relayFetch env generateContent) b fallback) =
    match r with
    | Relay.Return url => Resolved (Some url)
    | Relay.Throw _ => Rejected (ErrorObj "Error interno del servidor")
    end.
Proof.
  intros Hk Hs. unfold postGenerate, relayFetch. cbn [snd request].
  rewrite handler_cases. cbn [Relay.method Relay.body]. rewrite Hk, Hs.
  now destruct r.
Qed.

(** X11.  [generateFilteredImage] and [generateAdjustedImage] against the
    relay, under a set key, once the image is padded and read as a data
    URL: the model is called with the padded image (its prefix taken off,
    labelled 'image/png') and the instructions carrying the prompt.  If the
    model's response holds an image, the promise is that of
    [cropSquareToOriginal] on the image's data URL with the recorded
    dimensions; if the call fails or [handleApiResponse] throws, the promise
    rejects with the message 'Error interno del servidor' - the relay's
    [error], not the reason it put in [details]. *)
Theorem filter_and_adjustment_through_the_relay
    (originalImage : File num) (prompt : string) (p : Padded num) (imageBase64 : string) :
  truthy (Relay.GEMINI_API_KEY env) = true ->
  padImageToSquare br originalImage = Resolved p ->
  fileToBase64 br (file p) = Resolved (Some imageBase64) ->
  let outcome (instructions : Relay.Prompt num) (context : string) (result : Promise string) :=
    let call :=
      modelCall (interpolate (Relay.GEMINI_API_KEY env))
        [ Relay.inlineDataPart "image/png" (stripDataUrlPrefix imageBase64);
          Relay.textPart instructions ] in
    match generateContent call with
    | Relay.Return response =>
        match Relay.handleApiResponse response context with
        | Relay.Return url =>
            result = cropSquareToOriginal br url (originalWidth p) (originalHeight p)
        | Relay.Throw _ => result = Rejected (ErrorObj "Error interno del servidor")
        end
    | Relay.Throw _ => result = Rejected (ErrorObj "Error interno del servidor")
    end in
  outcome (Relay.FilterInstructions (Some prompt)) "filter"
    (snd (generateFilteredImage br (relayFetch env generateContent) originalImage prompt)) /\
  outcome (Relay.AdjustmentInstructions (Some prompt)) "adjustment"
    (snd (generateAdjustedImage br (relayFetch env generateContent) originalImage prompt)).
Proof.
  intros Hk Hpad Hb64. cbn zeta.
  unfold generateFilteredImage, generateAdjustedImage. rewrite Hpad, Hb64.
  split.
  all: match goal with
       | |- context [postGenerate ?f ?b ?fb] =>
           pose proof (fun calls r => postGenerate_served b fb calls r Hk) as Hp;
           unfold Relay.served, Relay.is_type in Hp;
           cbn [Relay.type Relay.originalImage Relay.filterPrompt Relay.adjustmentPrompt
                String.eqb Ascii.eqb Bool.eqb] in Hp;
           unfold Relay.handleFilterRequest, Relay.handleAdjustmentRequest,
             Relay.base64ToPart, Relay.callModel in Hp;
           specialize (Hp _ _ eq_refl);
           destruct (postGenerate f b fb) as [sent out]; cbn [snd] in Hp; subst out
       end.
  all: unfold modelCall.
  all: destruct (generateContent _) as [response|e]; [|reflexivity].
  all: now destruct (Relay.handleApiResponse response _).
Qed.

End EndToEnd.

Section EndToEndExamples.

Lemma filter_and_adjustment_through_the_relay_witness :
  snd (generateFilteredImage (sampleBrowser (num:=Qc) (flatImage 2 4))
         (relayFetch {| Relay.GEMINI_API_KEY := Some "key" |} quotaExceeded)
         sampleUpload "sepia")
  = Rejected (ErrorObj "Error interno del servidor").
Proof.
  exact (proj1 (filter_and_adjustment_through_the_relay
                  (sampleBrowser (num:=Qc) (flatImage 2 4))
                  {| Relay.GEMINI_API_KEY := Some "key" |} quotaExceeded
                  sampleUpload "sepia"
                  {| file := {| name := "photo.jpg"; type := "image/png";
                                blob := CanvasBlob "image/png" (padCanvas (flatImage 2 4)) |};
                     originalWidth := num_of_Z 2; originalHeight := num_of_Z 4 |}
                  "padded" eq_refl eq_refl eq_refl)).
Defined.

End EndToEndExamples.

(** ** The reach of the hotspot marker *)

Section MoreGeometry.
Local Open Scope Qc_scope.
Context {rasteriser : Smoothing Qc}.

Notation "'zero'" := (num_of_Z (num:=Qc) 0).
Notation "'one'" := (num_of_Z (num:=Qc) 1).
Notation "'two'" := (num_of_Z (num:=Qc) 2).

Lemma Qc_leb_false (a b : Qc) : b < a -> Qc_leb a b = false.
Proof.
  intros Hlt. destruct (Qc_leb a b) eqn:E; [|reflexivity].
  apply Qc_leb_le in E. qc_lra.
Qed.

Lemma Qc_ltb_false (a b : Qc) : b <= a -> Qc_ltb a b = false.
Proof.
  intros Hle. destruct (Qc_ltb a b) eqn:E; [|reflexivity].
  apply Qc_ltb_lt in E. qc_lra.
Qed.

Lemma of_Z_succ_le (i : Z) : num_of_Z (num:=Qc) i <= num_of_Z (i + 1).
Proof. apply Qc_leb_le. rewrite of_Z_le. apply Z.leb_le. lia. Qed.

(** No point of the pixel column [i, i+1] is nearer to c than [nearest]
    says, and one is that near. *)
Lemma nearest_le (c px : Qc) (i : Z) :
  num_of_Z i <= px -> px <= num_of_Z (i + 1) -> nearest c i <= sq (px - c).
Proof.
  intros Hlo Hhi. unfold nearest, sq. qc_ops.
  set (lo := Q2Qc (inject_Z i)) in *. set (hi := Q2Qc (inject_Z (i + 1))) in *.
  clearbody lo hi.
  destruct (Qc_ltb c lo) eqn:E1.
  - apply Qc_ltb_lt in E1. qc_unfold.
    set (P := this px) in *. set (L := this lo) in *. set (C := this c) in *.
    assert (Hp : (0 <= (P - L) * ((P - C) + (L - C)))%Q)
      by (apply Qmult_le_0_compat; lra).
    nra.
  - destruct (Qc_ltb hi c) eqn:E2.
    + apply Qc_ltb_lt in E2. qc_unfold.
      set (P := this px) in *. set (U := this hi) in *. set (C := this c) in *.
      assert (Hp : (0 <= (U - P) * ((C - P) + (C - U)))%Q)
        by (apply Qmult_le_0_compat; lra).
      nra.
    + qc_unfold. generalize (this px + - this c)%Q. intros t. nra.
Qed.

Lemma nearest_attained (c : Qc) (i : Z) :
  exists px : Qc,
    (num_of_Z i <= px /\ px <= num_of_Z (i + 1)) /\ nearest c i = sq (px - c).
Proof.
  pose proof (of_Z_succ_le i) as Hs.
  unfold nearest. qc_ops.
  destruct (Qc_ltb c (Q2Qc (inject_Z i))) eqn:E1.
  - exists (Q2Qc (inject_Z i)). split; [split; [apply Qcle_refl|exact Hs]|reflexivity].
  - destruct (Qc_ltb (Q2Qc (inject_Z (i + 1))) c) eqn:E2.
    + exists (Q2Qc (inject_Z (i + 1))).
      split; [split; [exact Hs|apply Qcle_refl]|]. unfold sq.
      set (hi := Q2Qc (inject_Z (i + 1))). clearbody hi. clear. qc_field.
    + exists c. split.
      * split.
        -- destruct (Qclt_le_dec c (Q2Qc (inject_Z i))) as [Hlt|Hle]; [|exact Hle].
           apply Qc_ltb_lt in Hlt. congruence.
        -- destruct (Qclt_le_dec (Q2Qc (inject_Z (i + 1))) c) as [Hlt|Hle]; [|exact Hle].
           apply Qc_ltb_lt in Hlt. congruence.
      * unfold sq. clear. qc_field.
Qed.

Lemma nearest_le_farthest (c : Qc) (i : Z) : nearest c i <= farthest c i.
Proof.
  pose proof (nearest_le c (num_of_Z i) i (Qcle_refl _) (of_Z_succ_le i)) as Hn.
  unfold farthest. qc_ops.
  destruct (Qc_ltb _ _) eqn:E; [|exact Hn].
  apply Qc_ltb_lt in E. eapply Qcle_trans; [exact Hn|]. now apply Qclt_le_weak.
Qed.

(** What the points of a pixel are at least as far from (x, y) as. *)
Lemma near2_le (x y px py : Qc) (i j : Z) :
  num_of_Z i <= px /\ px <= num_of_Z (i + 1) ->
  num_of_Z j <= py /\ py <= num_of_Z (j + 1) ->
  near2 x y i j <= sq (px - x) + sq (py - y).
Proof.
  intros [Hx0 Hx1] [Hy0 Hy1]. unfold near2. qc_ops.
  apply Qcplus_le_compat; now apply nearest_le.
Qed.

Lemma near2_le_far2 (x y : Qc) (i j : Z) : near2 x y i j <= far2 x y i j.
Proof.
  unfold near2, far2. qc_ops. apply Qcplus_le_compat; apply nearest_le_farthest.
Qed.

Lemma imageOver_clear (c : Colour) : imageOver c Transparent = c.
Proof. now destruct c. Qed.

Lemma radius_facts (w h : Qc) :
  zero <= w -> zero <= h ->
  let radius := (Math_min w h * c_0_015)%js in
  zero <= radius /\ (radius * num_of_Z 1000 = num_of_Z 15 * Math_min w h)%js.
Proof.
  intros Hw Hh radius.
  assert (Hmin : zero <= Math_min w h).
  { qc_ops. destruct (Qc_ltb h w); assumption. }
  assert (Hc : (c_0_015 (num:=Qc) * num_of_Z 1000 = num_of_Z 15)%js).
  { apply Qc_is_canon. vm_compute. reflexivity. }
  assert (Hr1000 : (radius * num_of_Z 1000 = num_of_Z 15 * Math_min w h)%js).
  { subst radius. set (m := Math_min w h) in *. clearbody m. qc_ops.
    rewrite <- Qcmult_assoc. qc_ops. cbn [nmul num_of_Z Qc_number] in Hc. rewrite Hc.
    apply Qcmult_comm. }
  split; [|exact Hr1000].
  set (m := Math_min w h) in *. clearbody m radius.
  clear Hc. qc_ops. qc_eq_hyps. qc_unfold.
  change (inject_Z 1000) with (1000 # 1)%Q in *.
  change (inject_Z 15) with (15 # 1)%Q in *. lra.
Qed.

(** X13.  The marker [drawHotspotOnImage] draws is local.  For an image of
    n x m pixels the marked canvas has the image's size; the marker's radius
    is 1.5% of the smaller dimension and is not negative; and a pixel
    whose every point is at least the radius plus two from the hotspot
    (one more than the radius plus half the line width of the border)
    holds the image's own pixel. *)
Theorem hotspot_marker_is_local (img : Bitmap Qc) (hotspot : Hotspot Qc) (n m i j : Z) :
  let w := naturalWidth img in
  let h := naturalHeight img in
  let radius := (Math_min w h * c_0_015)%js in
  w = num_of_Z n -> h = num_of_Z m ->
  (0 <= i < n)%Z -> (0 <= j < m)%Z ->
  (forall px py : Qc,
     num_of_Z i <= px /\ px <= num_of_Z (i + 1) ->
     num_of_Z j <= py /\ py <= num_of_Z (j + 1) ->
     sq (radius + two) <= sq (px - hx hotspot) + sq (py - hy hotspot)) ->
  width (hotspotCanvas img hotspot) = w /\ height (hotspotCanvas img hotspot) = h /\
  zero <= radius /\ (radius * num_of_Z 1000 = num_of_Z 15 * Math_min w h)%js /\
  render (hotspotCanvas img hotspot) i j = colourAt img i j.
Proof.
  intros w h radius Hw Hh Hi Hj Hfar.
  split; [reflexivity|]. split; [reflexivity|].
  assert (Hw0 : zero <= w).
  { rewrite Hw. apply Qc_leb_le. rewrite of_Z_le. apply Z.leb_le. lia. }
  assert (Hh0 : zero <= h).
  { rewrite Hh. apply Qc_leb_le. rewrite of_Z_le. apply Z.leb_le. lia. }
  destruct (radius_facts w h Hw0 Hh0) as [Hr Hr1000]. fold radius in Hr, Hr1000.
  split; [exact Hr|]. split; [exact Hr1000|].
  (* the pixel is beyond the marker *)
  assert (Hnear : sq (radius + two) <= near2 (hx hotspot) (hy hotspot) i j).
  { destruct (nearest_attained (hx hotspot) i) as (px & Hpx & Ex).
    destruct (nearest_attained (hy hotspot) j) as (py & Hpy & Ey).
    unfold near2. rewrite Ex, Ey. exact (Hfar px py Hpx Hpy). }
  pose proof (near2_le_far2 (hx hotspot) (hy hotspot) i j) as Hnf.
  unfold render. rewrite (inCanvas_inside _ n m) by (assumption || lia).
  unfold hotspotCanvas. cbn [ops fold_left]. fold w h radius.
  assert (Hcopy : paint (drawImage3 img zero zero) Transparent i j = colourAt img i j).
  { cbn [paint]. fold w h.
    rewrite (blit_copy _ img w h 0 0 0 0 n m) by (assumption || lia).
    rewrite (inPixels_true 0 0) by lia.
    rewrite !Z.sub_0_r, !Z.add_0_r, imageOver_clear.
    now apply (pixel_inside img n m). }
  rewrite Hcopy. cbn [paint].
  set (n2 := near2 (hx hotspot) (hy hotspot) i j) in *.
  set (f2 := far2 (hx hotspot) (hy hotspot) i j) in *.
  assert (Ehalf : (two / two)%js = one :> Qc) by (apply Qc_is_canon; reflexivity).
  rewrite Ehalf. clearbody n2 f2 radius. unfold sq in *. qc_ops.
  assert (H1 : Qc_leb f2 (radius * radius) = false).
  { apply Qc_leb_false. clear Hr1000 Hcopy. qc_unfold. nra. }
  assert (H2 : Qc_leb (radius * radius) n2 = true).
  { apply Qc_leb_le. clear Hr1000 Hcopy. qc_unfold. nra. }
  assert (H3 : Qc_leb f2 ((radius + Q2Qc (inject_Z 1)) * (radius + Q2Qc (inject_Z 1))) = false).
  { apply Qc_leb_false. clear Hr1000 Hcopy. qc_unfold.
    change (inject_Z 1) with (1 # 1)%Q in *. nra. }
  assert (H4 : Qc_leb ((radius + Q2Qc (inject_Z 1)) * (radius + Q2Qc (inject_Z 1))) n2 = true).
  { apply Qc_leb_le. clear Hr1000 Hcopy. qc_unfold.
    change (inject_Z 1) with (1 # 1)%Q in *. nra. }
  now rewrite H1, H2, H3, H4, !andb_false_r, !orb_true_r.
Qed.

End MoreGeometry.

Section MoreGeometryExamples.
Local Open Scope Qc_scope.

Lemma hotspot_marker_is_local_witness :
  render (hotspotCanvas (flatImage (num:=Qc) 200 100)
            {| hx := num_of_Z 50; hy := num_of_Z 50 |}) 150 50
  = Texel 7.
Proof.
  refine (proj2 (proj2 (proj2 (proj2
    (hotspot_marker_is_local (flatImage 200 100) {| hx := num_of_Z 50; hy := num_of_Z 50 |}
       200 100 150 50 eq_refl eq_refl ltac:(lia) ltac:(lia) _))))).
  intros px py Hpx Hpy.
  eapply Qcle_trans; [|exact (near2_le _ _ px py 150 50 Hpx Hpy)].
  vm_compute. discriminate.
Defined.

End MoreGeometryExamples.

(** ** The editor: history, hotspots, outcomes and controls *)

Section HistoryBehaviour.
Import App.
Context {num : Type} `{JsNumber num}.
Variable br : Browser num.
Variable fetch : FetchCall num -> Promise Fetch.Response.

Implicit Types (s c : State num) (f : File num).

Lemma js_index_Some {A} (l : list A) (i : Z) :
  (0 <= i < Z.of_nat (length l))%Z -> is_Some (js_index l i).
Proof.
  intros Hi. unfold js_index. destruct (Z.leb_spec 0 i); [|lia].
  apply lookup_lt_is_Some. lia.
Qed.

Lemma js_index_None {A} (l : list A) (i : Z) :
  js_index l i = None <-> (i < 0 \/ Z.of_nat (length l) <= i)%Z.
Proof.
  unfold js_index. destruct (Z.leb_spec 0 i).
  - rewrite lookup_ge_None. lia.
  - split; [lia|reflexivity].
Qed.

Lemma currentImage_None s :
  history_ok s -> (currentImage s = None <-> history s = []).
Proof.
  intros [Hr He]. unfold currentImage. rewrite js_index_None. split.
  - intros [Hlt|Hge]; [apply He; lia|lia].
  - intros E. apply He in E. lia.
Qed.

Lemma handleRedo_handleUndo s :
  history_ok s -> canUndo s = true ->
  canRedo (handleUndo s) = true /\
  history (handleRedo (handleUndo s)) = history s /\
  historyIndex (handleRedo (handleUndo s)) = historyIndex s /\
  currentImage (handleRedo (handleUndo s)) = currentImage s.
Proof.
  intros [Hr He] Hu. unfold handleUndo. rewrite Hu.
  unfold canUndo in Hu. apply Z.ltb_lt in Hu.
  assert (Hc : canRedo (setJustPlacedObject false
                 (setDisplayHotspot None
                    (setEditHotspot None (setHistoryIndex (historyIndex s - 1) s)))) = true).
  { unfold canRedo. cbn. apply Z.ltb_lt. lia. }
  split; [exact Hc|]. unfold handleRedo. rewrite Hc. unfold currentImage. cbn.
  replace (historyIndex s - 1 + 1)%Z with (historyIndex s) by lia. now repeat split.
Qed.

(** X14.  Undo and redo are inverse on the history cells.  When the
    history cells are in order and undo is possible, undo then redo leaves
    [history], [historyIndex] and the current image as they were (redo is
    possible after an undo); and when redo is possible, redo then undo does.
    (The hotspots, and after an undo [justPlacedObject], stay cleared.) *)
Theorem undo_redo_round_trip s :
  history_ok s ->
  (canUndo s = true ->
   canRedo (handleUndo s) = true /\
   history (handleRedo (handleUndo s)) = history s /\
   historyIndex (handleRedo (handleUndo s)) = historyIndex s /\
   currentImage (handleRedo (handleUndo s)) = currentImage s) /\
  (canRedo s = true ->
   canUndo (handleRedo s) = true /\
   history (handleUndo (handleRedo s)) = history s /\
   historyIndex (handleUndo (handleRedo s)) = historyIndex s /\
   currentImage (handleUndo (handleRedo s)) = currentImage s).
Proof.
  intros Hok. split; [now apply handleRedo_handleUndo|].
  destruct Hok as [Hr He].
  - intros Hd. unfold handleRedo. rewrite Hd.
    unfold canRedo in Hd. apply Z.ltb_lt in Hd.
    assert (Hi : (0 <= historyIndex s)%Z).
    { destruct (Z.eq_dec (historyIndex s) (-1)%Z) as [E|]; [|lia].
      apply He in E. rewrite E in Hd. cbn in Hd. lia. }
    assert (Hc : canUndo (setDisplayHotspot None
                   (setEditHotspot None (setHistoryIndex (historyIndex s + 1) s))) = true).
    { unfold canUndo. cbn. apply Z.ltb_lt. lia. }
    split; [exact Hc|]. unfold handleUndo. rewrite Hc. unfold currentImage. cbn.
    replace (historyIndex s + 1 - 1)%Z with (historyIndex s) by lia. now repeat split.
Qed.

(** X15.  After an edit of the current image - [addImageToHistory] from a
    render whose cells are in order - the new image is current, there is
    nothing to redo and there is something to undo; undo shows the image
    that was edited, redo after it the new image again; and the entries up
    to the edited one, the original image among them, are kept. *)
Theorem undo_returns_to_the_edited_image s f img :
  history_ok s ->
  currentImage s = Some img ->
  let s1 := addImageToHistory s f s in
  currentImage s1 = Some f /\
  canRedo s1 = false /\ canUndo s1 = true /\
  currentImage (handleUndo s1) = Some img /\
  currentImage (handleRedo (handleUndo s1)) = Some f /\
  originalImage s1 = originalImage s /\
  (forall i, (0 <= i <= historyIndex s)%Z ->
             js_index (history s1) i = js_index (history s) i).
Proof.
  intros [Hr He] Hcur s1.
  assert (Hi : (0 <= historyIndex s < Z.of_nat (length (history s)))%Z).
  { unfold currentImage in Hcur.
    destruct (js_index_None (history s) (historyIndex s)) as [_ Hn].
    split; [|lia]. destruct (Z.leb_spec 0 (historyIndex s)); [lia|].
    rewrite Hn in Hcur by lia. discriminate. }
  destruct (addImageToHistory_cells s f s) as (Hh & Hidx & Hc & _). fold s1 in Hh, Hidx, Hc.
  rewrite slice0_take in Hh by lia.
  assert (Hlen : length (history s1) = Z.to_nat (historyIndex s + 2)).
  { rewrite Hh, length_app, length_take. cbn [length]. lia. }
  assert (Hkeep : forall i, (0 <= i <= historyIndex s)%Z ->
                    js_index (history s1) i = js_index (history s) i).
  { intros i Hi'. unfold js_index. destruct (Z.leb_spec 0 i); [|lia].
    rewrite Hh, lookup_app_l by (rewrite length_take; lia).
    apply lookup_take_lt. lia. }
  pose proof (addImageToHistory_ok s f s) as Hok1. fold s1 in Hok1. clearbody s1.
  assert (Hundo : canUndo s1 = true).
  { unfold canUndo. apply Z.ltb_lt. lia. }
  split; [exact Hc|].
  split; [unfold canRedo; apply Z.ltb_ge; lia|].
  split; [exact Hundo|].
  assert (Hu : historyIndex (handleUndo s1) = historyIndex s /\
               history (handleUndo s1) = history s1).
  { unfold handleUndo. rewrite Hundo. cbn. split; [lia|reflexivity]. }
  destruct Hu as [Hui Huh].
  split.
  { unfold currentImage. rewrite Hui, Huh, Hkeep by lia. exact Hcur. }
  split.
  { destruct (handleRedo_handleUndo s1 Hok1 Hundo) as (_ & _ & _ & ->). exact Hc. }
  split; [apply Hkeep; lia|exact Hkeep].
Qed.

(** X16.  After every sequence of events the editor has a current image
    exactly when its history is not empty, and an original image likewise;
    when undo (redo) is enabled, the state it leads to has a current image;
    and with an empty history neither is enabled. *)
Theorem editor_shows_an_image (events : list (Event num)) :
  let s := run br fetch events in
  (currentImage s = None <-> history s = []) /\
  (originalImage s = None <-> history s = []) /\
  (canUndo s = true -> is_Some (currentImage (handleUndo s))) /\
  (canRedo s = true -> is_Some (currentImage (handleRedo s))) /\
  (history s = [] -> canUndo s = false /\ canRedo s = false).
Proof.
  cbn zeta. pose proof (run_ok br fetch events) as Hok.
  set (s := run br fetch events) in *. clearbody s.
  split; [now apply currentImage_None|].
  destruct Hok as [Hr He].
  split.
  { unfold originalImage. rewrite js_index_None. split.
    - intros [Hlt|Hge]; [lia|]. destruct (history s); [reflexivity|cbn in Hge; lia].
    - intros ->. cbn. lia. }
  split.
  { intros Hu. unfold handleUndo. rewrite Hu. unfold canUndo in Hu. apply Z.ltb_lt in Hu.
    unfold currentImage. cbn. apply js_index_Some. lia. }
  split.
  { intros Hd. unfold handleRedo. rewrite Hd. unfold canRedo in Hd. apply Z.ltb_lt in Hd.
    unfold currentImage. cbn. apply js_index_Some. lia. }
  intros E. pose proof (proj2 He E) as Hi. unfold canUndo, canRedo. rewrite Hi, E. now cbn.
Qed.

Lemma iter_handleUndo (n : nat) s :
  (Z.of_nat n <= historyIndex s)%Z ->
  history (Nat.iter n handleUndo s) = history s /\
  historyIndex (Nat.iter n handleUndo s) = (historyIndex s - Z.of_nat n)%Z.
Proof.
  induction n as [|n IH]; intros Hn; [cbn; split; [reflexivity|lia]|].
  destruct IH as [Hh Hi]; [lia|].
  change (Nat.iter (S n) handleUndo s) with (handleUndo (Nat.iter n handleUndo s)).
  set (t := Nat.iter n handleUndo s) in *. clearbody t.
  unfold handleUndo, canUndo. rewrite Hi.
  destruct (Z.ltb_spec 0 (historyIndex s - Z.of_nat n)); [|lia].
  cbn. rewrite Hh. split; [reflexivity|lia].
Qed.

(** X17.  With a history that is in order and not empty, reset keeps the
    entries and moves to index 0, which is where undoing [historyIndex]
    times arrives; the current image is then the original one, nothing is
    left to undo, and the error message is cleared. *)
Theorem reset_is_undo_to_the_start s :
  history_ok s ->
  history s <> [] ->
  let undone := Nat.iter (Z.to_nat (historyIndex s)) handleUndo s in
  history (handleReset s) = history s /\
  historyIndex (handleReset s) = 0%Z /\
  history undone = history (handleReset s) /\
  historyIndex undone = historyIndex (handleReset s) /\
  currentImage (handleReset s) = originalImage s /\
  canUndo (handleReset s) = false /\
  error (handleReset s) = None.
Proof.
  intros [Hr He] Hne undone.
  assert (Hi : (0 <= historyIndex s)%Z).
  { destruct (Z.eq_dec (historyIndex s) (-1)%Z) as [E|]; [|lia]. now apply He in E. }
  destruct (iter_handleUndo (Z.to_nat (historyIndex s)) s) as [Hh Hidx]; [lia|].
  fold undone in Hh, Hidx.
  unfold handleReset. destruct (Z.ltb_spec 0 (Z.of_nat (length (history s)))); [|lia].
  cbn. unfold currentImage, originalImage. cbn. repeat split; try assumption. lia.
Qed.

End HistoryBehaviour.

Section HotspotBehaviour.
Import App.
Context {num : Type} `{JsNumber num}.
Variable br : Browser num.
Variable fetch : FetchCall num -> Promise Fetch.Response.

Implicit Types (s c : State num) (f : File num).

Lemma hotspot_ok_frame s s' :
  editHotspot s' = editHotspot s -> displayHotspot s' = displayHotspot s ->
  activeTab s' = activeTab s ->
  hotspot_ok s -> hotspot_ok s'.
Proof. unfold hotspot_ok. now intros -> -> ->. Qed.

Lemma hotspot_ok_cleared s :
  editHotspot s = None -> displayHotspot s = None -> hotspot_ok s.
Proof.
  unfold hotspot_ok. intros -> ->. split; [tauto|]. now intros [? [=]].
Qed.

Lemma settle_hotspot_ok c filePrefix errPrefix onSuccess now outcome s :
  (forall s0, editHotspot (onSuccess s0) = editHotspot s0 /\
              displayHotspot (onSuccess s0) = displayHotspot s0) ->
  hotspot_ok s ->
  hotspot_ok (settle br c filePrefix errPrefix onSuccess now outcome s).
Proof.
  intros Hsucc Hok. unfold settle.
  destruct outcome as [imageUrl|err]; [|now apply (hotspot_ok_frame s)].
  destruct (dataURLtoFile br imageUrl _) as [newImageFile|err];
    [|now apply (hotspot_ok_frame s)].
  destruct (Hsucc (addImageToHistory c newImageFile s)) as [He Hd].
  apply hotspot_ok_cleared; cbn [editHotspot displayHotspot setIsLoading];
    [rewrite He|rewrite Hd]; reflexivity.
Qed.

Lemma hotspot_dispatch s (e : Event num) :
  hotspot_ok s -> hotspot_ok (dispatch br fetch s e).
Proof.
  intros Hok.
  assert (Hframe : forall s', editHotspot s' = editHotspot s ->
                              displayHotspot s' = displayHotspot s ->
                              activeTab s' = activeTab s -> hotspot_ok s')
    by (intros s' He Hd Ht; now apply (hotspot_ok_frame s s')).
  destruct e; cbn [dispatch].
  - (* ImageUpload *) now apply hotspot_ok_cleared.
  - unfold handleGenerate, handleGenerate_begin.
    destruct (currentImage s); [|now apply Hframe].
    destruct (String.eqb _ _); [now apply Hframe|].
    destruct (editHotspot s) eqn:E; [|now apply Hframe].
    apply settle_hotspot_ok; [now intros|apply Hframe; cbn; congruence].
  - unfold handleApplyFilter, handleApplyFilter_begin.
    destruct (currentImage s); [|now apply Hframe].
    apply settle_hotspot_ok; [now intros|now apply Hframe].
  - unfold handleApplyAdjustment, handleApplyAdjustment_begin.
    destruct (currentImage s); [|now apply Hframe].
    apply settle_hotspot_ok; [now intros|now apply Hframe].
  - unfold handlePlaceObject, handlePlaceObject_begin.
    destruct (currentImage s); [|now apply Hframe].
    destruct (placementObject s); [|now apply Hframe].
    destruct (editHotspot s) eqn:E; [|now apply Hframe].
    destruct (String.eqb _ _); [now apply Hframe|].
    apply settle_hotspot_ok; [now intros|apply Hframe; cbn; congruence].
  - unfold handleGenerateGrid, handleGenerateGrid_begin.
    destruct (gridImages s); [now apply Hframe|].
    destruct (String.eqb _ _); [now apply Hframe|].
    destruct imgRef; [|now apply Hframe].
    apply settle_hotspot_ok; [now intros|now apply Hframe].
  - unfold handleExpandImage, handleExpandImage_begin.
    destruct (currentImage s); [|now apply Hframe].
    apply settle_hotspot_ok; [now intros|now apply Hframe].
  - unfold handleApplyCrop.
    destruct (completedCrop s); [|now apply Hframe].
    destruct imgRef; [|now apply Hframe].
    destruct (negb _); [now apply Hframe|].
    destruct (dataURLtoFile _ _ _); [|now apply Hframe].
    now apply hotspot_ok_cleared.
  - unfold handleUndo. destruct (canUndo s); [now apply hotspot_ok_cleared|exact Hok].
  - unfold handleRedo. destruct (canRedo s); [now apply hotspot_ok_cleared|exact Hok].
  - unfold handleReset. destruct (_ <? _)%Z; [now apply hotspot_ok_cleared|exact Hok].
  - now apply hotspot_ok_cleared.
  - unfold handleStartGridMode. destruct placeholder;
      [now apply hotspot_ok_cleared|now apply Hframe].
  - unfold handleImageClick. destruct (activeTab s) eqn:Et; try exact Hok.
    + split; [now split|]. intros _. left. exact Et.
    + split; [now split|]. intros _. right. exact Et.
  - unfold handleTabChange. destruct (negb (tab_eqb (activeTab s) tab)); [|exact Hok].
    destruct (negb (tab_eqb tab Tab.place)); now apply hotspot_ok_cleared.
  - now apply Hframe.
  - now apply Hframe.
  - now apply Hframe.
  - now apply Hframe.
  - now apply Hframe.
  - now apply Hframe.
  - now apply Hframe.
  - now apply Hframe.
  - unfold handleGenerate_begin.
    destruct (currentImage s); [|now apply Hframe].
    destruct (String.eqb _ _); [now apply Hframe|].
    destruct (editHotspot s) eqn:E; apply Hframe; cbn; congruence.
  - unfold handleApplyFilter_begin. destruct (currentImage s); now apply Hframe.
  - unfold handleApplyAdjustment_begin. destruct (currentImage s); now apply Hframe.
  - unfold handlePlaceObject_begin.
    destruct (currentImage s); [|now apply Hframe].
    destruct (placementObject s); [|now apply Hframe].
    destruct (editHotspot s) eqn:E; [|now apply Hframe].
    destruct (String.eqb _ _); apply Hframe; cbn; congruence.
  - unfold handleGenerateGrid_begin.
    destruct (gridImages s); [now apply Hframe|].
    destruct (String.eqb _ _); [now apply Hframe|].
    destruct imgRef; now apply Hframe.
  - unfold handleExpandImage_begin. destruct (currentImage s); now apply Hframe.
  - apply settle_hotspot_ok; [now intros|exact Hok].
  - apply settle_hotspot_ok; [now intros|exact Hok].
  - apply settle_hotspot_ok; [now intros|exact Hok].
  - apply settle_hotspot_ok; [now intros|exact Hok].
  - apply settle_hotspot_ok; [now intros|exact Hok].
  - apply settle_hotspot_ok; [now intros|exact Hok].
Qed.

(** X18.  After every sequence of events [editHotspot] and
    [displayHotspot] are both set or both null, and they are set on the
    retouch and place tabs only; every single event keeps that. *)
Theorem hotspot_only_on_retouch_and_place (events : list (Event num)) :
  let s := run br fetch events in
  (editHotspot s = None <-> displayHotspot s = None) /\
  (is_Some (editHotspot s) -> activeTab s = Tab.retouch \/ activeTab s = Tab.place) /\
  (forall s0 (e : Event num), hotspot_ok s0 -> hotspot_ok (dispatch br fetch s0 e)).
Proof.
  cbn zeta.
  assert (Hrun : hotspot_ok (run br fetch events)).
  { unfold run. assert (H0 : hotspot_ok (initial (num:=num))) by now apply hotspot_ok_cleared.
    revert H0. generalize (initial (num:=num)).
    induction events as [|e events IH]; intros s Hok; cbn [fold_left]; [exact Hok|].
    apply IH. now apply hotspot_dispatch. }
  destruct Hrun as [Hiff Htab]. split; [exact Hiff|]. split; [exact Htab|].
  intros s0 e. apply hotspot_dispatch.
Qed.

End HotspotBehaviour.

Section OutcomeBehaviour.
Import App.
Context {num : Type} `{JsNumber num}.
Variable br : Browser num.
Variable fetch : FetchCall num -> Promise Fetch.Response.

Implicit Types (s c : State num) (f : File num).

Lemma dataURLtoFile_name dataurl filename f :
  dataURLtoFile br dataurl filename = Resolved f -> name f = filename.
Proof.
  unfold dataURLtoFile.
  repeat match goal with
         | |- context [match ?x with _ => _ end] => destruct x; try discriminate
         end.
  now intros [= <-].
Qed.

(** The cells after a successful generation: what [addImageToHistory] did,
    seen from a render whose history cells are in order. *)
Lemma appended_cells s f (s' : State num) :
  history_ok s ->
  history s' = slice0 (history s) (historyIndex s + 1) ++ [f] ->
  historyIndex s' = (Z.of_nat (length (history s')) - 1)%Z ->
  history s' = take (Z.to_nat (historyIndex s + 1)) (history s) ++ [f] /\
  historyIndex s' = (historyIndex s + 1)%Z /\
  currentImage s' = Some f /\ canRedo s' = false.
Proof.
  intros [Hr He] Hh Hi.
  rewrite slice0_take in Hh by lia.
  assert (Hlen : length (history s') = Z.to_nat (historyIndex s + 2)).
  { rewrite Hh, length_app, length_take. cbn [length]. lia. }
  split; [exact Hh|]. split; [lia|].
  split; [|unfold canRedo; apply Z.ltb_ge; lia].
  unfold currentImage, js_index. destruct (Z.leb_spec 0 (historyIndex s')); [|lia].
  rewrite Hh, lookup_app_r by (rewrite length_take; lia).
  rewrite length_take.
  replace (Z.to_nat (historyIndex s') - Z.to_nat (historyIndex s + 1) `min` length (history s))%nat
    with 0%nat by lia. reflexivity.
Qed.

(** X19.  In each of the six generation handlers, from a render whose
    history cells are in order: when the guards pass, the service call
    resolves with a URL and [dataURLtoFile] reads it, the handler ends with
    the new file - named by the handler's prefix, the time and '.png' -
    appended after the current entry, the later entries dropped, the new
    file current, nothing to redo, [isLoading] false, no error, and the
    hotspots and crops cleared.  [justPlacedObject] ends true after a
    placement and false otherwise; a grid generation also returns to the
    retouch tab and empties the grid's images and prompt. *)
Theorem generation_success_appends (now url : string) s :
  history_ok s ->
  (forall filename, exists f, dataURLtoFile br (Some url) filename = Resolved f) ->
  let appended (filePrefix : string) (s' : State num) :=
    exists f,
      dataURLtoFile br (Some url) (filePrefix +:+ now +:+ ".png") = Resolved f /\
      name f = filePrefix +:+ now +:+ ".png" /\
      history s' = take (Z.to_nat (historyIndex s + 1)) (history s) ++ [f] /\
      historyIndex s' = (historyIndex s + 1)%Z /\
      currentImage s' = Some f /\ canRedo s' = false /\
      isLoading s' = false /\ error s' = None /\
      editHotspot s' = None /\ displayHotspot s' = None /\
      crop s' = None /\ completedCrop s' = None in
  (forall img p h s1,
     handleGenerate_begin s = Awaits (img, p, h) s1 ->
     snd (generateEditedImage br fetch img p h) = Resolved url ->
     appended "edited-" (handleGenerate br fetch now s) /\
     justPlacedObject (handleGenerate br fetch now s) = false) /\
  (forall filterPrompt img s1,
     handleApplyFilter_begin s = Awaits img s1 ->
     snd (generateFilteredImage br fetch img filterPrompt) = Resolved url ->
     appended "filtered-" (handleApplyFilter br fetch filterPrompt now s) /\
     justPlacedObject (handleApplyFilter br fetch filterPrompt now s) = false) /\
  (forall adjustmentPrompt img s1,
     handleApplyAdjustment_begin s = Awaits img s1 ->
     snd (generateAdjustedImage br fetch img adjustmentPrompt) = Resolved url ->
     appended "adjusted-" (handleApplyAdjustment br fetch adjustmentPrompt now s) /\
     justPlacedObject (handleApplyAdjustment br fetch adjustmentPrompt now s) = false) /\
  (forall img obj p h s1,
     handlePlaceObject_begin s = Awaits (img, obj, p, h) s1 ->
     snd (generatePlacedImage br fetch img obj p h) = Resolved url ->
     appended "placed-" (handlePlaceObject br fetch now s) /\
     justPlacedObject (handlePlaceObject br fetch now s) = true) /\
  (forall imgRef imgs p dims s1,
     handleGenerateGrid_begin imgRef s = Awaits (imgs, p, dims) s1 ->
     snd (generateFromGrid br fetch imgs p (Some dims)) = Resolved (Some url) ->
     appended "grid-generated-" (handleGenerateGrid br fetch imgRef now s) /\
     justPlacedObject (handleGenerateGrid br fetch imgRef now s) = false /\
     activeTab (handleGenerateGrid br fetch imgRef now s) = Tab.retouch /\
     gridImages (handleGenerateGrid br fetch imgRef now s) = [] /\
     gridPrompt (handleGenerateGrid br fetch imgRef now s) = "") /\
  (forall direction prompt img s1,
     handleExpandImage_begin s = Awaits img s1 ->
     snd (generateExpandedImage br fetch img direction prompt) = Resolved (Some url) ->
     appended "expanded-" (handleExpandImage br fetch direction prompt now s) /\
     justPlacedObject (handleExpandImage br fetch direction prompt now s) = false).
Proof.
  intros Hok Hurl. cbn zeta.
  split; [|split; [|split; [|split; [|split]]]]; intros * Hb Hr.
  all: unfold handleGenerate, handleApplyFilter, handleApplyAdjustment, handlePlaceObject,
         handleGenerateGrid, handleExpandImage;
    rewrite Hb, Hr; revert Hb;
    unfold handleGenerate_begin, handleApplyFilter_begin,
      handleApplyAdjustment_begin, handlePlaceObject_begin,
      handleGenerateGrid_begin, handleExpandImage_begin;
    repeat match goal with
           | |- context [match ?x with _ => _ end] => destruct x; try discriminate
           end;
    intros Hb; simplify_eq.
  all: unfold handleGenerate_settle, handleApplyFilter_settle,
         handleApplyAdjustment_settle, handlePlaceObject_settle,
         handleGenerateGrid_settle, handleExpandImage_settle, settle, defined;
       cbv beta iota.
  all: match goal with
       | |- context [dataURLtoFile _ (Some _) ?fn] =>
           destruct (Hurl fn) as [newFile Hf]; rewrite Hf
       end.
  all: (split; [|repeat split; reflexivity]).
  all: exists newFile; split; [reflexivity|]; split; [exact (dataURLtoFile_name _ _ _ Hf)|].
  all: match goal with
       | |- history ?s' = _ /\ _ =>
           destruct (appended_cells s newFile s' Hok) as (A & B & C & D);
             [reflexivity | reflexivity | ]
       end.
  all: repeat (split; [first [assumption | reflexivity]|]); reflexivity.
Qed.

(** X20.  How [handleApplyFilter] reports an image it cannot prepare; no
    request is sent and the history is untouched in each case.  When the
    file reader or the image decoder fails (a DOM event, not an [Error]),
    the message is 'Failed to apply the filter. An unknown error occurred.';
    when the reader gives no result, no 2D context is to be had or the
    canvas does not encode, it ends with the text [padImageToSquare]
    rejected with. *)
Theorem unreadable_image_is_reported (filterPrompt now : string) s img :
  currentImage s = Some img ->
  let s' := handleApplyFilter br fetch filterPrompt now s in
  let reported (reason : string) :=
    fst (generateFilteredImage br fetch img filterPrompt) = [] /\
    error s' = Some ("Failed to apply the filter. " +:+ reason) /\
    history s' = history s /\ historyIndex s' = historyIndex s /\
    isLoading s' = false in
  (readAsDataURL br img = reader_onerror -> reported "An unknown error occurred.") /\
  (forall result,
     readAsDataURL br img = reader_onload result -> truthy result = false ->
     reported "Could not read file") /\
  (forall url,
     readAsDataURL br img = reader_onload (Some url) -> truthy (Some url) = true ->
     (loadImage br url = None -> reported "An unknown error occurred.") /\
     (forall bitmap,
        loadImage br url = Some bitmap ->
        (getContext2d br = false ->
         reported "Could not get canvas context for padding") /\
        (getContext2d br = true -> toBlob br (padCanvas bitmap) "image/png" = None ->
         reported "Canvas to Blob conversion failed for padding"))).
Proof.
  intros Hcur. cbn zeta.
  unfold handleApplyFilter, handleApplyFilter_begin, handleApplyFilter_settle,
    generateFilteredImage, padImageToSquare. rewrite Hcur.
  split; [|split].
  - intros ->. now cbn.
  - intros result -> ->. now cbn.
  - intros url -> ->. cbn [negb interpolate]. split.
    + intros ->. now cbn.
    + intros bitmap ->. split.
      * intros ->. now cbn.
      * intros -> ->. now cbn.
Qed.

End OutcomeBehaviour.

Section ControlsBehaviour.
Import App.
Context {num : Type} `{JsNumber num}.

Implicit Types (s c : State num) (f : File num).

(** X21.  With a current image, the 'Generate' button of the retouch form
    is enabled exactly when the editor is not loading and [handleGenerate]
    gets past its guards to the service call; likewise the 'Generate
    Placement' button of [PlacePanel] and [handlePlaceObject] (and then the
    panel's own [handleApply] does call it), and, with a displayed image,
    the 'Generate Scene' button of [GridPanel] and [handleGenerateGrid]. *)
Theorem enabled_buttons_pass_the_guards s :
  is_Some (currentImage s) ->
  (retouchGenerateDisabled s = false <->
   isLoading s = false /\
   exists args, handleGenerate_begin s = Awaits args (setJustPlacedObject false (loading s))) /\
  (PlacePanel.generateDisabled (PlacePanel.props s) = false <->
   isLoading s = false /\
   exists args, handlePlaceObject_begin s = Awaits args (loading s)) /\
  (PlacePanel.generateDisabled (PlacePanel.props s) = false ->
   PlacePanel.handleApply (PlacePanel.props s) = true) /\
  (forall imgRef : Bitmap num,
     GridPanel.generateDisabled (isLoading s) (gridPrompt s) (gridImages s) = false <->
     isLoading s = false /\
     exists args, handleGenerateGrid_begin (Some imgRef) s
                  = Awaits args (setJustPlacedObject false (loading s))).
Proof.
  intros [cur Hcur].
  unfold retouchGenerateDisabled, PlacePanel.generateDisabled, PlacePanel.handleApply,
    PlacePanel.props, GridPanel.generateDisabled,
    handleGenerate_begin, handlePlaceObject_begin, handleGenerateGrid_begin.
  cbn [PlacePanel.isLoading PlacePanel.isLocationSelected PlacePanel.placementObject
       PlacePanel.placementPrompt].
  rewrite Hcur.
  split; [|split; [|split]].
  - destruct (isLoading s); cbn [orb]; [split; [discriminate|now intros [[=] _]]|].
    destruct (String.eqb (trim (prompt s)) ""); cbn [orb];
      [split; [discriminate|now intros [_ [? [=]]]]|].
    destruct (editHotspot s) as [h|]; cbn.
    + split; [|reflexivity]. intros _. split; [reflexivity|]. now eexists.
    + split; [discriminate|now intros [_ [? [=]]]].
  - destruct (isLoading s); cbn [orb]; [split; [discriminate|now intros [[=] _]]|].
    destruct (placementObject s) as [obj|]; cbn.
    2:{ rewrite orb_true_r. split; [discriminate|now intros [_ [? [=]]]]. }
    destruct (editHotspot s) as [h|]; cbn.
    2:{ rewrite !orb_true_r. split; [discriminate|now intros [_ [? [=]]]]. }
    destruct (String.eqb (trim (placementPrompt s)) ""); cbn.
    + split; [discriminate|now intros [_ [? [=]]]].
    + split; [|reflexivity]. intros _. split; [reflexivity|]. now eexists.
  - intros Hd. apply orb_false_iff in Hd as [Hd Hl]. apply orb_false_iff in Hd as [Hd Ho].
    apply orb_false_iff in Hd as [_ Hp]. apply negb_false_iff in Hl, Ho.
    rewrite Hl, Ho, andb_true_r, andb_true_r. apply negb_true_iff.
    destruct (placementPrompt s) as [|a p]; [discriminate|reflexivity].
  - intros imgRef.
    destruct (isLoading s); cbn [orb]; [split; [discriminate|now intros [[=] _]]|].
    destruct (gridImages s) as [|g gs]; cbn.
    { rewrite orb_true_r. split; [discriminate|now intros [_ [? [=]]]]. }
    destruct (String.eqb (trim (gridPrompt s)) ""); cbn.
    + split; [discriminate|now intros [_ [? [=]]]].
    + split; [|reflexivity]. intros _. split; [reflexivity|]. now eexists.
Qed.

End ControlsBehaviour.

Section GridPanelBehaviour.
Context {num : Type}.
Implicit Types (gridImages : list (File num)).

Lemma splice1_in_range {A} (l : list A) (i : nat) :
  (i < length l)%nat ->
  GridPanel.splice1 l (Z.of_nat i) = take i l ++ drop (S i) l.
Proof.
  intros Hi. unfold GridPanel.splice1.
  destruct (Z.ltb_spec (Z.of_nat i) 0); [lia|].
  rewrite Z.min_l by lia. now rewrite Nat2Z.id.
Qed.

(** X22.  [GridPanel]: removing the image at an index of the list takes
    out that entry and no other - the entries before stay, the later ones
    move up by one, the list is one shorter; selecting files appends them in
    order, and selecting none calls nothing; removing a file just appended
    at the end gives the list back. *)
Theorem grid_remove_image gridImages (index : nat) (f : File num) :
  gridImages !! index = Some f ->
  let rest := GridPanel.handleRemoveImage gridImages (Z.of_nat index) in
  rest = take index gridImages ++ drop (S index) gridImages /\
  S (length rest) = length gridImages /\
  (forall i, (i < index)%nat -> rest !! i = gridImages !! i) /\
  (forall i, (index <= i)%nat -> rest !! i = gridImages !! S i) /\
  (forall added : list (File num),
     added <> [] ->
     GridPanel.handleFileSelect gridImages (Some added) = Some (gridImages ++ added)) /\
  GridPanel.handleFileSelect gridImages (Some []) = None /\
  GridPanel.handleFileSelect gridImages None = None /\
  GridPanel.handleRemoveImage (gridImages ++ [f]) (Z.of_nat (length gridImages))
    = gridImages.
Proof.
  intros Hf rest. pose proof (lookup_lt_Some _ _ _ Hf) as Hlt.
  assert (Hleft : rest = take index gridImages ++ drop (S index) gridImages)
    by now apply splice1_in_range.
  split; [exact Hleft|].
  split; [rewrite Hleft, length_app, length_take, length_drop; lia|].
  split.
  { intros i Hi. rewrite Hleft, lookup_app_l by (rewrite length_take; lia).
    now apply lookup_take_lt. }
  split.
  { intros i Hi. rewrite Hleft, lookup_app_r by (rewrite length_take; lia).
    rewrite length_take, lookup_drop. f_equal. lia. }
  split; [now intros [|a added]|].
  split; [reflexivity|]. split; [reflexivity|].
  unfold GridPanel.handleRemoveImage. rewrite splice1_in_range by (rewrite length_app; cbn; lia).
  rewrite take_app_length, drop_ge by (rewrite length_app; cbn; lia).
  apply app_nil_r.
Qed.

End GridPanelBehaviour.

Section EditorBehaviourExamples.
Import App.

Lemma sampleEditing_ok : history_ok sampleEditing.
Proof. unfold history_ok. cbn. split; [lia|]. split; discriminate. Qed.

Lemma sampleEdited_ok : history_ok sampleEdited.
Proof. apply addImageToHistory_ok. Qed.

Lemma undo_redo_round_trip_witness :
  historyIndex (handleRedo (handleUndo sampleEdited)) = 1%Z /\
  currentImage (handleRedo (handleUndo sampleEdited)) = Some sampleObject.
Proof.
  pose proof (proj1 (undo_redo_round_trip sampleEdited sampleEdited_ok) eq_refl)
    as (_ & _ & Hi & Hc).
  split; [exact Hi|exact Hc].
Defined.

Lemma undo_returns_to_the_edited_image_witness :
  currentImage (handleUndo (addImageToHistory sampleEditing sampleObject sampleEditing))
  = Some sampleUpload.
Proof.
  exact (proj1 (proj2 (proj2 (proj2
           (undo_returns_to_the_edited_image sampleEditing sampleObject sampleUpload
              sampleEditing_ok eq_refl))))).
Defined.

Lemma reset_is_undo_to_the_start_witness :
  historyIndex (Nat.iter 1 handleUndo sampleEdited) = 0%Z /\
  currentImage (handleReset sampleEdited) = Some sampleUpload.
Proof.
  assert (Hne : history sampleEdited <> []) by discriminate.
  pose proof (reset_is_undo_to_the_start sampleEdited sampleEdited_ok Hne)
    as (_ & Hi & _ & Hu & Hc & _).
  split; [now rewrite <- Hi|exact Hc].
Defined.

Lemma generation_success_appends_witness :
  let s' := handleApplyFilter (sampleBrowser (flatImage 2 4)) answersWithImage
              "sepia" "1700000000000" sampleEditing in
  history s' = [ sampleUpload;
                 {| name := "filtered-1700000000000.png"; type := "image/png";
                    blob := BytesBlob "AAAA" |} ] /\
  historyIndex s' = 1%Z /\ isLoading s' = false /\ error s' = None.
Proof.
  cbn zeta.
  destruct (proj1 (proj2 (generation_success_appends
                            (sampleBrowser (flatImage 2 4)) answersWithImage
                            "1700000000000" "data:image/png;base64,AAAA" sampleEditing
                            sampleEditing_ok
                            (fun filename => ex_intro _ _ eq_refl)))
              "sepia" sampleUpload
              (setJustPlacedObject false (loading sampleEditing)) eq_refl eq_refl)
    as ((f & Hf & _ & Hh & Hi & _ & _ & Hl & He & _) & _).
  injection Hf as <-.
  split; [exact Hh|]. split; [exact Hi|]. split; [exact Hl|exact He].
Defined.

Lemma unreadable_image_is_reported_witness :
  let s := handleImageUpload corruptUpload initial in
  let s' := handleApplyFilter (sampleBrowser (flatImage 2 4)) offline
              "sepia" "1700000000000" s in
  error s' = Some "Failed to apply the filter. An unknown error occurred." /\
  history s' = [corruptUpload].
Proof.
  cbn zeta.
  pose proof (proj1 (proj2 (proj2
                (unreadable_image_is_reported (sampleBrowser (flatImage 2 4)) offline
                   "sepia" "1700000000000" (handleImageUpload corruptUpload initial)
                   corruptUpload eq_refl))
                "garbage" eq_refl eq_refl) eq_refl)
    as (_ & He & Hh & _).
  split; [exact He|exact Hh].
Defined.

Lemma enabled_buttons_pass_the_guards_witness :
  exists args,
    handleGenerate_begin sampleEditing
    = Awaits args (setJustPlacedObject false (loading sampleEditing)).
Proof.
  exact (proj2 (proj1 (proj1 (enabled_buttons_pass_the_guards sampleEditing
                                (ex_intro _ sampleUpload eq_refl)))
                      eq_refl)).
Defined.

Lemma grid_remove_image_witness :
  GridPanel.handleRemoveImage [sampleUpload; sampleObject] 0 = [sampleObject].
Proof.
  exact (proj1 (grid_remove_image [sampleUpload; sampleObject] 0 sampleUpload eq_refl)).
Defined.

End EditorBehaviourExamples.

(** ** The two versions of [handleApiResponse], and the crop handler *)

Section LegacyMessages.
Import Relay.

Lemma string_app_nil_r (m : string) : m +:+ "" = m.
Proof.
  induction m as [|a m IH]; [reflexivity|].
  change (String a (m +:+ "") = String a m). now rewrite IH.
Qed.

(** X24.  The relay's [handleApiResponse] is the earlier client-side one
    with the hints cut from two messages: on every response the two return
    the same data URL or both throw, and the earlier message is the relay's
    followed by nothing, by '. This often relates to safety settings.' (the
    stopped-unexpectedly error) or by ' Please try rephrasing your prompt
    to be more direct.' (the no-image error without text). *)
Theorem legacy_messages_extend_the_relay_messages response context :
  match handleApiResponse response context,
        LegacyService.handleApiResponse response context with
  | Return url, Return url' => url = url'
  | Throw e, Throw e' =>
      exists m hint,
        message e = Some m /\ message e' = Some (m +:+ hint) /\
        (hint = "" \/ hint = ". This often relates to safety settings." \/
         hint = " Please try rephrasing your prompt to be more direct.")
  | _, _ => False
  end.
Proof.
  unfold handleApiResponse, LegacyService.handleApiResponse.
  destruct (blockedBy response) as [fb|].
  { eexists _, "". split; [reflexivity|]. split; [|now left].
    cbn [message Error_]. f_equal. symmetry. apply string_app_nil_r. }
  destruct (imagePartFromResponse response) as [[[i|] t]|].
  - reflexivity.
  - destruct (_ && _).
    + eexists _, _. split; [reflexivity|]. split; [|right; left; reflexivity].
      cbn [message Error_]. f_equal. now rewrite !string_app_assoc.
    + destruct (truthy (textFeedback response)).
      * eexists _, "". split; [reflexivity|]. split; [|now left].
        cbn [message Error_]. f_equal. symmetry. apply string_app_nil_r.
      * eexists _, _. split; [reflexivity|]. split; [|right; right; reflexivity].
        cbn [message Error_]. f_equal. now rewrite !string_app_assoc.
  - destruct (_ && _).
    + eexists _, _. split; [reflexivity|]. split; [|right; left; reflexivity].
      cbn [message Error_]. f_equal. now rewrite !string_app_assoc.
    + destruct (truthy (textFeedback response)).
      * eexists _, "". split; [reflexivity|]. split; [|now left].
        cbn [message Error_]. f_equal. symmetry. apply string_app_nil_r.
      * eexists _, _. split; [reflexivity|]. split; [|right; right; reflexivity].
        cbn [message Error_]. f_equal. now rewrite !string_app_assoc.
Qed.

End LegacyMessages.

Section CropBehaviour.
Import App.
Context {num : Type} `{JsNumber num}.
Variable br : Browser num.

Implicit Types (s c : State num) (f : File num).

(** X25.  [handleApplyCrop] with a completed selection, a displayed image
    and a 2D context, when [dataURLtoFile] reads the canvas's data URL:
    the cropped file is appended after the current entry and is current,
    [crop] and [completedCrop] are cleared, [justPlacedObject] is false and
    the error message is as it was.  The selection being cleared, applying
    again reports 'Please select an area to crop.' and leaves the history
    alone. *)
Theorem crop_is_applied_once (imgRef : Bitmap num) (croppedImageUrl now : string)
    (area : PixelCrop num) s f :
  completedCrop s = Some area ->
  getContext2d br = true ->
  dataURLtoFile br (Some croppedImageUrl) ("cropped-" +:+ now +:+ ".png") = Resolved f ->
  let s1 := handleApplyCrop br (Some imgRef) croppedImageUrl now s in
  history s1 = slice0 (history s) (historyIndex s + 1) ++ [f] /\
  currentImage s1 = Some f /\
  crop s1 = None /\ completedCrop s1 = None /\
  justPlacedObject s1 = false /\ error s1 = error s /\
  forall imgRef' croppedImageUrl' now',
    let s2 := handleApplyCrop br imgRef' croppedImageUrl' now' s1 in
    error s2 = Some "Please select an area to crop." /\
    history s2 = history s1 /\ historyIndex s2 = historyIndex s1.
Proof.
  intros Harea Hctx Hf s1. subst s1. unfold handleApplyCrop at 1 2 3 4 5 6.
  rewrite Harea, Hctx, Hf. cbn [negb].
  destruct (addImageToHistory_cells s f (setJustPlacedObject false s)) as (Hh & _ & Hc & _).
  split; [exact Hh|]. split; [exact Hc|]. split; [reflexivity|]. split; [reflexivity|].
  split; [reflexivity|]. split; [reflexivity|].
  intros imgRef' url' now'. unfold handleApplyCrop. rewrite Harea, Hctx, Hf. cbn [negb].
  now cbn.
Qed.

End CropBehaviour.

Section CropExamples.
Import App.

Lemma crop_is_applied_once_witness :
  let area := {| crop_x := num_of_Z 0; crop_y := num_of_Z 0;
                 crop_width := num_of_Z 1; crop_height := num_of_Z 2 |} in
  let br := sampleBrowser (num:=Qc) (flatImage 2 4) in
  let s1 := handleApplyCrop br (Some (flatImage 2 4)) "data:image/png;base64,AAAA"
              "1700000000000" (setCompletedCrop (Some area) sampleEditing) in
  completedCrop s1 = None /\
  error (handleApplyCrop br (Some (flatImage 2 4)) "data:image/png;base64,AAAA"
           "1700000000001" s1)
  = Some "Please select an area to crop.".
Proof.
  cbn zeta.
  pose proof (crop_is_applied_once (sampleBrowser (num:=Qc) (flatImage 2 4))
                (flatImage 2 4) "data:image/png;base64,AAAA" "1700000000000"
                {| crop_x := num_of_Z 0; crop_y := num_of_Z 0;
                   crop_width := num_of_Z 1; crop_height := num_of_Z 2 |}
                (setCompletedCrop
                   (Some {| crop_x := num_of_Z 0; crop_y := num_of_Z 0;
                            crop_width := num_of_Z 1; crop_height := num_of_Z 2 |})
                   sampleEditing)
                {| name := "cropped-1700000000000.png"; type := "image/png";
                   blob := BytesBlob "AAAA" |}
                eq_refl eq_refl eq_refl) as (_ & _ & _ & Hc & _ & _ & Hagain).
  split; [exact Hc|].
  exact (proj1 (Hagain (Some (flatImage 2 4)) "data:image/png;base64,AAAA" "1700000000001")).
Defined.

End CropExamples.
